(** * Event-log reading and per-run maximum: a shallow embedding

    The development embeds the two Python modules of the repository,
    [read_results.py] (the locator of event files, the two parsing
    backends and their fallback in [read_events], the multi-file read
    loop of [main]) and [collect_max_tag.py] ([compute_max_for_run], the
    maximum of one scalar tag over a run directory), and settles the
    properties the specification states of them.

    Conventions.
    - A Python [float] is a binary64 value: Rocq's primitive [float],
      with the IEEE comparisons (every comparison with NaN is false).
    - A path is the list of its components below the working directory,
      each a plain name; the file system is POSIX (names compare by
      case).
    - A function that can raise returns a [Result]; a function that
      prints returns what it printed next to its result, in order.
    - What is outside the repository is modelled by what the code asks
      of it: [os.path], [glob] and [fnmatch] over a tree of directories
      and files; tensorboard's [EventAccumulator] and tensorflow's
      [summary_iterator] over the events each library decodes from a
      file (a file with no session restart, so that the accumulator
      purges nothing). *)

From Stdlib Require Import ZArith Lia Bool Ascii String Floats.
From Stdlib Require Import Sorting.Sorted Sorting.Permutation.
From stdpp Require Import base option list strings gmap.

Set Warnings "-register-all".
Local Open Scope Z_scope.
Local Open Scope string_scope.
Local Open Scope list_scope.

(** * Part I: definitions *)

(** ** Python floats and their comparisons *)

Module PyFloat.

(** Python's [a > b], [a >= b], [a == b] on floats. *)
Definition gt (a b : float) : bool := PrimFloat.ltb b a.
Definition ge (a b : float) : bool := PrimFloat.leb b a.
Definition eq (a b : float) : bool := PrimFloat.eqb a b.
Definition is_nan (a : float) : bool := PrimFloat.is_nan a.

(** A key that orders the specification floats other than NaN the way
    [SFcompare] does: sign class first, then exponent, then mantissa. *)
Definition key (f : spec_float) : Z * Z * Z :=
  match f with
  | S754_nan => (0, 0, 0)
  | S754_zero _ => (0, 0, 0)
  | S754_infinity true => (-2, 0, 0)
  | S754_infinity false => (2, 0, 0)
  | S754_finite true m e => (-1, - e, - Z.pos m)
  | S754_finite false m e => (1, e, Z.pos m)
  end.

Definition lex_lt (k1 k2 : Z * Z * Z) : Prop :=
  let '(a1, b1, c1) := k1 in
  let '(a2, b2, c2) := k2 in
  a1 < a2 \/ (a1 = a2 /\ (b1 < b2 \/ (b1 = b2 /\ c1 < c2))).

End PyFloat.

(** ** Results, exceptions, printed output *)

(** The exception classes the two modules raise or catch.  [ImportError]
    is what a missing library raises at its [import]; [OtherException]
    stands for any exception that is not an [ImportError] (what a
    library raises on a file it cannot decode); [SystemExit] is
    [sys.exit]. *)
Inductive exn_class :=
  | ImportError
  | FileNotFoundError
  | RuntimeError
  | SystemExit
  | OtherException.

(** An exception with the text [str(e)] gives. *)
Record exn := Exn { exn_cls : exn_class; exn_msg : string }.

Inductive Result (A : Type) :=
  | Ok (a : A)
  | Raise (e : exn).
Arguments Ok {A} a.
Arguments Raise {A} e.

(** [print] writes a line to the standard output; [sys.stderr.write]
    writes its text, as it is, to the diagnostic stream. *)
Inductive output :=
  | Stdout (line : string)
  | Stderr (text : string).

Definition is_ImportError (e : exn) : bool :=
  match exn_cls e with ImportError => true | _ => false end.

Definition nl : string := String (ascii_of_nat 10) EmptyString.

(** ** Paths and the file system *)

Definition path := list string.

(** [os.path.join path name] *)
Definition path_join (p : path) (name : string) : path := p ++ [name].

(** [os.path.basename] of a path without trailing separator. *)
Definition basename (p : path) : string := List.last p EmptyString.

(** The text of a path in a message. *)
Definition path_str (p : path) : string := String.concat "/" p.

(** A file carries the time [os.path.getmtime] reports for it (a finite
    timestamp, counted in clock ticks); a directory maps the names of
    its entries to them. *)
Inductive node :=
  | File (mtime : Z)
  | Dir (entries : gmap string node).

Fixpoint lookup_node (root : node) (p : path) : option node :=
  match p with
  | [] => Some root
  | name :: rest =>
      match root with
      | File _ => None
      | Dir entries =>
          match entries !! name with
          | Some child => lookup_node child rest
          | None => None
          end
      end
  end.

Definition node_is_dir (n : node) : bool :=
  match n with Dir _ => true | File _ => false end.

Definition node_is_file (n : node) : bool :=
  match n with File _ => true | Dir _ => false end.

Definition isdir (fs : node) (p : path) : bool :=
  match lookup_node fs p with Some n => node_is_dir n | None => false end.

Definition isfile (fs : node) (p : path) : bool :=
  match lookup_node fs p with Some n => node_is_file n | None => false end.

(** [os.path.getmtime]; the locator asks it of regular files only. *)
Definition getmtime (fs : node) (p : path) : Z :=
  match lookup_node fs p with Some (File m) => m | _ => 0 end.

(** [os.listdir]: the entries of a directory, in the order the system
    gives them; nothing for what is not a directory. *)
Definition listdir (fs : node) (p : path) : list (string * node) :=
  match lookup_node fs p with
  | Some (Dir entries) => map_to_list entries
  | _ => []
  end.

(** ** [fnmatch] and [glob] of the Python library *)

Module Glob.

Inductive item :=
  | Star                                  (* [*] *)
  | AnyChar                               (* [?] *)
  | Class (negated : bool) (body : list ascii)  (* [[seq]], [[!seq]] *)
  | Lit (c : ascii).

Definition ascii_le (a b : ascii) : bool :=
  (N_of_ascii a <=? N_of_ascii b)%N.

(** Membership in the body of a bracket expression: [a-b] is a range
    (empty when [a > b]), any other character stands for itself. *)
Fixpoint in_class (body : list ascii) (c : ascii) : bool :=
  match body with
  | [] => false
  | a :: rest =>
      match rest with
      | "-"%char :: b :: rest' =>
          (ascii_le a c && ascii_le c b) || in_class rest' c
      | _ => Ascii.eqb a c || in_class rest c
      end
  end.

(** The text up to the next ["]"], and what follows it. *)
Fixpoint until_close (cs : list ascii) : option (list ascii * list ascii) :=
  match cs with
  | [] => None
  | c :: rest =>
      if Ascii.eqb c "]" then Some ([], rest)
      else match until_close rest with
           | Some (body, after) => Some (c :: body, after)
           | None => None
           end
  end.

(** After ["["]: an optional ["!"], then an optional ["]"] that belongs
    to the set, then the text up to the closing ["]"]. *)
Definition bracket (cs : list ascii) : option (bool * list ascii * list ascii) :=
  let '(negated, cs1) :=
    match cs with
    | "!"%char :: r => (true, r)
    | _ => (false, cs)
    end in
  let '(lead, cs2) :=
    match cs1 with
    | "]"%char :: r => (["]"%char], r)
    | _ => ([], cs1)
    end in
  match until_close cs2 with
  | Some (body, after) => Some (negated, lead ++ body, after)
  | None => None
  end.

(** [fnmatch.translate]: a ["["] with no closing ["]"] is a literal. *)
Fixpoint translate_fuel (fuel : nat) (pat : list ascii) : list item :=
  match fuel with
  | O => []
  | S fuel' =>
      match pat with
      | [] => []
      | "*"%char :: rest => Star :: translate_fuel fuel' rest
      | "?"%char :: rest => AnyChar :: translate_fuel fuel' rest
      | "["%char :: rest =>
          match bracket rest with
          | Some (negated, body, after) =>
              Class negated body :: translate_fuel fuel' after
          | None => Lit "[" :: translate_fuel fuel' rest
          end
      | c :: rest => Lit c :: translate_fuel fuel' rest
      end
  end.

Definition translate (pat : string) : list item :=
  let cs := list_ascii_of_string pat in
  translate_fuel (S (length cs)) cs.

Definition item_matches (it : item) (c : ascii) : bool :=
  match it with
  | Star | AnyChar => true
  | Class negated body => xorb negated (in_class body c)
  | Lit a => Ascii.eqb a c
  end.

(** The whole of [s] against the items. *)
Fixpoint match_items (items : list item) (s : list ascii) : bool :=
  match items with
  | [] => match s with [] => true | _ :: _ => false end
  | Star :: items' =>
      (fix star (s : list ascii) : bool :=
         match_items items' s ||
         match s with [] => false | _ :: s' => star s' end) s
  | it :: items' =>
      match s with
      | [] => false
      | c :: s' => item_matches it c && match_items items' s'
      end
  end.

Definition fnmatch (name pat : string) : bool :=
  match_items (translate pat) (list_ascii_of_string name).

(** [glob.has_magic]: one of [*], [?], [[] occurs. *)
Definition is_magic_char (c : ascii) : bool :=
  Ascii.eqb c "*" || Ascii.eqb c "?" || Ascii.eqb c "[".

Definition has_magic (s : string) : bool :=
  existsb is_magic_char (list_ascii_of_string s).

Definition ishidden (name : string) : bool :=
  match name with String "."%char _ => true | _ => false end.

(** One component of a pattern, below directory [d]: a component with
    a wildcard is matched against the listing of [d] (names that
    start with a dot only when the pattern does; directories only
    when more components follow); one without is kept when it
    exists. *)
Definition step (fs : node) (dironly : bool) (pat : string) (d : path)
  : list path :=
  if has_magic pat then
    let keep (e : string * node) : bool :=
      fnmatch (fst e) pat
      && (ishidden pat || negb (ishidden (fst e)))
      && (negb dironly || node_is_dir (snd e)) in
    List.map (fun e => path_join d (fst e)) (List.filter keep (listdir fs d))
  else
    match lookup_node fs (path_join d pat) with
    | Some _ => [path_join d pat]
    | None => []
    end.

Fixpoint expand (fs : node) (dirs : list path) (pats : list string)
  : list path :=
  match pats with
  | [] => dirs
  | pat :: rest =>
      expand fs
        (List.flat_map (step fs (negb (Nat.eqb (length rest) 0)) pat) dirs)
        rest
  end.

(** [glob.glob pattern], the pattern given by its components. *)
Definition glob (fs : node) (pattern : path) : list path :=
  expand fs [[]] pattern.

End Glob.

(** [sorted(l, key=key)]: the stable sort, by insertion from the right. *)
Fixpoint insert_by {A : Type} (lt : A -> A -> bool) (x : A) (l : list A)
  : list A :=
  match l with
  | [] => [x]
  | y :: l' => if lt y x then y :: insert_by lt x l' else x :: l
  end.

Definition sorted_by {A : Type} (lt : A -> A -> bool) (l : list A) : list A :=
  List.fold_right (insert_by lt) [] l.

(** ** read_results.py: the locator *)

Definition event_pattern : string := "events.out.tfevents.*".

Definition _find_event_files (fs : node) (p : path) : Result (list path) :=
  if isdir fs p then
    let files := Glob.glob fs (path_join p event_pattern) in
    let files := List.filter (isfile fs) files in
    Ok (sorted_by (fun a b => Z.ltb (getmtime fs a) (getmtime fs b)) files)
  else if isfile fs p then
    Ok [p]
  else
    Raise (Exn FileNotFoundError ("Path not found: " +:+ path_str p)).

(** ** Event files and the two libraries that decode them *)

(** What a summary entry carries: a scalar ([simple_value] is set), or
    one of the other kinds (histogram, image, audio, tensor). *)
Inductive payload :=
  | simple_value (v : float)
  | non_scalar.

Record SummaryValue := {
  sv_tag : string;
  sv_payload : payload
}.

(** The field of the [what] group an event has set: the version line
    that opens a file, with the number the library reads from its text
    (2 for [brain.Event:2], -1 for a text it cannot read); a session
    log, which is a session start or not; a summary with its entries;
    or one of the others (graph, log message, run metadata), or none. *)
Inductive what :=
  | file_version (version : float)
  | session_log (start : bool)
  | summary (value : list SummaryValue)
  | other_field.

(** An event record: protocol-buffer messages always have their [step]
    and [wall_time] fields (unset ones read as the default). *)
Record Event := {
  ev_step : Z;
  ev_wall_time : float;
  ev_what : what
}.

(** [e.summary.value]: a summary that is not set reads as an empty
    one. *)
Definition ev_summary (e : Event) : list SummaryValue :=
  match ev_what e with
  | summary value => value
  | _ => []
  end.

(** [event.HasField("summary")] *)
Definition has_summary (e : Event) : bool :=
  match ev_what e with
  | summary _ => true
  | _ => false
  end.

(** What a library makes of the bytes of one file: its events, or an
    exception with its text. *)
Inductive decoded :=
  | Events (evs : list Event)
  | Corrupt (msg : string).

(** The world the program runs in: the file system, which of the two
    libraries are installed, and what each of them decodes from each
    path. *)
Record Env := {
  fs : node;
  tensorboard_installed : bool;
  tensorflow_installed : bool;
  tensorboard_load : path -> decoded;
  tensorflow_load : path -> decoded
}.

(** A normalized row, the dict [{tag, step, value, wall_time}], with the
    [file] key that [main] adds; [r.get(k)] is the field, [None] when
    the key is missing. *)
Record Row := {
  row_tag : string;
  row_step : option Z;
  row_value : option float;
  row_wall_time : option float;
  row_file : option string
}.

(** *** tensorboard's [EventAccumulator] *)

Record ScalarEvent := {
  se_wall_time : float;
  se_step : Z;
  se_value : float
}.

(** The library is not part of the repository.  What the reader depends
    on is written out here after its [event_accumulator.py] and
    [reservoir.py]: the accumulator the reader builds has
    [size_guidance] 0 for scalars, so a bucket keeps every item added
    to it, and the default [purge_orphaned_data], so items are dropped
    again when a session restarts or, in a file without a version line
    of 2 or more, when the step goes back.

    The scalar reservoir: the buckets in the order their keys were
    first added, each with its items in the order they were added. *)
Definition Reservoir := list (string * list ScalarEvent).

(** [Reservoir.AddItem(key, item)] *)
Fixpoint AddItem (key : string) (item : ScalarEvent) (buckets : Reservoir)
  : Reservoir :=
  match buckets with
  | [] => [(key, [item])]
  | (t, items) :: rest =>
      if String.eqb t key then (t, items ++ [item]) :: rest
      else (t, items) :: AddItem key item rest
  end.

(** [Reservoir.FilterItems(filterFn, key)]: the bucket of [key] when
    [key] is true (given and not empty), every bucket otherwise. *)
Definition FilterItems (filterFn : ScalarEvent -> bool) (key : option string)
    (buckets : Reservoir) : Reservoir :=
  match key with
  | Some (String _ _ as k) =>
      List.map (fun b =>
        if String.eqb (fst b) k then (fst b, List.filter filterFn (snd b))
        else b) buckets
  | _ => List.map (fun b => (fst b, List.filter filterFn (snd b))) buckets
  end.

(** [Reservoir.Items(key)], asked by the reader only of keys of
    [Keys()]. *)
Fixpoint Items (key : string) (buckets : Reservoir) : list ScalarEvent :=
  match buckets with
  | [] => []
  | (t, items) :: rest => if String.eqb t key then items else Items key rest
  end.

(** The fields of the accumulator that decide what it keeps. *)
Record Accumulator := {
  acc_file_version : option float;
  most_recent_step : Z;
  scalars : Reservoir
}.

Definition new_accumulator : Accumulator :=
  {| acc_file_version := None; most_recent_step := -1; scalars := [] |}.

(** [_NotExpired = lambda x: x.step < event.step] *)
Definition _NotExpired (event : Event) (x : ScalarEvent) : bool :=
  Z.ltb (se_step x) (ev_step event).

(** [_Purge(event, by_tags)] on the scalar reservoir. *)
Definition _Purge (event : Event) (by_tags : bool) (buckets : Reservoir)
  : Reservoir :=
  if by_tags then
    List.fold_left (fun bs value =>
      FilterItems (_NotExpired event) (Some (sv_tag value)) bs)
      (ev_summary event) buckets
  else FilterItems (_NotExpired event) None buckets.

(** [self.file_version and self.file_version >= 2] *)
Definition version_recent (file_version : option float) : bool :=
  match file_version with
  | None => false
  | Some v => negb (PyFloat.eq v 0) && PyFloat.ge v 2
  end.

(** [_MaybePurgeOrphanedData(event)]: with a recent file version a
    session start purges every bucket; without one a summary whose step
    is below the most recent purges the buckets of its own tags.  The
    step of a summary becomes the most recent step. *)
Definition _MaybePurgeOrphanedData (acc : Accumulator) (event : Event)
  : Accumulator :=
  let kept :=
    if version_recent (acc_file_version acc) then
      match ev_what event with
      | session_log true => _Purge event false (scalars acc)
      | _ => scalars acc
      end
    else if Z.ltb (ev_step event) (most_recent_step acc) && has_summary event
    then _Purge event true (scalars acc)
    else scalars acc in
  {| acc_file_version := acc_file_version acc;
     most_recent_step :=
       if has_summary event then ev_step event else most_recent_step acc;
     scalars := kept |}.

(** [_ProcessScalar] on each entry of the summary whose [simple_value]
    is set. *)
Definition add_scalars (event : Event) (buckets : Reservoir) : Reservoir :=
  List.fold_left (fun bs value =>
    match sv_payload value with
    | simple_value x =>
        AddItem (sv_tag value)
          {| se_wall_time := ev_wall_time event; se_step := ev_step event;
             se_value := x |} bs
    | non_scalar => bs
    end) (ev_summary event) buckets.

(** [_ProcessEvent(event)] *)
Definition _ProcessEvent (acc : Accumulator) (event : Event) : Accumulator :=
  let acc :=
    match ev_what event with
    | file_version v =>
        {| acc_file_version := Some v;
           most_recent_step := most_recent_step acc;
           scalars := scalars acc |}
    | _ => acc
    end in
  let acc := _MaybePurgeOrphanedData acc event in
  {| acc_file_version := acc_file_version acc;
     most_recent_step := most_recent_step acc;
     scalars := add_scalars event (scalars acc) |}.

(** [Reload()] of a new accumulator on the events of the file. *)
Definition Reload (evs : list Event) : Accumulator :=
  List.fold_left _ProcessEvent evs new_accumulator.

(** The keys of a dict in insertion order. *)
Fixpoint first_seen (l : list string) : list string :=
  match l with
  | [] => []
  | x :: l' => x :: List.filter (fun y => negb (String.eqb x y)) (first_seen l')
  end.

(** [ea.Tags()['scalars']] *)
Definition ea_Tags_scalars (evs : list Event) : list string :=
  List.map fst (scalars (Reload evs)).

(** [ea.Scalars(tag)] *)
Definition ea_Scalars (evs : list Event) (t : string) : list ScalarEvent :=
  Items t (scalars (Reload evs)).

(** ** read_results.py: the two backends *)

(** The truth value of [wanted_tags]: [None] and the empty list are
    false. *)
Definition truthy (wanted_tags : option (list string)) : bool :=
  match wanted_tags with
  | None | Some [] => false
  | Some (_ :: _) => true
  end.

(** [t in wanted_tags], asked only when [wanted_tags] is true. *)
Definition tag_in (t : string) (wanted_tags : option (list string)) : bool :=
  match wanted_tags with
  | None => false
  | Some l => existsb (String.eqb t) l
  end.

Definition _read_with_event_accumulator (env : Env) (event_path : path)
    (wanted_tags : option (list string)) : Result (list Row * list string) :=
  if tensorboard_installed env then
    match tensorboard_load env event_path with
    | Corrupt msg => Raise (Exn OtherException msg)
    | Events evs =>
        let available := ea_Tags_scalars evs in
        let tags :=
          if truthy wanted_tags
          then List.filter (fun t => tag_in t wanted_tags) available
          else available in
        let rows :=
          List.flat_map (fun tag =>
            List.map (fun ev =>
              {| row_tag := tag;
                 row_step := Some (se_step ev);
                 row_value := Some (se_value ev);
                 row_wall_time := Some (se_wall_time ev);
                 row_file := None |}) (ea_Scalars evs tag)) tags in
        Ok (rows, available)
    end
  else Raise (Exn ImportError "No module named 'tensorboard'").

(** [hasattr(v, "simple_value")]: a protocol-buffer message has every
    field of its type as an attribute, set or not. *)
Definition hasattr_simple_value (v : SummaryValue) : bool := true.

(** [v.simple_value]: the value when set, the default [0.0] otherwise. *)
Definition get_simple_value (v : SummaryValue) : float :=
  match sv_payload v with
  | simple_value x => x
  | non_scalar => 0%float
  end.

(** The body of the inner loop, on the pair of [available] and [rows].
    The guards [not hasattr(e, "summary") or e.summary is None] and
    [v.tag is None] never hold of protocol-buffer messages (an unset
    message field reads as an empty message, an unset string as the
    empty string), so no event and no entry is passed over by them. *)
Definition tf_visit (wanted_tags : option (list string)) (e : Event)
    (acc : gset string * list Row) (v : SummaryValue) : gset string * list Row :=
  let '(available, rows) := acc in
  let available := {[ sv_tag v ]} ∪ available in
  if truthy wanted_tags && negb (tag_in (sv_tag v) wanted_tags) then
    (available, rows)
  else if hasattr_simple_value v then
    (available,
     rows ++ [{| row_tag := sv_tag v;
                 row_step := Some (ev_step e);
                 row_value := Some (get_simple_value v);
                 row_wall_time := Some (ev_wall_time e);
                 row_file := None |}])
  else (available, rows).

Definition tf_scan (wanted_tags : option (list string)) (evs : list Event)
  : gset string * list Row :=
  List.fold_left (fun acc e =>
    List.fold_left (tf_visit wanted_tags e) (ev_summary e) acc) evs (∅, []).

Definition _read_with_tf_summary_iterator (env : Env) (event_path : path)
    (wanted_tags : option (list string)) : Result (list Row * list string) :=
  if tensorflow_installed env then
    match tensorflow_load env event_path with
    | Corrupt msg => Raise (Exn OtherException msg)
    | Events evs =>
        let '(available, rows) := tf_scan wanted_tags evs in
        Ok (rows, sorted_by String.ltb (elements available))
    end
  else Raise (Exn ImportError "No module named 'tensorflow'").

(** ** read_results.py: [read_events] *)

Definition backend_A : string := "tensorboard.EventAccumulator".
Definition backend_B : string := "tensorflow.summary_iterator".

Definition warn_A (event_path : path) (e : exn) : output :=
  Stderr ("[Warn] EventAccumulator failed on " +:+ path_str event_path
          +:+ ": " +:+ exn_msg e +:+ nl
          +:+ "Trying tensorflow summary_iterator..." +:+ nl).

Definition msg_neither : string :=
  "Neither tensorboard nor tensorflow is available. Please install one of them:"
  +:+ nl +:+ "  pip install tensorboard" +:+ nl +:+ "or" +:+ nl
  +:+ "  pip install tensorflow".

Definition msg_parse (e : exn) : string :=
  "Failed to parse event file with tensorflow: " +:+ exn_msg e.

Definition read_events (env : Env) (event_path : path)
    (tags : option (list string))
  : list output * Result (list Row * list string * string) :=
  match _read_with_event_accumulator env event_path tags with
  | Ok (rows, available) => ([], Ok (rows, available, backend_A))
  | Raise e =>
      let warned := if is_ImportError e then [] else [warn_A event_path e] in
      match _read_with_tf_summary_iterator env event_path tags with
      | Ok (rows, available) => (warned, Ok (rows, available, backend_B))
      | Raise e' =>
          if is_ImportError e'
          then (warned, Raise (Exn RuntimeError msg_neither))
          else (warned, Raise (Exn RuntimeError (msg_parse e')))
      end
  end.

(** ** read_results.py: the multi-file read of [main] *)

Definition set_file (name : string) (r : Row) : Row :=
  {| row_tag := row_tag r; row_step := row_step r; row_value := row_value r;
     row_wall_time := row_wall_time r; row_file := Some name |}.

(** What the loop of [main] holds: [all_rows], [union_tags],
    [used_backend]. *)
Record ReadState := {
  all_rows : list Row;
  union_tags : gset string;
  used_backend : option string
}.

(** The loop [for f in event_files] of [main]: [read_events] is called
    with no handler around it, so its exception ends the loop and
    [main]. *)
Fixpoint main_loop (env : Env) (tags : option (list string))
    (event_files : list path) (st : ReadState)
  : list output * Result ReadState :=
  match event_files with
  | [] => ([], Ok st)
  | f :: rest =>
      match read_events env f tags with
      | (out, Raise e) => (out, Raise e)
      | (out, Ok (rows, available, backend)) =>
          let st' :=
            {| all_rows := all_rows st ++ List.map (set_file (basename f)) rows;
               union_tags := union_tags st ∪ list_to_set available;
               used_backend :=
                 match used_backend st with
                 | Some b => Some b
                 | None => Some backend
                 end |} in
          let '(out', res) := main_loop env tags rest st' in
          (out ++ out', res)
      end
  end.

(** [main] from the location of the files to the end of the read loop,
    on the parsed arguments [path], [--tags] and [--latest]. *)
Definition main (env : Env) (p : path) (tags : option (list string))
    (latest : bool) : list output * Result ReadState :=
  match _find_event_files (fs env) p with
  | Raise e => ([], Raise e)
  | Ok event_files =>
      match event_files with
      | [] => ([Stdout "No event files found."], Raise (Exn SystemExit "1"))
      | _ :: _ =>
          let event_files :=
            if latest && Nat.ltb 1 (length event_files)
            then [List.last event_files []]
            else event_files in
          main_loop env tags event_files
            {| all_rows := []; union_tags := ∅; used_backend := None |}
      end
  end.

(** ** collect_max_tag.py: [compute_max_for_run] *)

(** The three variables of the scan. *)
Record MaxState := {
  st_max_value : option float;
  st_max_step : option Z;
  st_max_file : option string
}.

Definition init_state : MaxState :=
  {| st_max_value := None; st_max_step := None; st_max_file := None |}.

(** The body of [for r in rows], for the file named [fname]. *)
Definition scan_row (fname : string) (st : MaxState) (r : Row) : MaxState :=
  match row_value r with
  | None => st
  | Some v =>
      let better :=
        match st_max_value st with
        | None => true
        | Some m => PyFloat.gt v m
        end in
      if better
      then {| st_max_value := Some v; st_max_step := row_step r;
              st_max_file := Some fname |}
      else st
  end.

Definition warn_skip (f : path) (e : exn) : output :=
  Stdout ("[Warn] Skip file due to parse error: " +:+ path_str f
          +:+ ": " +:+ exn_msg e).

(** The dict the function returns. *)
Record RunSummary := {
  run : string;
  max_value : float;
  max_step : option Z;
  max_file : option string
}.

Section Aggregator.

(** The function bound to the name [read_events] in
    [collect_max_tag.py]. *)
Variable reader :
  path -> option (list string) ->
  list output * Result (list Row * list string * string).

(** The loop [for f in event_files]: a file whose read raises is
    reported and skipped. *)
Fixpoint scan_files (tag : string) (event_files : list path) (st : MaxState)
  : list output * MaxState :=
  match event_files with
  | [] => ([], st)
  | f :: rest =>
      match reader f (Some [tag]) with
      | (out, Ok (rows, _, _)) =>
          let st' := List.fold_left (scan_row (basename f)) rows st in
          let '(out', final) := scan_files tag rest st' in
          (out ++ out', final)
      | (out, Raise e) =>
          let '(out', final) := scan_files tag rest st in
          (out ++ warn_skip f e :: out', final)
      end
  end.

(** From the initialisation of the three variables to the end of the
    function, on the files selected. *)
Definition aggregate (run_dir : path) (tag : string)
    (event_files : list path) : list output * option RunSummary :=
  let '(out, st) := scan_files tag event_files init_state in
  match st_max_value st with
  | None => (out, None)
  | Some v =>
      (out,
       Some {| run := basename run_dir; max_value := v;
               max_step := st_max_step st; max_file := st_max_file st |})
  end.

Definition compute_max_for_run_with (fs : node) (run_dir : path)
    (tag : string) (latest_only : bool)
  : list output * Result (option RunSummary) :=
  match _find_event_files fs run_dir with
  | Raise e => ([], Raise e)
  | Ok event_files =>
      match event_files with
      | [] => ([], Ok None)
      | _ :: _ =>
          let event_files :=
            if latest_only && Nat.ltb 1 (length event_files)
            then [List.last event_files []]
            else event_files in
          let '(out, res) := aggregate run_dir tag event_files in
          (out, Ok res)
      end
  end.

End Aggregator.

(** [compute_max_for_run] with the [read_events] of [read_results.py].
    The conversions [float(max_value)] and [int(max_step)] of the
    returned dict leave a float and an integer as they are. *)
Definition compute_max_for_run (env : Env) (run_dir : path) (tag : string)
    (latest_only : bool) : list output * Result (option RunSummary) :=
  compute_max_for_run_with (read_events env) (fs env) run_dir tag latest_only.

(** ** The records of a run and the properties stated of them *)

(** The records the scan meets, in order: for each file the rows its
    read returns, each with the base name of the file; nothing for a
    file whose read raises. *)
Definition records_of
    (reader : path -> option (list string) ->
              list output * Result (list Row * list string * string))
    (tag : string) (event_files : list path) : list (string * Row) :=
  List.flat_map (fun f =>
    match reader f (Some [tag]) with
    | (_, Ok (rows, _, _)) => List.map (fun r => (basename f, r)) rows
    | (_, Raise _) => []
    end) event_files.

Definition scan_record (st : MaxState) (rec : string * Row) : MaxState :=
  scan_row (fst rec) st (snd rec).

(** Record number [i] of [recs], from file [f], has value [v], no
    record has a greater value, and every record before it has a
    smaller one (so among records that tie on [v] it is the first). *)
Definition first_max_at (recs : list (string * Row)) (i : nat)
    (f : string) (r : Row) (v : float) : Prop :=
  recs !! i = Some (f, r) /\
  row_value r = Some v /\
  forall j f' r' v',
    recs !! j = Some (f', r') -> row_value r' = Some v' ->
    PyFloat.ge v v' = true /\
    ((j < i)%nat -> PyFloat.gt v v' = true) /\
    (PyFloat.eq v' v = true -> (i <= j)%nat).

(** The summary reports the first greatest record of [recs]. *)
Definition reports_first_max (recs : list (string * Row)) (s : RunSummary)
  : Prop :=
  exists i f r,
    first_max_at recs i f r (max_value s) /\
    max_step s = row_step r /\
    max_file s = Some f.

Definition mtime_le (fs : node) (a b : path) : Prop :=
  getmtime fs a <= getmtime fs b.

(** The event files of a run directory: the regular files directly
    inside it whose name begins with [events.out.tfevents.], each once,
    oldest first. *)
Definition event_files_of (fs : node) (run_dir : path) (files : list path)
  : Prop :=
  StronglySorted (mtime_le fs) files /\
  List.NoDup files /\
  forall q, In q files <->
    exists name m,
      q = path_join run_dir name /\
      String.prefix "events.out.tfevents." name = true /\
      lookup_node fs q = Some (File m).

(** The maximum property of a run: when every event file of the run
    parses and there is a record for the tag, the summary returned
    reports the first greatest of the records pooled over the event
    files of the run, the files taken oldest first. *)
Definition max_property (env : Env) (run_dir : path) (tag : string) : Prop :=
  exists files,
    event_files_of (fs env) run_dir files /\
    ((forall f, In f files ->
        exists out res, read_events env f (Some [tag]) = (out, Ok res)) ->
     records_of (read_events env) tag files <> [] ->
     (forall f r, In (f, r) (records_of (read_events env) tag files) ->
        row_tag r = tag) /\
     exists out s,
       compute_max_for_run env run_dir tag false = (out, Ok (Some s)) /\
       run s = basename run_dir /\
       reports_first_max (records_of (read_events env) tag files) s).


(** The rows of a read without those that have no value. *)
Definition drop_valueless
    (reader : path -> option (list string) ->
              list output * Result (list Row * list string * string))
    (f : path) (tags : option (list string))
  : list output * Result (list Row * list string * string) :=
  match reader f tags with
  | (out, Ok (rows, available, backend)) =>
      (out,
       Ok (List.filter (fun r => match row_value r with
                                 | Some _ => true
                                 | None => false
                                 end) rows,
           available, backend))
  | (out, Raise e) => (out, Raise e)
  end.

(** Every entry of the file is a scalar. *)
Definition scalars_only (evs : list Event) : Prop :=
  forall e v, In e evs -> In v (ev_summary e) ->
    exists x, sv_payload v = simple_value x.

(** [s] begins with [pre]. *)
Fixpoint starts_with (pre s : list ascii) : bool :=
  match pre with
  | [] => true
  | a :: pre' =>
      match s with
      | [] => false
      | b :: s' => Ascii.eqb a b && starts_with pre' s'
      end
  end.

(** The summary entries of a file, each with its event, in file order. *)
Definition entries (evs : list Event) : list (Event * SummaryValue) :=
  List.flat_map (fun e => List.map (pair e) (ev_summary e)) evs.

(** The entry passes the filter of the second backend. *)
Definition passes (wanted_tags : option (list string))
    (x : Event * SummaryValue) : bool :=
  negb (truthy wanted_tags && negb (tag_in (sv_tag (snd x)) wanted_tags)).

(** The row the second backend makes of an entry. *)
Definition tf_row (x : Event * SummaryValue) : Row :=
  {| row_tag := sv_tag (snd x);
     row_step := Some (ev_step (fst x));
     row_value := Some (get_simple_value (snd x));
     row_wall_time := Some (ev_wall_time (fst x));
     row_file := None |}.

(** The scalar entries of a file, each under its tag, in file order. *)
Definition scalar_items (evs : list Event) : list (string * ScalarEvent) :=
  List.flat_map (fun e =>
    List.flat_map (fun v =>
      match sv_payload v with
      | simple_value x =>
          [(sv_tag v,
            {| se_wall_time := ev_wall_time e; se_step := ev_step e;
               se_value := x |})]
      | non_scalar => []
      end) (ev_summary e)) evs.

(** Items put in buckets by tag: the tags in the order they first
    occur, each with its items in order. *)
Definition grouped (items : list (string * ScalarEvent)) : Reservoir :=
  List.map (fun t =>
    (t, List.map snd (List.filter (fun it => String.eqb (fst it) t) items)))
    (first_seen (List.map fst items)).

(** No event of the file is a session start, and the steps of its
    summaries never go back, the first being at least [last]: nothing
    makes the accumulator purge. *)
Fixpoint steady_from (last : Z) (evs : list Event) : bool :=
  match evs with
  | [] => true
  | e :: evs' =>
      match ev_what e with
      | session_log true => false
      | summary _ => Z.leb last (ev_step e) && steady_from (ev_step e) evs'
      | _ => steady_from last evs'
      end
  end.

Definition steady (evs : list Event) : bool := steady_from (-1) evs.

(** The reservoir item of a scalar entry, and the row the first backend
    makes of an item. *)
Definition item_of (x : Event * SummaryValue) : string * ScalarEvent :=
  (sv_tag (snd x),
   {| se_wall_time := ev_wall_time (fst x); se_step := ev_step (fst x);
      se_value := get_simple_value (snd x) |}).

Definition ea_row (it : string * ScalarEvent) : Row :=
  {| row_tag := fst it;
     row_step := Some (se_step (snd it));
     row_value := Some (se_value (snd it));
     row_wall_time := Some (se_wall_time (snd it));
     row_file := None |}.

(** Tag [t] is let through by [wanted_tags]. *)
Definition wanted (wanted_tags : option (list string)) (t : string) : bool :=
  negb (truthy wanted_tags && negb (tag_in t wanted_tags)).

(** ** Sample worlds *)

Module Sample.

Definition scalar (s : Z) (t : string) (x : float) : Event :=
  {| ev_step := s; ev_wall_time := 0%float;
     ev_what := summary [{| sv_tag := t; sv_payload := simple_value x |}] |}.

Definition histogram (s : Z) (t : string) : Event :=
  {| ev_step := s; ev_wall_time := 0%float;
     ev_what := summary [{| sv_tag := t; sv_payload := non_scalar |}] |}.

Definition ev1 : string := "events.out.tfevents.1".
Definition ev2 : string := "events.out.tfevents.2".
Definition ev3 : string := "events.out.tfevents.3".

Definition dir (l : list (string * node)) : node :=
  Dir (list_to_map l).

(** Seven run directories under the working directory. *)
Definition tree : node :=
  dir [("runA", dir [(ev3, File 30); (ev1, File 10); (ev2, File 20);
                     ("notes.txt", File 40)]);
       ("runB", dir [(ev1, File 10)]);
       ("runC", dir [(ev1, File 10); (ev2, File 20)]);
       ("runN", dir [(ev1, File 10)]);
       ("runH", dir [(ev1, File 10)]);
       ("run[1]", dir [(ev1, File 10)]);
       ("empty", dir [("notes.txt", File 40)])].

Definition contents : list (path * decoded) :=
  [(["runA"; ev1],
    Events [scalar 1 "acc" 0.25; scalar 5 "acc" 0.75; scalar 9 "acc" 0.5]);
   (["runA"; ev2], Events [scalar 12 "acc" 0.75; scalar 12 "loss" 2]);
   (["runA"; ev3], Events [scalar 20 "acc" 0.5]);
   (["runB"; ev1], Events [scalar 1 "loss" 1]);
   (["runC"; ev1], Corrupt "truncated record");
   (["runC"; ev2], Events [scalar 3 "acc" 0.75]);
   (["runN"; ev1], Events [scalar 1 "acc" nan; scalar 2 "acc" 1]);
   (["runH"; ev1], Events [histogram 1 "weights"]);
   (["run[1]"; ev1], Events [scalar 1 "acc" 0.5])].

Definition load (p : path) : decoded :=
  match List.find (fun e => bool_decide (fst e = p)) contents with
  | Some e => snd e
  | None => Corrupt "not an event file"
  end.

(** Both libraries installed; tensorboard missing; tensorflow missing. *)
Definition both : Env :=
  {| fs := tree; tensorboard_installed := true; tensorflow_installed := true;
     tensorboard_load := load; tensorflow_load := load |}.

Definition tf_only : Env :=
  {| fs := tree; tensorboard_installed := false; tensorflow_installed := true;
     tensorboard_load := load; tensorflow_load := load |}.

Definition tb_only : Env :=
  {| fs := tree; tensorboard_installed := true; tensorflow_installed := false;
     tensorboard_load := load; tensorflow_load := load |}.

(** A reader whose rows have no value. *)
Definition valueless_reader (f : path) (tags : option (list string))
  : list output * Result (list Row * list string * string) :=
  ([], Ok ([{| row_tag := "acc"; row_step := Some 1; row_value := None;
               row_wall_time := None; row_file := None |}],
           ["acc"], "stub")).

End Sample.

(** The row a backend makes of a scalar entry of [Sample]. *)
Definition sample_row (t : string) (s : Z) (x : float) : Row :=
  {| row_tag := t; row_step := Some s; row_value := Some x;
     row_wall_time := Some 0%float; row_file := None |}.

(** ** Python strings: [split], [strip], [replace], [str] of a length *)

From Stdlib Require DecimalString.

(** A string is the sequence of its characters, each below 256. *)
Module PyStr.

(** [c.isspace()]: the white space below 256. *)
Definition is_space (c : ascii) : bool :=
let n := N_of_ascii c in
((9 <=? n) && (n <=? 13) || (28 <=? n) && (n <=? 32)
 || (n =? 133) || (n =? 160))%N.

Fixpoint lstrip_chars (cs : list ascii) : list ascii :=
match cs with
| [] => []
| c :: rest => if is_space c then lstrip_chars rest else cs
end.

Definition rstrip_chars (cs : list ascii) : list ascii :=
List.rev (lstrip_chars (List.rev cs)).

Definition strip_chars (cs : list ascii) : list ascii :=
rstrip_chars (lstrip_chars cs).

(** [s.strip()] *)
Definition strip (s : string) : string :=
string_of_list_ascii (strip_chars (list_ascii_of_string s)).

(** The pieces of [cs] between the occurrences of [sep]. *)
Fixpoint split_chars (sep : ascii) (cs : list ascii) : list (list ascii) :=
match cs with
| [] => [[]]
| c :: rest =>
    if Ascii.eqb c sep then [] :: split_chars sep rest
    else match split_chars sep rest with
         | piece :: pieces => (c :: piece) :: pieces
         | [] => [[c]]
         end
end.

(** [s.split(sep)] for a separator of one character. *)
Definition split (sep : ascii) (s : string) : list string :=
List.map string_of_list_ascii (split_chars sep (list_ascii_of_string s)).

(** [s.replace(old, new)] for [old] and [new] of one character. *)
Definition replace (old new : ascii) (s : string) : string :=
string_of_list_ascii
  (List.map (fun c => if Ascii.eqb c old then new else c)
     (list_ascii_of_string s)).

(** The decimal text of a length. *)
Definition of_nat (n : nat) : string :=
DecimalString.NilEmpty.string_of_uint (Nat.to_uint n).

(** The character occurs in the string. *)
Definition has_char (c : ascii) (s : string) : bool :=
existsb (Ascii.eqb c) (list_ascii_of_string s).

End PyStr.

(** The pieces put together with the separator between them. *)
Fixpoint join_chars (sep : ascii) (pieces : list (list ascii)) : list ascii :=
  match pieces with
  | [] => []
  | [p] => p
  | p :: rest => p ++ sep :: join_chars sep rest
  end.

Definition starts_clean (cs : list ascii) : Prop :=
  match cs with
  | [] => True
  | c :: _ => PyStr.is_space c = false
  end.

(** A tag as [parse_tags] gives it: no comma in it, no white space at
    its ends. *)
Definition clean_tag (t : string) : Prop :=
  PyStr.has_char "," t = false /\
  starts_clean (list_ascii_of_string t) /\
  starts_clean (List.rev (list_ascii_of_string t)).

(** ** read_results.py: the rest of [main] *)

(** [tags = [t.strip() for t in args.tags.split(",")] if args.tags else
    None]: [args.tags] is [None] without the option, and the empty
    string is false. *)
Definition parse_tags (arg : option string) : option (list string) :=
  match arg with
  | None => None
  | Some EmptyString => None
  | Some s => Some (List.map PyStr.strip (PyStr.split "," s))
  end.

(** What [main] prints after the read: a line of text, or the line of a
    row of the preview ([[file] step=.. value=.. wall_time=..], which
    holds the text of floats and is kept as the row it prints). *)
Inductive report :=
  | Text (line : string)
  | RowLine (r : Row).

(** [f"{used_backend}"] *)
Definition backend_text (b : option string) : string :=
  match b with
  | Some s => s
  | None => "None"
  end.

(** [for t in sorted(union_tags): print(f"  - {t}")] *)
Definition tag_lines (tags : gset string) : list report :=
  List.map (fun t => Text ("  - " +:+ t)) (sorted_by String.ltb (elements tags)).

(** [per_tag.setdefault(r["tag"], []).append(r)], the dict as the list
    of its items in insertion order. *)
Fixpoint setdefault_append (per_tag : list (string * list Row)) (r : Row)
  : list (string * list Row) :=
  match per_tag with
  | [] => [(row_tag r, [r])]
  | (t, rows) :: rest =>
      if String.eqb t (row_tag r) then (t, rows ++ [r]) :: rest
      else (t, rows) :: setdefault_append rest r
  end.

Definition group_rows (rows : list Row) : list (string * list Row) :=
  List.fold_left setdefault_append rows [].

(** The sort key [x.get("step") or 0]: a missing step and step 0 both
    give 0. *)
Definition step_or_0 (r : Row) : Z :=
  match row_step r with
  | Some s => s
  | None => 0
  end.

(** [rows[-5:]] *)
Definition last5 {A : Type} (l : list A) : list A :=
  List.skipn (length l - 5) l.

Definition sort_by_step (rows : list Row) : list Row :=
  sorted_by (fun a b => Z.ltb (step_or_0 a) (step_or_0 b)) rows.

(** The body of [for tag, rows in per_tag.items()]. *)
Definition preview_group (g : string * list Row) : list report :=
  Text (nl +:+ "== " +:+ fst g +:+ " ==")
  :: List.map RowLine (last5 (sort_by_step (snd g))).

(** [main] after the read loop, where [import pandas] raises
    [ImportError]: the listing of the tags, the exit on no row, and the
    preview of the handler of the [ImportError]. *)
Definition main_report (list_tags : bool) (st : ReadState)
  : list report * Result unit :=
  if list_tags then
    (Text "Available scalar tags:"
       :: tag_lines (union_tags st)
       ++ [Text ("(Parsed by " +:+ backend_text (used_backend st) +:+ ")")],
     Ok tt)
  else
    match all_rows st with
    | [] =>
        (Text "No scalar data found (check tags or event file)."
           :: Text "Available tags (union):"
           :: tag_lines (union_tags st),
         Raise (Exn SystemExit "0"))
    | _ :: _ =>
        (Text ("Parsed by " +:+ backend_text (used_backend st)
               +:+ ". pandas not installed; printing a small preview:")
           :: List.flat_map preview_group (group_rows (all_rows st)),
         Ok tt)
    end.

(** The parsed command line of [read_results.py]. *)
Record ReadArgs := {
  arg_path : path;
  arg_tags : option string;
  arg_latest : bool;
  arg_list_tags : bool
}.

Definition report_of (o : output) : report :=
  match o with
  | Stdout line => Text line
  | Stderr text => Text text
  end.

(** The whole of [main] on a host without pandas; the warnings of the
    reads come first, as text. *)
Definition main_without_pandas (env : Env) (args : ReadArgs)
  : list report * Result unit :=
  match main env (arg_path args) (parse_tags (arg_tags args)) (arg_latest args) with
  | (out, Raise e) => (List.map report_of out, Raise e)
  | (out, Ok st) =>
      let '(rep, res) := main_report (arg_list_tags args) st in
      (List.map report_of out ++ rep, res)
  end.

(** The rows a file adds to [all_rows], and the tags and backend of its
    read. *)
Definition stamped_rows (env : Env) (tags : option (list string)) (f : path)
  : list Row :=
  match read_events env f tags with
  | (_, Ok (rows, _, _)) => List.map (set_file (basename f)) rows
  | (_, Raise _) => []
  end.

Definition available_of (env : Env) (tags : option (list string)) (f : path)
  : list string :=
  match read_events env f tags with
  | (_, Ok (_, available, _)) => available
  | (_, Raise _) => []
  end.

Definition backend_of (env : Env) (tags : option (list string)) (f : path)
  : option string :=
  match read_events env f tags with
  | (_, Ok (_, _, backend)) => Some backend
  | (_, Raise _) => None
  end.

(** The files [main] and [compute_max_for_run] go on to read. *)
Definition selected (latest : bool) (event_files : list path) : list path :=
  if latest && Nat.ltb 1 (length event_files)
  then [List.last event_files []]
  else event_files.

(** ** collect_max_tag.py: [main] *)

Module Collect.

(** What the collector needs of its host beside [Env]: whether pandas
  is installed, the text of the exception the pandas steps raise for
  an output path (none when they succeed), and the text of the
  [OSError] of [open(out_path, "w")] (none when it opens). *)
Record Host := {
pandas_installed : bool;
pandas_error : path -> option string;
open_error : path -> option string
}.

(** The parsed command line. *)
Record Args := {
logs_root : path;
tag : string;
out : option path;
latest : bool
}.

Inductive writer := ByPandas | ByCsv.

(** What the collector does: it prints, and it writes a CSV file, kept
  as the records written, in order (the text of a record holds the
  text of floats). *)
Inductive effect :=
| Out (o : output)
| Wrote (by_whom : writer) (p : path) (records : list RunSummary).

(** The list [subdirs]. *)
Definition subdirs (fs : node) (root : path) : list path :=
List.map (path_join root)
  (List.filter (fun d => isdir fs (path_join root d))
     (sorted_by String.ltb (List.map fst (listdir fs root)))).

Definition info_line (tag : string) (sd : path) : output :=
Stdout ("[Info] No data for tag '" +:+ tag +:+ "' in run: " +:+ basename sd).

(** The loop [for sd in subdirs], on the list [results]. *)
Fixpoint run_loop (env : Env) (tag : string) (latest : bool)
  (dirs : list path) (results : list RunSummary)
: list output * Result (list RunSummary) :=
match dirs with
| [] => ([], Ok results)
| sd :: rest =>
    match compute_max_for_run env sd tag latest with
    | (o, Raise e) => (o, Raise e)
    | (o, Ok None) =>
        let '(o', res) := run_loop env tag latest rest results in
        (o ++ info_line tag sd :: o', res)
    | (o, Ok (Some r)) =>
        let '(o', res) := run_loop env tag latest rest (results ++ [r]) in
        (o ++ o', res)
    end
end.

(** [df.sort_values(by=["run"])] *)
Definition sort_by_run (records : list RunSummary) : list RunSummary :=
sorted_by (fun a b => String.ltb (run a) (run b)) records.

Definition safe_tag (tag : string) : string := PyStr.replace "/" "_" tag.

Definition default_name (tag : string) : string :=
"max_" +:+ safe_tag tag +:+ ".csv".

Definition out_path (args : Args) : path :=
match out args with
| Some p => p
| None => path_join (logs_root args) (default_name (tag args))
end.

Definition saved_line (n : nat) (p : path) : effect :=
Out (Stdout ("[OK] Saved " +:+ PyStr.of_nat n +:+ " rows to: " +:+ path_str p)).

(** The handler of [except Exception as e], [text] being [str(e)]. *)
Definition save_with_csv (host : Host) (p : path) (results : list RunSummary)
  (text : string) : list effect * Result unit :=
let warned :=
  Out (Stdout ("[Warn] pandas not available or failed (" +:+ text
               +:+ "); using csv module.")) in
match open_error host p with
| Some msg => ([warned], Raise (Exn OtherException msg))
| None =>
    ([warned; Wrote ByCsv p results; saved_line (length results) p], Ok tt)
end.

(** The [try] that writes the file. *)
Definition save (host : Host) (p : path) (results : list RunSummary)
: list effect * Result unit :=
if pandas_installed host then
  match pandas_error host p with
  | None =>
      let df := sort_by_run results in
      ([Wrote ByPandas p df; saved_line (length df) p], Ok tt)
  | Some text => save_with_csv host p results text
  end
else save_with_csv host p results "No module named 'pandas'".

Definition main (env : Env) (host : Host) (args : Args)
: list effect * Result unit :=
if isdir (fs env) (logs_root args) then
  match run_loop env (tag args) (latest args)
          (subdirs (fs env) (logs_root args)) [] with
  | (o, Raise e) => (List.map Out o, Raise e)
  | (o, Ok []) =>
      (List.map Out o
         ++ [Out (Stdout ("No data found for tag '" +:+ tag args
                          +:+ "' under: " +:+ path_str (logs_root args)))],
       Ok tt)
  | (o, Ok (r :: results)) =>
      let '(eff, res) := save host (out_path args) (r :: results) in
      (List.map Out o ++ eff, res)
  end
else
  ([], Raise (Exn SystemExit
                ("logs_root not found or not a directory: "
                 +:+ path_str (logs_root args)))).

(** The records written by a run of [main]. *)
Definition written (eff : list effect) : list (path * list RunSummary) :=
List.flat_map (fun e =>
  match e with
  | Wrote _ p records => [(p, records)]
  | Out _ => []
  end) eff.

(** The summaries of the runs that have data, in the order of the
  directories. *)
Definition summaries (env : Env) (tag : string) (latest : bool)
  (dirs : list path) : list RunSummary :=
List.flat_map (fun sd =>
  match compute_max_for_run env sd tag latest with
  | (_, Ok (Some r)) => [r]
  | _ => []
  end) dirs.

End Collect.

(** The read of the file succeeds. *)
Definition readable
    (reader : path -> option (list string) ->
              list output * Result (list Row * list string * string))
    (tag : string) (f : path) : bool :=
  match reader f (Some [tag]) with
  | (_, Ok _) => true
  | (_, Raise _) => false
  end.

(** The read of the file with the filter [tags] succeeds. *)
Definition reads_ok (env : Env) (tags : option (list string)) (f : path) : bool :=
  match read_events env f tags with
  | (_, Ok _) => true
  | (_, Raise _) => false
  end.

(** A world in which tensorboard fails on the first file of [runC] and
    tensorflow reads it. *)
Module Sample2.

Definition load_tf (p : path) : decoded :=
if bool_decide (p = ["runC"; Sample.ev1])
then Events [Sample.scalar 1 "acc" 0.25; Sample.scalar 1 "loss" 3]
else Sample.load p.

Definition mixed : Env :=
{| fs := Sample.tree; tensorboard_installed := true;
   tensorflow_installed := true;
   tensorboard_load := Sample.load; tensorflow_load := load_tf |}.

(** Hosts of the collector: with pandas, without it, and one where the
  default output file of tag [acc] cannot be opened. *)
Definition with_pandas : Collect.Host :=
{| Collect.pandas_installed := true;
   Collect.pandas_error := fun _ => None;
   Collect.open_error := fun _ => None |}.

Definition no_pandas : Collect.Host :=
{| Collect.pandas_installed := false;
   Collect.pandas_error := fun _ => None;
   Collect.open_error := fun _ => None |}.

Definition read_only : Collect.Host :=
{| Collect.pandas_installed := false;
   Collect.pandas_error := fun _ => None;
   Collect.open_error := fun _ => Some "[Errno 30] Read-only file system" |}.

Definition args_acc : Collect.Args :=
{| Collect.logs_root := []; Collect.tag := "acc"; Collect.out := None;
   Collect.latest := false |}.

Definition args_slash : Collect.Args :=
{| Collect.logs_root := ["logs"]; Collect.tag := "valid/acc";
   Collect.out := None; Collect.latest := false |}.

(** [read_results.py runA --tags acc --list-tags] *)
Definition list_args : ReadArgs :=
{| arg_path := ["runA"]; arg_tags := Some "acc"; arg_latest := false;
   arg_list_tags := true |}.

Definition runA_files : list path :=
[["runA"; Sample.ev1]; ["runA"; Sample.ev2]; ["runA"; Sample.ev3]].

End Sample2.

(** A world in which directories named with a bracket expression sit
    beside directories their name matches as a pattern: [run[1]] holds
    no event file and [run1] holds one; [run[2]] and [run2] each hold
    one. *)
Module Sibling.

Definition tree : node :=
Sample.dir
  [("run[1]", Sample.dir [("notes.txt", File 40)]);
   ("run1", Sample.dir [(Sample.ev1, File 10)]);
   ("run[2]", Sample.dir [(Sample.ev1, File 10)]);
   ("run2", Sample.dir [(Sample.ev1, File 20)])].

Definition contents : list (path * decoded) :=
[(["run1"; Sample.ev1], Events [Sample.scalar 7 "acc" 0.5]);
 (["run[2]"; Sample.ev1], Events [Sample.scalar 3 "acc" 0.875]);
 (["run2"; Sample.ev1], Events [Sample.scalar 7 "acc" 0.5])].

Definition load (p : path) : decoded :=
match List.find (fun e => bool_decide (fst e = p)) contents with
| Some e => snd e
| None => Corrupt "not an event file"
end.

Definition both : Env :=
{| fs := tree; tensorboard_installed := true; tensorflow_installed := true;
   tensorboard_load := load; tensorflow_load := load |}.

End Sibling.

(** Files that make the accumulator purge, and a world in which
    tensorboard is installed and fails on every file. *)
Module Rewound.

(** The version line that opens a file. *)
Definition version (v : float) : Event :=
{| ev_step := 0; ev_wall_time := 0%float; ev_what := file_version v |}.

Definition session_start (s : Z) : Event :=
{| ev_step := s; ev_wall_time := 0%float; ev_what := session_log true |}.

(** The step goes back from 5 to 1, in a file without version line and
  in one with the version line 2. *)
Definition bare : list Event :=
[Sample.scalar 5 "acc" 0.75; Sample.scalar 1 "acc" 0.25].

Definition versioned : list Event := version 2 :: bare.

(** A session restarted at step 2. *)
Definition restarted : list Event :=
[version 2; Sample.scalar 1 "acc" 0.25; Sample.scalar 5 "acc" 0.75;
 session_start 2; Sample.scalar 2 "acc" 0.5].

Definition world (evs : list Event) : Env :=
{| fs := Sample.tree; tensorboard_installed := true;
   tensorflow_installed := true;
   tensorboard_load := fun _ => Events evs;
   tensorflow_load := fun _ => Events evs |}.

Definition broken_tensorboard : Env :=
{| fs := Sample.tree; tensorboard_installed := true;
   tensorflow_installed := true;
   tensorboard_load := fun _ => Corrupt "bad record";
   tensorflow_load := Sample.load |}.

End Rewound.

(** * Part II: theorems *)

(** ** Order facts for Python floats *)

Module PyFloatFacts.
Import PyFloat.

Lemma spec_float_eq_dec_nan (f : spec_float) : {f = S754_nan} + {f <> S754_nan}.
Proof. destruct f; (left; reflexivity) || (right; discriminate). Qed.

Lemma SFcompare_key (f1 f2 : spec_float) :
  f1 <> S754_nan -> f2 <> S754_nan ->
  exists c, SFcompare f1 f2 = Some c /\
    match c with
    | Lt => lex_lt (key f1) (key f2)
    | Eq => key f1 = key f2
    | Gt => lex_lt (key f2) (key f1)
    end.
Proof.
  intros H1 H2.
  destruct f1 as [s1|s1| |s1 m1 e1], f2 as [s2|s2| |s2 m2 e2];
    try congruence; cbn [SFcompare key];
    try (destruct s1); try (destruct s2);
    try (eexists; split; [reflexivity|]; cbn; (reflexivity || lia)).
  all: rewrite Pos.compare_cont_spec; cbn [Pos.switch_Eq];
    destruct (Z.compare_spec e1 e2) as [He|He|He];
    try (eexists; split; [reflexivity|]; cbn; lia).
  all: destruct (Pos.compare_spec m1 m2) as [Hm|Hm|Hm];
    (eexists; split; [reflexivity|]; cbn; subst; (reflexivity || lia)).
Qed.

Lemma is_nan_spec (a : float) : is_nan a = true <-> Prim2SF a = S754_nan.
Proof.
  unfold is_nan, PrimFloat.is_nan. rewrite FloatAxioms.eqb_spec. unfold SFeqb. split.
  - intros H. destruct (spec_float_eq_dec_nan (Prim2SF a)) as [E|E]; [exact E|].
    destruct (SFcompare_key _ _ E E) as (c & -> & Hc) in H.
    destruct c; [discriminate| |]; exfalso;
      destruct (key (Prim2SF a)) as [[x y] z]; cbn in Hc; lia.
  - intros ->. reflexivity.
Qed.
End PyFloatFacts.

Module PyFloatOrder.
Import PyFloat PyFloatFacts.

Lemma not_nan_spec (a : float) : is_nan a = false <-> Prim2SF a <> S754_nan.
Proof.
  rewrite <- is_nan_spec. destruct (is_nan a); split; congruence.
Qed.

Ltac split_keys :=
  repeat match goal with
  | |- context [key ?f] =>
      let x := fresh "x" in let y := fresh "y" in let z := fresh "z" in
      destruct (key f) as [[x y] z]
  | H : context [key ?f] |- _ =>
      let x := fresh "x" in let y := fresh "y" in let z := fresh "z" in
      destruct (key f) as [[x y] z]
  end; cbn [lex_lt] in *.

Ltac key_arith :=
  split_keys;
  repeat match goal with
  | H : (_, _, _) = (_, _, _) |- _ => inversion H; clear H; subst
  | H : _ /\ _ |- _ => destruct H
  end;
  first [ lia | discriminate | (left; lia) | (right; f_equal; lia)
        | (right; repeat f_equal; lia) | (f_equal; lia) ].

(** The three comparisons, read on the keys. *)
Lemma compare_nan_l (b : spec_float) : SFcompare S754_nan b = None.
Proof. reflexivity. Qed.

Lemma compare_nan_r (a : spec_float) : SFcompare a S754_nan = None.
Proof. destruct a; reflexivity. Qed.

Lemma gt_iff (a b : float) :
  gt a b = true <->
  is_nan a = false /\ is_nan b = false /\
  lex_lt (key (Prim2SF b)) (key (Prim2SF a)).
Proof.
  unfold gt. rewrite FloatAxioms.ltb_spec, !not_nan_spec. unfold SFltb.
  destruct (spec_float_eq_dec_nan (Prim2SF a)) as [Ea|Na].
  { rewrite Ea, compare_nan_r. split; [discriminate|tauto]. }
  destruct (spec_float_eq_dec_nan (Prim2SF b)) as [Eb|Nb].
  { rewrite Eb, compare_nan_l. split; [discriminate|tauto]. }
  destruct (SFcompare_key _ _ Nb Na) as (c & -> & K).
  destruct c; split; intros H; try discriminate; try tauto;
    destruct H as (_ & _ & H); exfalso; key_arith.
Qed.

Lemma ge_iff (a b : float) :
  ge a b = true <->
  is_nan a = false /\ is_nan b = false /\
  (lex_lt (key (Prim2SF b)) (key (Prim2SF a)) \/
   key (Prim2SF b) = key (Prim2SF a)).
Proof.
  unfold ge. rewrite FloatAxioms.leb_spec, !not_nan_spec. unfold SFleb.
  destruct (spec_float_eq_dec_nan (Prim2SF a)) as [Ea|Na].
  { rewrite Ea, compare_nan_r. split; [discriminate|tauto]. }
  destruct (spec_float_eq_dec_nan (Prim2SF b)) as [Eb|Nb].
  { rewrite Eb, compare_nan_l. split; [discriminate|tauto]. }
  destruct (SFcompare_key _ _ Nb Na) as (c & -> & K).
  destruct c; split; intros H; try discriminate; try tauto;
    destruct H as (_ & _ & [H|H]); exfalso; key_arith.
Qed.

Lemma eq_iff (a b : float) :
  eq a b = true <->
  is_nan a = false /\ is_nan b = false /\
  key (Prim2SF a) = key (Prim2SF b).
Proof.
  unfold eq. rewrite FloatAxioms.eqb_spec, !not_nan_spec. unfold SFeqb.
  destruct (spec_float_eq_dec_nan (Prim2SF a)) as [Ea|Na].
  { rewrite Ea, compare_nan_l. split; [discriminate|tauto]. }
  destruct (spec_float_eq_dec_nan (Prim2SF b)) as [Eb|Nb].
  { rewrite Eb, compare_nan_r. split; [discriminate|tauto]. }
  destruct (SFcompare_key _ _ Na Nb) as (c & -> & K).
  destruct c; split; intros H; try discriminate; try tauto;
    destruct H as (_ & _ & H); exfalso; key_arith.
Qed.

(** [a > b] and [b > c] give [a > c]. *)
Lemma gt_trans (a b c : float) :
  gt a b = true -> gt b c = true -> gt a c = true.
Proof.
  rewrite !gt_iff. intros (? & ? & ?) (? & ? & ?).
  repeat split; try assumption. key_arith.
Qed.


Lemma ge_trans (a b c : float) :
  ge a b = true -> ge b c = true -> ge a c = true.
Proof.
  rewrite !ge_iff. intros (? & ? & [?|?]) (? & ? & [?|?]);
    repeat split; try assumption; key_arith.
Qed.

Lemma gt_irrefl (a : float) : gt a a = false.
Proof.
  apply not_true_is_false. rewrite gt_iff. intros (_ & _ & H). key_arith.
Qed.






Lemma gt_not_ge (a b : float) : gt a b = true -> ge b a = false.
Proof.
  intros H. apply not_true_is_false. revert H. rewrite gt_iff, ge_iff.
  intros (_ & _ & H) (_ & _ & [E|E]); key_arith.
Qed.

Lemma ge_antisym (a b : float) :
  ge a b = true -> ge b a = true -> eq a b = true.
Proof.
  rewrite !ge_iff, eq_iff. intros (? & ? & [?|?]) (_ & _ & [?|?]);
    repeat split; try assumption; try congruence; exfalso; key_arith.
Qed.

Lemma nan_not_gt (a b : float) :
  is_nan a = true -> gt a b = false /\ gt b a = false /\ ge a b = false /\ ge b a = false.
Proof.
  intros H. repeat split; apply not_true_is_false;
    rewrite ?gt_iff, ?ge_iff; intros (? & ? & _); congruence.
Qed.
End PyFloatOrder.

(** ** The stable sort *)

Lemma insert_by_perm {A : Type} (lt : A -> A -> bool) (x : A) (l : list A) :
  Permutation (insert_by lt x l) (x :: l).
Proof.
  induction l as [|y l IH]; cbn; [reflexivity|].
  destruct (lt y x); [|reflexivity].
  rewrite IH. apply perm_swap.
Qed.

Lemma sorted_by_perm {A : Type} (lt : A -> A -> bool) (l : list A) :
  Permutation (sorted_by lt l) l.
Proof.
  induction l as [|x l IH]; cbn; [reflexivity|].
  fold (sorted_by lt l). rewrite insert_by_perm, IH. reflexivity.
Qed.

Section SortedBy.
Context {A : Type} (key : A -> Z).

Let lt (a b : A) : bool := Z.ltb (key a) (key b).
Let le (a b : A) : Prop := key a <= key b.

Lemma insert_by_sorted (x : A) (l : list A) :
  StronglySorted le l -> StronglySorted le (insert_by lt x l).
Proof.
  induction 1 as [|y l Hs IH Hy]; cbn.
  - repeat constructor.
  - unfold lt at 1. destruct (Z.ltb_spec (key y) (key x)) as [Hlt|Hge].
    + constructor; [exact IH|].
      rewrite insert_by_perm. constructor; [unfold le; lia|exact Hy].
    + constructor; [constructor; assumption|].
      constructor; [exact Hge|].
      eapply Forall_impl; [exact Hy|]. unfold le; cbn; intros; lia.
Qed.

Lemma sorted_by_sorted (l : list A) : StronglySorted le (sorted_by lt l).
Proof.
  induction l as [|x l IH]; cbn; [constructor|].
  apply insert_by_sorted, IH.
Qed.

(** The last element of a sorted list has the greatest key. *)
Lemma sorted_last_max (l : list A) (d : A) :
  StronglySorted le l ->
  forall x, In x l -> key x <= key (List.last l d).
Proof.
  induction 1 as [|y l Hs IH Hy]; intros x Hx; [destruct Hx|].
  destruct l as [|z l'].
  - destruct Hx as [->|[]]. cbn. lia.
  - change (List.last (y :: z :: l') d) with (List.last (z :: l') d).
    destruct Hx as [->|Hx]; [|apply IH, Hx].
    rewrite Forall_forall in Hy.
    assert (Hz : In z (z :: l')) by (left; reflexivity).
    specialize (IH z Hz). specialize (Hy z). unfold le in Hy.
    rewrite <- list_elem_of_In in Hz. specialize (Hy Hz). lia.
Qed.

End SortedBy.

(** ** The scan of the records *)

Lemma scan_files_records reader tag files st :
  snd (scan_files reader tag files st) =
  List.fold_left scan_record (records_of reader tag files) st.
Proof.
  revert st. induction files as [|f rest IH]; intros st; cbn; [reflexivity|].
  destruct (reader f (Some [tag])) as [out [[[rows av] b]|e]].
  - rewrite fold_left_app.
    specialize (IH (List.fold_left (scan_row (basename f)) rows st)).
    destruct (scan_files reader tag rest _) as [out' final]. cbn in *.
    rewrite IH. f_equal.
    clear. revert st. induction rows as [|r rows IHr]; intros st; cbn;
      [reflexivity|apply IHr].
  - specialize (IH st).
    destruct (scan_files reader tag rest st) as [out' final]. exact IH.
Qed.

Lemma scan_record_valueless st rec :
  row_value (snd rec) = None -> scan_record st rec = st.
Proof. unfold scan_record, scan_row. intros ->. reflexivity. Qed.

(** A scan in which no record has a value leaves the state as it was. *)
Lemma scan_all_valueless recs st :
  (forall f r, In (f, r) recs -> row_value r = None) ->
  List.fold_left scan_record recs st = st.
Proof.
  revert st. induction recs as [|[f r] recs IH]; intros st H; cbn; [reflexivity|].
  rewrite scan_record_valueless by (cbn; apply (H f); left; reflexivity).
  apply IH. intros f' r' Hin. apply (H f'). right. exact Hin.
Qed.


(** ** The pattern translation needs no more fuel than it is given *)

Lemma until_close_shorter (cs body after : list ascii) :
  Glob.until_close cs = Some (body, after) -> (length after < length cs)%nat.
Proof.
  revert body. induction cs as [|c cs IH]; intros body; cbn; [discriminate|].
  destruct (Ascii.eqb c "]").
  - intros E. inversion E; subst. lia.
  - destruct (Glob.until_close cs) as [[b a]|]; [|discriminate].
    intros E. inversion E; subst. specialize (IH b Logic.eq_refl). lia.
Qed.

Lemma bracket_shorter (cs : list ascii) negated body after :
  Glob.bracket cs = Some (negated, body, after) ->
  (length after < S (length cs))%nat.
Proof.
  unfold Glob.bracket.
  set (s1 := match cs with
             | "!"%char :: r => (true, r)
             | _ => (false, cs)
             end).
  assert (H1 : (length (snd s1) <= length cs)%nat).
  { subst s1. destruct cs as [|c r]; [cbn; lia|].
    destruct (Ascii.eqb_spec c "!") as [->|N]; [cbn; lia|].
    destruct c as [[] [] [] [] [] [] [] []]; cbn; try lia. }
  destruct s1 as [neg cs1]. cbn [snd] in H1.
  set (s2 := match cs1 with
             | "]"%char :: r => (["]"%char], r)
             | _ => ([], cs1)
             end).
  assert (H2 : (length (snd s2) <= length cs1)%nat).
  { subst s2. destruct cs1 as [|c r]; [cbn; lia|].
    destruct (Ascii.eqb_spec c "]") as [->|N]; [cbn; lia|].
    destruct c as [[] [] [] [] [] [] [] []]; cbn; try lia. }
  destruct s2 as [lead cs2]. cbn [snd] in H2.
  destruct (Glob.until_close cs2) as [[b a]|] eqn:E; [|discriminate].
  intros E'. inversion E'; subst.
  apply until_close_shorter in E. lia.
Qed.

(** Any fuel above the length of the pattern gives the same items. *)
Lemma translate_fuel_enough (n m : nat) (pat : list ascii) :
  (length pat < n)%nat -> (length pat < m)%nat ->
  Glob.translate_fuel n pat = Glob.translate_fuel m pat.
Proof.
  revert m pat. induction n as [|n IH]; intros m pat Hn Hm; [lia|].
  destruct m as [|m]; [lia|].
  destruct pat as [|c rest]; [reflexivity|].
  cbn [length] in Hn, Hm.
  assert (Hrest : Glob.translate_fuel n rest = Glob.translate_fuel m rest)
    by (apply IH; lia).
  cbn [Glob.translate_fuel].
  destruct (Glob.bracket rest) as [[[neg body] after]|] eqn:Eb.
  - pose proof (bracket_shorter _ _ _ _ Eb) as Hlen.
    assert (Hafter : Glob.translate_fuel n after = Glob.translate_fuel m after)
      by (apply IH; lia).
    rewrite Hrest, Hafter. reflexivity.
  - rewrite Hrest. reflexivity.
Qed.

(** ** The locator *)

Lemma find_event_files_sorted fs p files :
  _find_event_files fs p = Ok files ->
  StronglySorted (mtime_le fs) files.
Proof.
  unfold _find_event_files. destruct (isdir fs p).
  - intros E. inversion E; subst. apply (sorted_by_sorted (getmtime fs)).
  - destruct (isfile fs p); [|discriminate].
    intros E. inversion E; subst. repeat constructor.
Qed.

Lemma find_event_files_isfile fs p files :
  _find_event_files fs p = Ok files ->
  forall f, In f files -> isfile fs f = true.
Proof.
  unfold _find_event_files. destruct (isdir fs p).
  - intros E f Hf. inversion E; subst.
    eapply Permutation_in in Hf; [|apply sorted_by_perm].
    apply filter_In in Hf. tauto.
  - destruct (isfile fs p) eqn:Hp; [|discriminate].
    intros E f Hf. inversion E; subst. destruct Hf as [<-|[]]. exact Hp.
Qed.

Lemma find_event_files_raises fs p e :
  _find_event_files fs p = Raise e ->
  isdir fs p = false /\ isfile fs p = false /\ exn_cls e = FileNotFoundError.
Proof.
  unfold _find_event_files. destruct (isdir fs p); [discriminate|].
  destruct (isfile fs p); [discriminate|].
  intros E. inversion E; subst. auto.
Qed.

(** More than one located file: the last one is the newest. *)
Lemma find_event_files_newest fs p files :
  _find_event_files fs p = Ok files ->
  forall f, In f files -> getmtime fs f <= getmtime fs (List.last files []).
Proof.
  intros E f Hf.
  apply (sorted_last_max (getmtime fs)); [|exact Hf].
  eapply find_event_files_sorted, E.
Qed.

Lemma map_fmap {A B : Type} (f : A -> B) (l : list A) : List.map f l = f <$> l.
Proof. reflexivity. Qed.

Lemma list_filter_stdpp {A : Type} (f : A -> bool) (l : list A) :
  List.filter f l = filter (fun x => Is_true (f x)) l.
Proof.
  induction l as [|x l IH]; cbn; [reflexivity|].
  rewrite IH. unfold filter at 2. cbn. destruct (f x); reflexivity.
Qed.

(** *** The pattern of event files *)

Lemma match_star_end (s : list ascii) : Glob.match_items [Glob.Star] s = true.
Proof. induction s as [|c s IH]; cbn in *; [reflexivity|]. exact IH. Qed.

Lemma match_literals_star (pre s : list ascii) :
  Glob.match_items (List.map Glob.Lit pre ++ [Glob.Star]) s = starts_with pre s.
Proof.
  revert s. induction pre as [|a pre IH]; intros s.
  - apply match_star_end.
  - destruct s as [|b s]; cbn; [reflexivity|]. rewrite IH. reflexivity.
Qed.

Lemma starts_with_prefix (a b : string) :
  starts_with (list_ascii_of_string a) (list_ascii_of_string b) = String.prefix a b.
Proof.
  revert b. induction a as [|x a IH]; intros b; cbn;
    [destruct b; reflexivity|].
  destruct b as [|y b]; cbn; [reflexivity|].
  destruct (ascii_dec x y) as [->|N].
  - rewrite Ascii.eqb_refl. apply IH.
  - apply Ascii.eqb_neq in N. rewrite N. reflexivity.
Qed.

(** A name matches [events.out.tfevents.*] when it starts with
    [events.out.tfevents.]. *)
Lemma fnmatch_event_pattern (name : string) :
  Glob.fnmatch name event_pattern = String.prefix "events.out.tfevents." name.
Proof.
  unfold Glob.fnmatch.
  change (Glob.translate event_pattern) with
    (List.map Glob.Lit (list_ascii_of_string "events.out.tfevents.") ++ [Glob.Star]).
  rewrite match_literals_star. apply starts_with_prefix.
Qed.

Lemma prefix_not_hidden (name : string) :
  String.prefix "events.out.tfevents." name = true -> Glob.ishidden name = false.
Proof.
  destruct name as [|c name]; [discriminate|].
  cbn [String.prefix Glob.ishidden].
  destruct (ascii_dec "e" c) as [E|E]; [|discriminate].
  subst c. reflexivity.
Qed.

Lemma lookup_node_app (root : node) (a b : path) :
  lookup_node root (a ++ b) =
  match lookup_node root a with
  | Some n => lookup_node n b
  | None => None
  end.
Proof.
  revert root. induction a as [|c a IH]; intros root; cbn; [reflexivity|].
  destruct root as [m|entries]; [reflexivity|].
  destruct (entries !! c); [apply IH|reflexivity].
Qed.

(** Components without wildcard are followed one by one. *)
Lemma expand_literal fs (d p rest : path) :
  Forall (fun c => Glob.has_magic c = false) p ->
  is_Some (lookup_node fs (d ++ p)) ->
  Glob.expand fs [d] (p ++ rest) = Glob.expand fs [d ++ p] rest.
Proof.
  revert d. induction p as [|c p IH]; intros d Hm Hs.
  - rewrite app_nil_r. reflexivity.
  - inversion Hm as [|? ? Hc Hp]; subst.
    cbn [app Glob.expand List.flat_map]. unfold Glob.step at 1.
    rewrite Hc. unfold path_join.
    assert (Hd : is_Some (lookup_node fs (d ++ [c]))).
    { replace (d ++ c :: p) with ((d ++ [c]) ++ p) in Hs
        by (rewrite <- app_assoc; reflexivity).
      rewrite lookup_node_app in Hs.
      destruct (lookup_node fs (d ++ [c])); [eauto|].
      destruct Hs; discriminate. }
    destruct Hd as [n Hn]. rewrite Hn. cbn [app].
    rewrite IH; [|exact Hp|].
    + rewrite <- app_assoc. reflexivity.
    + rewrite <- app_assoc. exact Hs.
Qed.

(** The locator on a directory whose path has no wildcard character:
    the files directly inside it whose name starts with
    [events.out.tfevents.], each once, oldest first. *)
Lemma find_event_files_dir fs (p : path) :
  Forall (fun c => Glob.has_magic c = false) p ->
  isdir fs p = true ->
  exists files,
    _find_event_files fs p = Ok files /\
    StronglySorted (mtime_le fs) files /\
    NoDup files /\
    forall q, In q files <->
      exists name m,
        q = path_join p name /\
        String.prefix "events.out.tfevents." name = true /\
        lookup_node fs q = Some (File m).
Proof.
  intros Hm Hd. unfold _find_event_files. rewrite Hd.
  eexists. split; [reflexivity|].
  split; [apply (sorted_by_sorted (getmtime fs))|].
  unfold isdir in Hd.
  destruct (lookup_node fs p) as [[m|entries]|] eqn:Hp; try discriminate.
  assert (Hglob : Glob.glob fs (path_join p event_pattern) =
    List.map (fun e => path_join p (fst e))
      (List.filter (fun e => String.prefix "events.out.tfevents." (fst e))
         (map_to_list entries))).
  { unfold Glob.glob, path_join.
    etransitivity;
      [apply (expand_literal fs [] p [event_pattern] Hm); cbn; rewrite Hp; eauto|].
    cbn [app Glob.expand List.flat_map length Nat.eqb negb].
    rewrite app_nil_r. unfold Glob.step.
    change (Glob.has_magic event_pattern) with true. cbn iota.
    unfold listdir. rewrite Hp. f_equal.
    apply List.filter_ext. intros [name n]. cbn [fst snd].
    rewrite fnmatch_event_pattern.
    destruct (String.prefix "events.out.tfevents." name) eqn:Hpre; [|reflexivity].
    rewrite (prefix_not_hidden _ Hpre). reflexivity. }
  rewrite Hglob.
  assert (Hlook : forall name,
    lookup_node fs (path_join p name) = entries !! name).
  { intros name. unfold path_join. rewrite lookup_node_app, Hp. cbn.
    destruct (entries !! name); reflexivity. }
  split.
  - rewrite sorted_by_perm.
    rewrite list_filter_stdpp. apply NoDup_filter.
    rewrite map_fmap. apply NoDup_fmap_2_strong.
    + intros [n1 x1] [n2 x2] H1 H2 E. cbn in E.
      apply app_inj_tail in E. destruct E as [_ E]. subst n2.
      apply list_elem_of_In, List.filter_In in H1, H2.
      destruct H1 as [H1 _], H2 as [H2 _].
      apply list_elem_of_In, elem_of_map_to_list in H1, H2. congruence.
    + rewrite list_filter_stdpp. apply NoDup_filter, NoDup_map_to_list.
  - intros q. split.
    + intros Hq.
      eapply Permutation_in in Hq; [|apply sorted_by_perm].
      apply List.filter_In in Hq. destruct Hq as [Hq Hfile].
      apply List.in_map_iff in Hq. destruct Hq as ([name n] & <- & Hin).
      apply List.filter_In in Hin. destruct Hin as [Hin Hpre]. cbn [fst] in *.
      unfold isfile in Hfile. rewrite Hlook in Hfile.
      apply list_elem_of_In, elem_of_map_to_list in Hin. rewrite Hin in Hfile.
      destruct n as [m|]; [|discriminate].
      exists name, m. rewrite Hlook. auto.
    + intros (name & m & -> & Hpre & Hq).
      eapply Permutation_in; [symmetry; apply sorted_by_perm|].
      apply List.filter_In. split.
      * apply List.in_map_iff. exists (name, File m). split; [reflexivity|].
        apply List.filter_In. split; [|exact Hpre].
        apply list_elem_of_In, elem_of_map_to_list. rewrite <- Hlook. exact Hq.
      * unfold isfile. rewrite Hq. reflexivity.
Qed.

(** ** The two backends and [read_events] *)

Lemma tf_visit_fold wanted e vs available rows :
  List.fold_left (tf_visit wanted e) vs (available, rows) =
  (list_to_set (List.map sv_tag vs) ∪ available,
   rows ++ List.map tf_row (List.filter (passes wanted) (List.map (pair e) vs))).
Proof.
  revert available rows. induction vs as [|v vs IH]; intros available rows.
  - cbn. rewrite app_nil_r, union_empty_l_L. reflexivity.
  - cbn [List.fold_left List.map List.filter].
    unfold tf_visit at 2, passes at 1, hasattr_simple_value. cbn [snd fst].
    assert (U : list_to_set (List.map sv_tag vs) ∪ ({[sv_tag v]} ∪ available) =
                list_to_set (sv_tag v :: List.map sv_tag vs) ∪ available).
    { rewrite list_to_set_cons, union_assoc_L.
      f_equal. apply union_comm_L. }
    destruct (truthy wanted && negb (tag_in (sv_tag v) wanted)); cbn [negb];
      rewrite IH, U; [reflexivity|].
    rewrite <- app_assoc. reflexivity.
Qed.

(** The second backend: every tag met is observed, and the entries that
    pass the filter give the rows, in file order. *)
Lemma tf_scan_spec wanted evs :
  tf_scan wanted evs =
  (list_to_set (List.map (fun x => sv_tag (snd x)) (entries evs)),
   List.map tf_row (List.filter (passes wanted) (entries evs))).
Proof.
  unfold tf_scan.
  assert (G : forall available rows,
    List.fold_left (fun acc e =>
      List.fold_left (tf_visit wanted e) (ev_summary e) acc) evs (available, rows) =
    (list_to_set (List.map (fun x => sv_tag (snd x)) (entries evs)) ∪ available,
     rows ++ List.map tf_row (List.filter (passes wanted) (entries evs)))).
  { induction evs as [|e evs IH]; intros available rows.
    - cbn. rewrite app_nil_r, union_empty_l_L. reflexivity.
    - cbn [List.fold_left entries List.flat_map].
      rewrite tf_visit_fold, IH. fold (entries evs).
      rewrite List.map_app, List.filter_app, List.map_app, List.map_map.
      cbn [snd]. rewrite <- app_assoc. f_equal.
      rewrite list_to_set_app_L, union_assoc_L. f_equal. apply union_comm_L. }
  rewrite G. cbn [app]. rewrite union_empty_r_L. reflexivity.
Qed.



(** [read_events] raises exactly when both backends do; the text is
    the one for missing libraries exactly when the second library is
    missing. *)
Lemma read_events_raises env p tags out e :
  read_events env p tags = (out, Raise e) ->
  (exists eA, _read_with_event_accumulator env p tags = Raise eA) /\
  exn_cls e = RuntimeError /\
  ((tensorflow_installed env = false /\ exn_msg e = msg_neither) \/
   (tensorflow_installed env = true /\
    exists msg, tensorflow_load env p = Corrupt msg /\
                exn_msg e = msg_parse (Exn OtherException msg))).
Proof.
  unfold read_events.
  destruct (_read_with_event_accumulator env p tags) as [[rs av]|eA];
    [discriminate|].
  intros E. split; [eauto|]. revert E.
  unfold _read_with_tf_summary_iterator.
  destruct (tensorflow_installed env).
  - destruct (tensorflow_load env p) as [evs|msg].
    + destruct (tf_scan tags evs). cbn. discriminate.
    + cbn. intros E. inversion E; subst. cbn. split; [reflexivity|].
      right. eauto.
  - cbn. intros E. inversion E; subst. cbn. auto.
Qed.

Lemma read_events_missing_tensorflow env p tags eA :
  _read_with_event_accumulator env p tags = Raise eA ->
  tensorflow_installed env = false ->
  snd (read_events env p tags) = Raise (Exn RuntimeError msg_neither).
Proof.
  intros EA EB. unfold read_events, _read_with_tf_summary_iterator.
  rewrite EA, EB. reflexivity.
Qed.

(** The order of [read_events]: the result of the first backend when it
    succeeds, whatever the second would do; when tensorboard is not
    installed, the result of the second backend with nothing written;
    when tensorboard is installed and fails on the file, the result of
    the second backend after one warning on the diagnostic stream, with
    the path and the text of the failure in it. *)
Lemma read_events_order env p tags :
  (forall rows available,
     _read_with_event_accumulator env p tags = Ok (rows, available) ->
     read_events env p tags = ([], Ok (rows, available, backend_A))) /\
  (forall rows available,
     tensorboard_installed env = false ->
     _read_with_tf_summary_iterator env p tags = Ok (rows, available) ->
     read_events env p tags = ([], Ok (rows, available, backend_B))) /\
  (forall msg rows available,
     tensorboard_installed env = true ->
     tensorboard_load env p = Corrupt msg ->
     _read_with_tf_summary_iterator env p tags = Ok (rows, available) ->
     read_events env p tags =
       ([Stderr ("[Warn] EventAccumulator failed on " +:+ path_str p +:+ ": "
                 +:+ msg +:+ nl +:+ "Trying tensorflow summary_iterator..."
                 +:+ nl)],
        Ok (rows, available, backend_B))).
Proof.
  unfold read_events. split; [|split].
  - intros rows available EA. rewrite EA. reflexivity.
  - intros rows available HA EB. unfold _read_with_event_accumulator.
    rewrite HA, EB. reflexivity.
  - intros msg rows available HA HL EB. unfold _read_with_event_accumulator.
    rewrite HA, HL, EB. reflexivity.
Qed.

(** ** Lists of tags *)

Lemma first_seen_In (l : list string) (x : string) :
  In x (first_seen l) <-> In x l.
Proof.
  induction l as [|y l IH]; cbn; [tauto|].
  rewrite List.filter_In, IH, negb_true_iff, String.eqb_neq.
  destruct (String.eqb_spec y x); [subst|]; tauto.
Qed.

Lemma first_seen_NoDup (l : list string) : List.NoDup (first_seen l).
Proof.
  induction l as [|y l IH]; cbn; constructor.
  - rewrite List.filter_In, negb_true_iff, String.eqb_neq. tauto.
  - apply List.NoDup_filter, IH.
Qed.

Lemma filter_all {A : Type} (f : A -> bool) (l : list A) :
  (forall x, In x l -> f x = true) -> List.filter f l = l.
Proof.
  induction l as [|x l IH]; intros H; cbn; [reflexivity|].
  rewrite (H x (or_introl Logic.eq_refl)), IH; [reflexivity|].
  intros y Hy. apply H. right. exact Hy.
Qed.

Lemma filter_none {A : Type} (f : A -> bool) (l : list A) :
  (forall x, In x l -> f x = false) -> List.filter f l = [].
Proof.
  induction l as [|x l IH]; intros H; cbn; [reflexivity|].
  rewrite (H x (or_introl Logic.eq_refl)). apply IH.
  intros y Hy. apply H. right. exact Hy.
Qed.

Lemma first_seen_snoc (l : list string) (x : string) :
  first_seen (l ++ [x]) =
  first_seen l ++ (if existsb (String.eqb x) l then [] else [x]).
Proof.
  induction l as [|a l IH]; [reflexivity|].
  cbn [app first_seen existsb]. rewrite IH, List.filter_app.
  cbn [app]. f_equal. f_equal.
  destruct (String.eqb_spec x a) as [->|Hne]; cbn [orb].
  - destruct (existsb (String.eqb a) l); [reflexivity|].
    cbn. rewrite String.eqb_refl. reflexivity.
  - destruct (existsb (String.eqb x) l); [reflexivity|].
    cbn. destruct (String.eqb_spec a x) as [->|_]; [congruence|reflexivity].
Qed.

Lemma existsb_eqb_In (x : string) (l : list string) :
  existsb (String.eqb x) l = true <-> In x l.
Proof.
  rewrite List.existsb_exists. split.
  - intros (y & Hy & Heq). apply String.eqb_eq in Heq. subst. exact Hy.
  - intros H. exists x. split; [exact H|apply String.eqb_refl].
Qed.


(** ** The accumulator of the first backend *)

Lemma AddItem_keys key item (bs : Reservoir) :
  List.map fst (AddItem key item bs) =
  List.map fst bs
    ++ (if existsb (String.eqb key) (List.map fst bs) then [] else [key]).
Proof.
  induction bs as [|[t items] bs IH]; [reflexivity|].
  cbn [AddItem List.map fst existsb]. rewrite (String.eqb_sym key t).
  destruct (String.eqb t key); cbn [List.map fst orb app].
  - rewrite app_nil_r. reflexivity.
  - rewrite IH. reflexivity.
Qed.

Lemma AddItem_NoDup key item (bs : Reservoir) :
  List.NoDup (List.map fst bs) ->
  List.NoDup (List.map fst (AddItem key item bs)).
Proof.
  intros Hnd. rewrite AddItem_keys.
  destruct (existsb (String.eqb key) (List.map fst bs)) eqn:Ex.
  - rewrite app_nil_r. exact Hnd.
  - eapply Permutation_NoDup; [apply Permutation_cons_append|].
    constructor; [|exact Hnd].
    intros Hin. apply existsb_eqb_In in Hin. congruence.
Qed.

Lemma FilterItems_keys f key (bs : Reservoir) :
  List.map fst (FilterItems f key bs) = List.map fst bs.
Proof.
  unfold FilterItems. destruct key as [[|c k]|]; rewrite List.map_map;
    apply List.map_ext; intros [t items]; cbn [fst snd]; try reflexivity.
  destruct (String.eqb t (String c k)); reflexivity.
Qed.

Lemma Purge_keys event by_tags (bs : Reservoir) :
  List.map fst (_Purge event by_tags bs) = List.map fst bs.
Proof.
  unfold _Purge. destruct by_tags; [|apply FilterItems_keys].
  revert bs. induction (ev_summary event) as [|v vs IH]; intros bs;
    [reflexivity|].
  cbn [List.fold_left]. rewrite IH. apply FilterItems_keys.
Qed.

Lemma add_scalars_NoDup event (bs : Reservoir) :
  List.NoDup (List.map fst bs) ->
  List.NoDup (List.map fst (add_scalars event bs)).
Proof.
  unfold add_scalars. revert bs.
  induction (ev_summary event) as [|v vs IH]; intros bs Hnd; [exact Hnd|].
  cbn [List.fold_left]. apply IH.
  destruct (sv_payload v); [apply AddItem_NoDup|]; exact Hnd.
Qed.

Lemma ProcessEvent_NoDup acc event :
  List.NoDup (List.map fst (scalars acc)) ->
  List.NoDup (List.map fst (scalars (_ProcessEvent acc event))).
Proof.
  intros Hnd. unfold _ProcessEvent. cbn [scalars].
  apply add_scalars_NoDup. unfold _MaybePurgeOrphanedData. cbn [scalars].
  assert (Hs : forall a, scalars a = scalars acc ->
    List.NoDup (List.map fst
      (if version_recent (acc_file_version a)
       then match ev_what event with
            | session_log true => _Purge event false (scalars a)
            | _ => scalars a
            end
       else if Z.ltb (ev_step event) (most_recent_step a) && has_summary event
            then _Purge event true (scalars a)
            else scalars a))).
  { intros a Ha. rewrite Ha.
    destruct (version_recent (acc_file_version a)).
    - destruct (ev_what event) as [v|[|]|vs|]; try exact Hnd.
      rewrite Purge_keys. exact Hnd.
    - destruct (Z.ltb (ev_step event) (most_recent_step a) && has_summary event);
        [rewrite Purge_keys|]; exact Hnd. }
  apply Hs. destruct (ev_what event); reflexivity.
Qed.

(** The tags of the accumulator do not repeat. *)
Lemma ea_Tags_NoDup (evs : list Event) : List.NoDup (ea_Tags_scalars evs).
Proof.
  unfold ea_Tags_scalars, Reload.
  assert (G : forall acc, List.NoDup (List.map fst (scalars acc)) ->
    List.NoDup (List.map fst (scalars (List.fold_left _ProcessEvent evs acc)))).
  { induction evs as [|e evs IH]; intros acc Hnd; [exact Hnd|].
    cbn [List.fold_left]. apply IH, ProcessEvent_NoDup, Hnd. }
  apply G. constructor.
Qed.


(** *** A file that makes the accumulator purge nothing *)

Lemma AddItem_absent (F : string -> list ScalarEvent) ts key item :
  ~ In key ts ->
  AddItem key item (List.map (fun t => (t, F t)) ts) =
  List.map (fun t => (t, F t)) ts ++ [(key, [item])].
Proof.
  induction ts as [|t ts IH]; intros Hn; [reflexivity|].
  cbn [List.map AddItem app].
  destruct (String.eqb_spec t key) as [->|Hne].
  - exfalso. apply Hn. left. reflexivity.
  - rewrite IH; [reflexivity|]. intros Hin. apply Hn. right. exact Hin.
Qed.

Lemma AddItem_present (F : string -> list ScalarEvent) ts key item :
  List.NoDup ts -> In key ts ->
  AddItem key item (List.map (fun t => (t, F t)) ts) =
  List.map (fun t => (t, if String.eqb key t then F t ++ [item] else F t)) ts.
Proof.
  induction ts as [|t ts IH]; intros Hnd Hin; [destruct Hin|].
  inversion Hnd as [|? ? Hnin Hnd']; subst.
  cbn [List.map AddItem]. rewrite (String.eqb_sym key t).
  destruct (String.eqb_spec t key) as [Heq|Hne].
  - f_equal. apply List.map_ext_in. intros u Hu.
    destruct (String.eqb_spec key u) as [<-|_]; [|reflexivity].
    exfalso. apply Hnin. rewrite Heq. exact Hu.
  - f_equal. apply IH; [exact Hnd'|].
    destruct Hin as [->|Hin]; [congruence|exact Hin].
Qed.

Lemma AddItem_grouped items key item :
  AddItem key item (grouped items) = grouped (items ++ [(key, item)]).
Proof.
  unfold grouped. rewrite List.map_app. cbn [List.map fst].
  rewrite first_seen_snoc.
  destruct (existsb (String.eqb key) (List.map fst items)) eqn:Ex.
  - apply existsb_eqb_In in Ex. rewrite app_nil_r.
    rewrite (AddItem_present
               (fun t => List.map snd
                  (List.filter (fun it => String.eqb (fst it) t) items)));
      [|apply first_seen_NoDup|apply first_seen_In, Ex].
    apply List.map_ext. intros t. rewrite List.filter_app, List.map_app.
    cbn [List.filter fst]. destruct (String.eqb key t); [reflexivity|].
    cbn [List.map]. rewrite app_nil_r. reflexivity.
  - assert (Hn : ~ In key (List.map fst items)).
    { intros Hin. apply existsb_eqb_In in Hin. congruence. }
    rewrite (AddItem_absent
               (fun t => List.map snd
                  (List.filter (fun it => String.eqb (fst it) t) items)));
      [|rewrite first_seen_In; exact Hn].
    rewrite List.map_app. cbn [List.map]. f_equal.
    + apply List.map_ext_in. intros t Ht. rewrite List.filter_app, List.map_app.
      cbn [List.filter fst].
      destruct (String.eqb_spec key t) as [<-|_];
        [|cbn [List.map]; rewrite app_nil_r; reflexivity].
      exfalso. apply Hn. apply first_seen_In, Ht.
    + rewrite List.filter_app, List.map_app. cbn [List.filter fst].
      rewrite String.eqb_refl. cbn [List.map snd].
      rewrite filter_none; [reflexivity|].
      intros x Hx. apply String.eqb_neq. intros Heq. apply Hn.
      rewrite <- Heq. apply List.in_map, Hx.
Qed.

Lemma add_scalars_grouped event items :
  add_scalars event (grouped items) = grouped (items ++ scalar_items [event]).
Proof.
  unfold add_scalars, scalar_items. cbn [List.flat_map]. rewrite app_nil_r.
  revert items. induction (ev_summary event) as [|v vs IH]; intros items.
  - cbn. rewrite app_nil_r. reflexivity.
  - cbn [List.fold_left List.flat_map]. destruct (sv_payload v) as [x|].
    + rewrite AddItem_grouped, IH, <- app_assoc. reflexivity.
    + apply IH.
Qed.

Lemma scalar_items_cons e evs :
  scalar_items (e :: evs) = scalar_items [e] ++ scalar_items evs.
Proof.
  unfold scalar_items. cbn [List.flat_map]. rewrite app_nil_r. reflexivity.
Qed.

Lemma Reload_steady_from evs acc items last :
  scalars acc = grouped items ->
  most_recent_step acc = last ->
  steady_from last evs = true ->
  scalars (List.fold_left _ProcessEvent evs acc) =
  grouped (items ++ scalar_items evs).
Proof.
  revert acc items last.
  induction evs as [|e evs IH]; intros acc items last Hs Hl Hst.
  - cbn. rewrite app_nil_r. exact Hs.
  - cbn [List.fold_left]. rewrite scalar_items_cons, app_assoc.
    cbn [steady_from] in Hst.
    assert (Hkeep : scalars (_ProcessEvent acc e) =
                    grouped (items ++ scalar_items [e])).
    { unfold _ProcessEvent. cbn [scalars]. rewrite <- add_scalars_grouped.
      f_equal. unfold _MaybePurgeOrphanedData. cbn [scalars].
      destruct (ev_what e) as [v|[|]|vs|] eqn:Ew; cbn [acc_file_version
        most_recent_step scalars has_summary];
        try discriminate Hst;
        unfold has_summary; rewrite ?Ew;
        try (destruct (version_recent _); rewrite ?andb_false_r; exact Hs).
      apply andb_prop in Hst. destruct Hst as [Hle _].
      apply Z.leb_le in Hle.
      destruct (version_recent _); [exact Hs|].
      rewrite Hl. destruct (Z.ltb_spec (ev_step e) last); [lia|exact Hs]. }
    destruct (ev_what e) as [v|[|]|vs|] eqn:Ew; try discriminate Hst.
    + apply (IH _ _ last); [exact Hkeep| |exact Hst].
      unfold _ProcessEvent, _MaybePurgeOrphanedData, has_summary. rewrite Ew.
      cbn. exact Hl.
    + apply (IH _ _ last); [exact Hkeep| |exact Hst].
      unfold _ProcessEvent, _MaybePurgeOrphanedData, has_summary. rewrite Ew.
      cbn. exact Hl.
    + apply andb_prop in Hst. destruct Hst as [_ Hst].
      apply (IH _ _ (ev_step e)); [exact Hkeep| |exact Hst].
      unfold _ProcessEvent, _MaybePurgeOrphanedData, has_summary. rewrite Ew.
      reflexivity.
    + apply (IH _ _ last); [exact Hkeep| |exact Hst].
      unfold _ProcessEvent, _MaybePurgeOrphanedData, has_summary. rewrite Ew.
      cbn. exact Hl.
Qed.

Lemma Items_grouped items t :
  Items t (grouped items) =
  List.map snd (List.filter (fun it => String.eqb (fst it) t) items).
Proof.
  unfold grouped.
  assert (G : forall ts,
    Items t (List.map (fun u =>
      (u, List.map snd (List.filter (fun it => String.eqb (fst it) u) items))) ts) =
    if existsb (String.eqb t) ts
    then List.map snd (List.filter (fun it => String.eqb (fst it) t) items)
    else []).
  { intros ts. induction ts as [|u ts IH]; [reflexivity|].
    cbn [List.map Items existsb]. rewrite (String.eqb_sym t u).
    destruct (String.eqb_spec u t) as [->|_]; [reflexivity|exact IH]. }
  rewrite G.
  destruct (existsb (String.eqb t) (first_seen (List.map fst items))) eqn:Ex;
    [reflexivity|].
  rewrite filter_none; [reflexivity|].
  intros it Hit. apply String.eqb_neq. intros Heq.
  assert (Hin : In t (first_seen (List.map fst items))).
  { apply first_seen_In. rewrite <- Heq. apply List.in_map, Hit. }
  apply existsb_eqb_In in Hin. congruence.
Qed.

(** On a file without session start whose steps never go back the
    accumulator holds every scalar entry of the file, under its tag, in
    file order. *)
Lemma Reload_steady (evs : list Event) :
  steady evs = true ->
  ea_Tags_scalars evs = first_seen (List.map fst (scalar_items evs)) /\
  forall t,
    ea_Scalars evs t =
    List.map snd
      (List.filter (fun it => String.eqb (fst it) t) (scalar_items evs)).
Proof.
  intros Hst.
  assert (E : scalars (Reload evs) = grouped (scalar_items evs)).
  { unfold Reload.
    apply (Reload_steady_from evs new_accumulator [] (-1));
      [reflexivity|reflexivity|exact Hst]. }
  unfold ea_Tags_scalars, ea_Scalars. rewrite E. split.
  - unfold grouped. rewrite List.map_map. cbn [fst]. apply List.map_id.
  - intros t. apply Items_grouped.
Qed.

(** ** The two backends on a file of scalars *)

(** Two filters that exclude each other split the filter of their
    disjunction. *)
Lemma filter_split_perm {A : Type} (P Q : A -> bool) (l : list A) :
  (forall x, In x l -> P x = true -> Q x = true -> False) ->
  Permutation (List.filter P l ++ List.filter Q l)
              (List.filter (fun x => P x || Q x) l).
Proof.
  induction l as [|x l IH]; intros H; cbn; [reflexivity|].
  assert (IH' := IH (fun y Hy => H y (or_intror Hy))).
  destruct (P x) eqn:HP, (Q x) eqn:HQ; cbn.
  - exfalso. apply (H x); auto. left; reflexivity.
  - apply perm_skip, IH'.
  - rewrite <- Permutation_middle. apply perm_skip, IH'.
  - exact IH'.
Qed.

(** Taking the items tag by tag, over tags that do not repeat, permutes
    the items whose tag is among them. *)
Lemma group_by_tag_perm {B : Type} (items : list (string * B)) (tags : list string) :
  List.NoDup tags ->
  Permutation
    (List.flat_map (fun t =>
       List.filter (fun it => String.eqb (fst it) t) items) tags)
    (List.filter (fun it => existsb (String.eqb (fst it)) tags) items).
Proof.
  induction 1 as [|t ts Hnin Hnd IH]; cbn.
  - induction items as [|it items IHi]; cbn; [reflexivity|exact IHi].
  - rewrite IH. apply filter_split_perm.
    intros it _ H1 H2. apply String.eqb_eq in H1. subst t.
    apply Hnin. apply existsb_exists in H2. destruct H2 as (t' & Ht' & E).
    apply String.eqb_eq in E. subst t'. exact Ht'.
Qed.

Lemma scalar_items_scalars (evs : list Event) :
  scalars_only evs -> scalar_items evs = List.map item_of (entries evs).
Proof.
  induction evs as [|e evs IH]; intros H; [reflexivity|].
  unfold scalar_items, entries. cbn [List.flat_map].
  fold (scalar_items evs). fold (entries evs).
  rewrite List.map_app, IH
    by (intros e' v He' Hv; apply (H e' v); [right; exact He'|exact Hv]).
  f_equal.
  assert (Hs : forall v, In v (ev_summary e) -> exists x, sv_payload v = simple_value x)
    by (intros v Hv; apply (H e v); [left; reflexivity|exact Hv]).
  induction (ev_summary e) as [|v vs IHv]; cbn; [reflexivity|].
  destruct (Hs v (or_introl Logic.eq_refl)) as [x Hx].
  unfold item_of at 1, get_simple_value. cbn [fst snd]. rewrite Hx. cbn.
  f_equal. apply IHv. intros v' Hv'. apply Hs. right. exact Hv'.
Qed.

(** On a file in which every entry is a scalar the rows of the second
    backend are the rows of the wanted scalar entries of the file, in
    file order. *)
Lemma summary_iterator_scalars env p tags evs :
  tensorflow_installed env = true ->
  tensorflow_load env p = Events evs ->
  scalars_only evs ->
  exists available,
    _read_with_tf_summary_iterator env p tags =
      Ok (List.map ea_row
            (List.filter (fun it => wanted tags (fst it)) (scalar_items evs)),
          available).
Proof.
  intros HI HL Hs. unfold _read_with_tf_summary_iterator.
  rewrite HI, HL, tf_scan_spec, (scalar_items_scalars evs Hs).
  eexists. f_equal. f_equal.
  induction (entries evs) as [|x l IH]; [reflexivity|].
  cbn [List.map List.filter].
  change (wanted tags (fst (item_of x))) with (passes tags x).
  destruct (passes tags x); cbn [List.map]; rewrite IH; reflexivity.
Qed.

(** The rows of the first backend are the rows of the items it holds
    under the chosen tags, tag by tag. *)
Lemma event_accumulator_rows_held env p tags rows available evs :
  tensorboard_load env p = Events evs ->
  _read_with_event_accumulator env p tags = Ok (rows, available) ->
  available = ea_Tags_scalars evs /\
  rows =
    List.flat_map (fun t =>
      List.map (fun ev => ea_row (t, ev)) (ea_Scalars evs t))
      (List.filter (wanted tags) (ea_Tags_scalars evs)).
Proof.
  intros HL. unfold _read_with_event_accumulator. rewrite HL.
  destruct (tensorboard_installed env); [|discriminate].
  intros E. inversion E; subst; clear E. split; [reflexivity|].
  f_equal. unfold wanted. destruct (truthy tags); cbn [andb negb].
  - apply List.filter_ext. intros t. rewrite negb_involutive. reflexivity.
  - symmetry. apply filter_all. reflexivity.
Qed.

(** On a file that makes the accumulator purge nothing, the rows of the
    first backend are the rows of the wanted scalar entries of the
    file, taken tag by tag. *)
Lemma event_accumulator_rows env p tags rows available evs :
  tensorboard_load env p = Events evs ->
  steady evs = true ->
  _read_with_event_accumulator env p tags = Ok (rows, available) ->
  available = first_seen (List.map fst (scalar_items evs)) /\
  Permutation rows
    (List.map ea_row
       (List.filter (fun it => wanted tags (fst it)) (scalar_items evs))).
Proof.
  intros HL Hst EA.
  destruct (event_accumulator_rows_held _ _ _ _ _ _ HL EA) as [-> ->].
  destruct (Reload_steady evs Hst) as [Htags Hitems].
  rewrite Htags. split; [reflexivity|].
  set (items := scalar_items evs) in *.
  set (sel := List.filter (wanted tags) (first_seen (List.map fst items))).
  assert (Hnd : List.NoDup sel)
    by (apply List.NoDup_filter, first_seen_NoDup).
  assert (Hrows :
    List.flat_map (fun t =>
      List.map (fun ev => ea_row (t, ev)) (ea_Scalars evs t)) sel =
    List.map ea_row
      (List.flat_map (fun t =>
         List.filter (fun it => String.eqb (fst it) t) items) sel)).
  { clear Hnd. induction sel as [|t sel IH]; cbn [List.flat_map]; [reflexivity|].
    rewrite List.map_app, IH. f_equal.
    rewrite Hitems, List.map_map.
    clear IH. generalize items. clear Hitems Htags items. intros items.
    induction items as [|[t' se] items IHi]; cbn; [reflexivity|].
    destruct (String.eqb_spec t' t) as [->|]; cbn; [|exact IHi].
    f_equal. exact IHi. }
  rewrite Hrows. apply Permutation_map.
  rewrite (group_by_tag_perm items sel Hnd).
  erewrite List.filter_ext_in; [reflexivity|].
  intros [t se] Hin. cbn [fst].
  assert (Hav : In t (first_seen (List.map fst items))).
  { apply first_seen_In, List.in_map_iff. exists (t, se). auto. }
  unfold sel. destruct (wanted tags t) eqn:Hw.
  - apply existsb_exists. exists t. rewrite String.eqb_refl.
    split; [|reflexivity]. apply List.filter_In. auto.
  - apply not_true_is_false. intros Hex.
    apply existsb_exists in Hex. destruct Hex as (t' & Ht' & E).
    apply String.eqb_eq in E. subst t'.
    apply List.filter_In in Ht'. destruct Ht' as [_ Ht']. congruence.
Qed.

(** On a file in which every entry is a scalar, read the same by both
    libraries, and which makes the accumulator purge nothing (no
    session start, steps that never go back), the two backends return
    the same rows up to order and the same tags. *)
Lemma backends_agree_on_scalars env p tags evs rowsA availableA rowsB availableB :
  tensorboard_load env p = Events evs ->
  tensorflow_load env p = Events evs ->
  scalars_only evs ->
  steady evs = true ->
  _read_with_event_accumulator env p tags = Ok (rowsA, availableA) ->
  _read_with_tf_summary_iterator env p tags = Ok (rowsB, availableB) ->
  Permutation rowsA rowsB /\
  (forall t, In t availableA <-> In t availableB).
Proof.
  intros HLA HLB Hs Hst EA EB.
  destruct (event_accumulator_rows _ _ _ _ _ _ HLA Hst EA) as [-> HP].
  revert EB. unfold _read_with_tf_summary_iterator. rewrite HLB.
  destruct (tensorflow_installed env); [|discriminate].
  rewrite tf_scan_spec. intros E. inversion E; subst; clear E.
  rewrite (scalar_items_scalars evs Hs) in HP. split.
  - rewrite HP. clear HP.
    induction (entries evs) as [|x l IH]; cbn; [reflexivity|].
    change (wanted tags (sv_tag (snd x))) with (passes tags x).
    destruct (passes tags x); cbn; [|exact IH].
    apply perm_skip, IH.
  - intros t.
    rewrite first_seen_In, (scalar_items_scalars evs Hs), List.map_map.
    cbn [item_of fst].
    match goal with
    | |- _ <-> In t (sorted_by String.ltb ?l) =>
        assert (HB : In t (sorted_by String.ltb l) <-> In t l)
          by (split; apply Permutation_in; [|symmetry]; apply sorted_by_perm)
    end.
    rewrite HB. clear HB.
    rewrite <- !list_elem_of_In, elem_of_elements, elem_of_list_to_set.
    reflexivity.
Qed.

(** ** The empty list of wanted tags *)




(** ** The aggregator *)

Lemma aggregate_records reader run_dir tag files :
  snd (aggregate reader run_dir tag files) =
  let st := List.fold_left scan_record (records_of reader tag files) init_state in
  match st_max_value st with
  | None => None
  | Some v =>
      Some {| run := basename run_dir; max_value := v;
              max_step := st_max_step st; max_file := st_max_file st |}
  end.
Proof.
  unfold aggregate.
  pose proof (scan_files_records reader tag files init_state) as H.
  destruct (scan_files reader tag files init_state) as [out st].
  cbn [snd] in H. subst st. cbn zeta.
  destruct (st_max_value _); reflexivity.
Qed.

Lemma compute_max_located reader fs run_dir tag latest_only files :
  _find_event_files fs run_dir = Ok files ->
  files <> [] ->
  compute_max_for_run_with reader fs run_dir tag latest_only =
  (fst (aggregate reader run_dir tag
          (if latest_only && Nat.ltb 1 (length files)
           then [List.last files []] else files)),
   Ok (snd (aggregate reader run_dir tag
          (if latest_only && Nat.ltb 1 (length files)
           then [List.last files []] else files)))).
Proof.
  intros E Hne. unfold compute_max_for_run_with. rewrite E.
  destruct files as [|f files]; [congruence|].
  destruct (aggregate _ _ _ _). reflexivity.
Qed.

Lemma last_In {A : Type} (l : list A) (d : A) : l <> [] -> In (List.last l d) l.
Proof.
  induction l as [|x l IH]; [congruence|]. intros _.
  destruct l as [|y l]; [left; reflexivity|].
  right. apply IH. discriminate.
Qed.

Lemma records_of_nil reader tag files :
  (forall f, In f files -> forall out rows available backend,
     reader f (Some [tag]) = (out, Ok (rows, available, backend)) -> rows = []) ->
  records_of reader tag files = [].
Proof.
  unfold records_of.
  induction files as [|f files IH]; intros H; cbn [List.flat_map]; [reflexivity|].
  rewrite IH by (intros f' Hf'; apply H; right; exact Hf').
  destruct (reader f (Some [tag])) as [out [[[rows av] b]|e]] eqn:E;
    [|reflexivity].
  rewrite (H f (or_introl Logic.eq_refl) _ _ _ _ E). reflexivity.
Qed.

Lemma records_of_In reader tag files name r :
  In (name, r) (records_of reader tag files) ->
  exists f out rows available backend,
    In f files /\ name = basename f /\
    reader f (Some [tag]) = (out, Ok (rows, available, backend)) /\ In r rows.
Proof.
  unfold records_of. intros H. apply List.in_flat_map in H.
  destruct H as (f & Hf & H).
  destruct (reader f (Some [tag])) as [out [[[rows av] b]|e]] eqn:E; [|destruct H].
  apply List.in_map_iff in H. destruct H as (r' & Er & Hr). inversion Er; subst.
  exists f, out, rows, av, b. auto.
Qed.

Lemma scan_row_filter fname rows st :
  List.fold_left (scan_row fname)
    (List.filter (fun r => match row_value r with
                           | Some _ => true
                           | None => false
                           end) rows) st =
  List.fold_left (scan_row fname) rows st.
Proof.
  revert st. induction rows as [|r rows IH]; intros st; cbn; [reflexivity|].
  destruct (row_value r) as [v|] eqn:Hr; cbn; [apply IH|].
  rewrite IH. f_equal. unfold scan_row. rewrite Hr. reflexivity.
Qed.

Lemma scan_files_drop_valueless reader tag files st :
  scan_files (drop_valueless reader) tag files st = scan_files reader tag files st.
Proof.
  revert st. induction files as [|f files IH]; intros st; cbn; [reflexivity|].
  unfold drop_valueless at 1.
  destruct (reader f (Some [tag])) as [out [[[rows av] b]|e]].
  - rewrite scan_row_filter, IH. reflexivity.
  - rewrite IH. reflexivity.
Qed.




(** For an existing run directory [compute_max_for_run] returns
    [None], with no exception, when no event file is located in it
    (which is the case when the directory, its path free of wildcard
    characters, directly holds no file named [events.out.tfevents.*]),
    and when the located files yield no record for the tag. *)
Lemma absent_when_no_data env run_dir tag latest_only :
  isdir (fs env) run_dir = true ->
  exists files,
    _find_event_files (fs env) run_dir = Ok files /\
    (files = [] ->
       compute_max_for_run env run_dir tag latest_only = ([], Ok None)) /\
    ((forall f, In f files -> forall out rows available backend,
        read_events env f (Some [tag]) = (out, Ok (rows, available, backend)) ->
        rows = []) ->
       exists out,
         compute_max_for_run env run_dir tag latest_only = (out, Ok None)) /\
    (Forall (fun c => Glob.has_magic c = false) run_dir ->
     (forall name m,
        String.prefix "events.out.tfevents." name = true ->
        lookup_node (fs env) (path_join run_dir name) <> Some (File m)) ->
     files = []).
Proof.
  intros Hd.
  assert (E : exists files, _find_event_files (fs env) run_dir = Ok files).
  { unfold _find_event_files. rewrite Hd. eauto. }
  destruct E as [files E]. exists files. split; [exact E|].
  split; [|split].
  - intros ->. unfold compute_max_for_run, compute_max_for_run_with.
    rewrite E. reflexivity.
  - intros Hrows. unfold compute_max_for_run.
    destruct files as [|f0 files'] eqn:Hf.
    { eexists. unfold compute_max_for_run_with. rewrite E. reflexivity. }
    rewrite <- Hf in *.
    assert (Hne : files <> []) by (rewrite Hf; discriminate).
    rewrite (compute_max_located _ _ _ _ latest_only files E Hne).
    eexists. f_equal. f_equal.
    rewrite aggregate_records, records_of_nil; [reflexivity|].
    intros f Hin. apply Hrows.
    destruct (latest_only && Nat.ltb 1 (length files)); [|exact Hin].
    destruct Hin as [<-|[]]. apply last_In, Hne.
  - intros Hm Hnone.
    destruct (find_event_files_dir (fs env) run_dir Hm Hd)
      as (files' & E' & _ & _ & Hin).
    rewrite E in E'. inversion E'; subst files'.
    destruct files as [|q files']; [reflexivity|]. exfalso.
    destruct (proj1 (Hin q) (or_introl Logic.eq_refl)) as (name & m & -> & Hp & Hq).
    exact (Hnone name m Hp Hq).
Qed.

(** C8. When more than one file is located, [compute_max_for_run] with
    [latest_only] reads one file only, the last of the list, whose
    modification time is the greatest: its result is the aggregate of
    that file alone and does not depend on what a read of any other
    file gives.  With at most one file located, [latest_only] makes no
    difference. *)
Theorem latest_only_newest env run_dir tag files :
  _find_event_files (fs env) run_dir = Ok files ->
  ((1 < length files)%nat ->
     let newest := List.last files [] in
     In newest files /\
     (forall f, In f files -> getmtime (fs env) f <= getmtime (fs env) newest) /\
     compute_max_for_run env run_dir tag true =
       (fst (aggregate (read_events env) run_dir tag [newest]),
        Ok (snd (aggregate (read_events env) run_dir tag [newest]))) /\
     (forall reader,
        reader newest (Some [tag]) = read_events env newest (Some [tag]) ->
        compute_max_for_run_with reader (fs env) run_dir tag true =
        compute_max_for_run env run_dir tag true)) /\
  ((length files <= 1)%nat ->
     compute_max_for_run env run_dir tag true =
     compute_max_for_run env run_dir tag false).
Proof.
  intros E. split.
  - intros Hlen newest.
    assert (Hne : files <> []) by (intros ->; cbn in Hlen; lia).
    assert (Hlt : Nat.ltb 1 (length files) = true) by (apply Nat.ltb_lt; exact Hlen).
    split; [apply last_In, Hne|].
    split; [apply (find_event_files_newest _ _ _ E)|].
    split.
    + unfold compute_max_for_run.
      rewrite (compute_max_located _ _ _ _ true files E Hne), Hlt. reflexivity.
    + intros reader Hr. unfold compute_max_for_run.
      rewrite !(compute_max_located _ _ _ _ true files E Hne), Hlt. cbn [andb].
      fold newest. unfold aggregate. cbn [scan_files]. rewrite Hr. reflexivity.
  - intros Hlen. unfold compute_max_for_run, compute_max_for_run_with.
    rewrite E. destruct files as [|f [|g files]]; try reflexivity.
    cbn in Hlen. lia.
Qed.

(** C10. A record whose value is absent is skipped and raises nothing:
    the result and the output are those of the same run without such
    records, and when no record of a located run has a value the
    result is [None]. *)
Theorem valueless_records_skipped reader fs run_dir tag latest_only :
  compute_max_for_run_with reader fs run_dir tag latest_only =
  compute_max_for_run_with (drop_valueless reader) fs run_dir tag latest_only /\
  (forall files,
     _find_event_files fs run_dir = Ok files ->
     (forall f out rows available backend r,
        reader f (Some [tag]) = (out, Ok (rows, available, backend)) ->
        In r rows -> row_value r = None) ->
     exists out,
       compute_max_for_run_with reader fs run_dir tag latest_only = (out, Ok None)).
Proof.
  split.
  - unfold compute_max_for_run_with.
    destruct (_find_event_files fs run_dir) as [files|e]; [|reflexivity].
    destruct files as [|f files]; [reflexivity|].
    unfold aggregate. rewrite scan_files_drop_valueless. reflexivity.
  - intros files E Hnone.
    destruct files as [|f0 files'] eqn:Hf.
    { eexists. unfold compute_max_for_run_with. rewrite E. reflexivity. }
    rewrite <- Hf in *.
    assert (Hne : files <> []) by (rewrite Hf; discriminate).
    rewrite (compute_max_located _ _ _ _ latest_only files E Hne).
    eexists. f_equal. f_equal.
    rewrite aggregate_records. cbn zeta.
    rewrite scan_all_valueless; [reflexivity|].
    intros name r Hin. apply records_of_In in Hin.
    destruct Hin as (f & out & rows & av & b & _ & _ & Er & Hr).
    eapply Hnone; eauto.
Qed.

(** ** The multi-file read of [main] *)

(** The loop of [main] ends with the exception of the first read that
    raises. *)
Lemma main_loop_aborts env tags files st :
  (exists f, In f files /\ exists out e, read_events env f tags = (out, Raise e)) ->
  exists out e, main_loop env tags files st = (out, Raise e).
Proof.
  revert st. induction files as [|f files IH]; intros st (g & Hg & out & e & Hr).
  - destruct Hg.
  - cbn [main_loop].
    destruct (read_events env f tags) as [o [[[rows av] b]|e']] eqn:E.
    + destruct Hg as [->|Hg]; [congruence|].
      edestruct IH as (o' & e'' & H'); [eauto 6|].
      rewrite H'. eauto.
    + eauto.
Qed.

(** The loop of [compute_max_for_run] goes past a read that raises:
    the file adds one warning and leaves the state as it was. *)
Lemma scan_files_skips reader tag f rest st out e :
  reader f (Some [tag]) = (out, Raise e) ->
  scan_files reader tag (f :: rest) st =
  (out ++ warn_skip f e :: fst (scan_files reader tag rest st),
   snd (scan_files reader tag rest st)).
Proof.
  intros E. cbn [scan_files]. rewrite E.
  destruct (scan_files reader tag rest st). reflexivity.
Qed.

(** ** The locator on a file and on a missing path *)

Lemma find_event_files_file fs p m :
  lookup_node fs p = Some (File m) -> _find_event_files fs p = Ok [p].
Proof.
  intros H. unfold _find_event_files, isdir, isfile. rewrite H. reflexivity.
Qed.


(** ** The properties at the sample worlds *)

(** What a sample directory directly holds. *)
Lemma lookup_in_dir fs d l name n :
  lookup_node fs d = Some (Sample.dir l) ->
  lookup_node fs (path_join d name) = Some n ->
  In (name, n) l.
Proof.
  intros Hd. unfold path_join. rewrite lookup_node_app, Hd.
  unfold Sample.dir. cbn [lookup_node].
  destruct (list_to_map l !! name) as [child|] eqn:E; [|discriminate].
  intros H. inversion H; subst.
  apply list_elem_of_In, (elem_of_list_to_map_2 l), E.
Qed.

(** The event files of a run that holds one. *)
Lemma event_files_of_single fs run_dir files q :
  event_files_of fs run_dir files ->
  In q files -> (forall q', In q' files -> q' = q) -> files = [q].
Proof.
  intros (_ & Hnd & _) Hq Hall.
  destruct files as [|a [|b rest]]; [destruct Hq| |].
  - f_equal. apply Hall. left. reflexivity.
  - exfalso. inversion Hnd as [|? ? Hnin _]; subst. apply Hnin.
    rewrite (Hall a), (Hall b); [left; reflexivity| |]; cbn; auto.
Qed.


(** C1, as stated, fails as well where the locator goes astray: the one
    event file of [run[2]] holds 0.875 at step 3, and the summary of
    [run[2]] reports the 0.5 at step 7 of the file of [run2]. *)
Lemma max_property_fails_beside_sibling :
  ~ max_property Sibling.both ["run[2]"] "acc".
Proof.
  intros (files & Hof & H).
  assert (Hd : lookup_node Sibling.tree ["run[2]"] =
               Some (Sample.dir [(Sample.ev1, File 10)]))
    by (vm_compute; reflexivity).
  assert (Hfiles : files = [["run[2]"; Sample.ev1]]).
  { apply (event_files_of_single _ _ _ _ Hof).
    - apply (proj2 (proj2 Hof)). exists Sample.ev1, 10.
      split; [reflexivity|]. split; vm_compute; reflexivity.
    - intros q Hq. apply (proj2 (proj2 Hof)) in Hq.
      destruct Hq as (name & m & -> & _ & Hl).
      destruct (lookup_in_dir _ _ _ _ _ Hd Hl) as [E|[]].
      inversion E; subst. reflexivity. }
  subst files.
  destruct H as (_ & out & s & Hc & _ & (i & f & r & (_ & _ & Hall) & _)).
  - intros f [<-|[]]. eexists. eexists. vm_compute. reflexivity.
  - vm_compute. discriminate.
  - vm_compute in Hc. inversion Hc; subst s. cbn [max_value] in Hall.
    destruct (Hall 0%nat Sample.ev1 (sample_row "acc" 3 0.875) 0.875%float)
      as [Hge _].
    + vm_compute. reflexivity.
    + reflexivity.
    + vm_compute in Hge. discriminate.
Qed.


(** C2. With the first of two located files unreadable by both
    libraries, the loop of [main] raises at it and returns no row of
    the second file; [compute_max_for_run] on the same directory skips
    the file with a warning and takes the maximum of the second. *)
Theorem main_aborts_on_unreadable_file :
  _find_event_files Sample.tree ["runC"] =
    Ok [["runC"; Sample.ev1]; ["runC"; Sample.ev2]] /\
  read_events Sample.both ["runC"; Sample.ev2] None =
    ([], Ok ([sample_row "acc" 3 0.75], ["acc"], backend_A)) /\
  main Sample.both ["runC"] None false =
    ([warn_A ["runC"; Sample.ev1] (Exn OtherException "truncated record")],
     Raise (Exn RuntimeError
              (msg_parse (Exn OtherException "truncated record")))) /\
  compute_max_for_run Sample.both ["runC"] "acc" false =
    ([warn_A ["runC"; Sample.ev1] (Exn OtherException "truncated record");
      warn_skip ["runC"; Sample.ev1]
        (Exn RuntimeError (msg_parse (Exn OtherException "truncated record")))],
     Ok (Some {| run := "runC"; max_value := 0.75; max_step := Some 3;
                 max_file := Some Sample.ev2 |})).
Proof.
  split; [|split; [|split]]; vm_compute; reflexivity.
Qed.

(** C3. A file whose one entry is a histogram tagged [weights]: where
    tensorboard is installed and reads it, [read_events] returns no
    row; where tensorboard is missing, and where it is installed and
    fails on the file, [read_events] falls back to the second backend
    and returns a row of value 0.0 for the histogram, a record the file
    does not hold. *)
Theorem fallback_returns_row_for_histogram :
  tensorflow_load Sample.both ["runH"; Sample.ev1] =
    Events [Sample.histogram 1 "weights"] /\
  read_events Sample.both ["runH"; Sample.ev1] None =
    ([], Ok ([], [], backend_A)) /\
  read_events Sample.tf_only ["runH"; Sample.ev1] None =
    ([], Ok ([sample_row "weights" 1 0], ["weights"], backend_B)) /\
  read_events Rewound.broken_tensorboard ["runH"; Sample.ev1] None =
    ([Stderr ("[Warn] EventAccumulator failed on runH/events.out.tfevents.1: "
              +:+ "bad record" +:+ nl
              +:+ "Trying tensorflow summary_iterator..." +:+ nl)],
     Ok ([sample_row "weights" 1 0], ["weights"], backend_B)).
Proof.
  split; [|split; [|split]]; vm_compute; reflexivity.
Qed.

(** C4. With tensorboard installed but failing on the file and
    tensorflow not installed, [read_events] raises the error whose text
    says that neither library is available. *)
Theorem neither_message_with_tensorboard_installed :
  tensorboard_installed Sample.tb_only = true /\
  tensorflow_installed Sample.tb_only = false /\
  read_events Sample.tb_only ["runC"; Sample.ev1] None =
    ([warn_A ["runC"; Sample.ev1] (Exn OtherException "truncated record")],
     Raise (Exn RuntimeError msg_neither)).
Proof.
  split; [|split]; vm_compute; reflexivity.
Qed.

(** C5. On a file that both libraries decode to one histogram entry,
    the event-accumulator backend returns no row and no tag, and the
    summary-iterator backend returns the tag and a row of value 0.0. *)
Theorem backends_differ_on_histogram :
  tensorboard_load Sample.both ["runH"; Sample.ev1] =
    tensorflow_load Sample.both ["runH"; Sample.ev1] /\
  _read_with_event_accumulator Sample.both ["runH"; Sample.ev1] None =
    Ok ([], []) /\
  _read_with_tf_summary_iterator Sample.both ["runH"; Sample.ev1] None =
    Ok ([sample_row "weights" 1 0], ["weights"]).
Proof.
  split; [|split]; vm_compute; reflexivity.
Qed.

(** C6. A directory whose name holds a bracket expression: [run[1]]
    directly contains the file [events.out.tfevents.1], and the locator
    returns no file for it. *)
Theorem locator_misses_files_under_bracket_name :
  isdir Sample.tree ["run[1]"] = true /\
  lookup_node Sample.tree ["run[1]"; Sample.ev1] = Some (File 10) /\
  Glob.fnmatch Sample.ev1 event_pattern = true /\
  _find_event_files Sample.tree ["run[1]"] = Ok [].
Proof.
  split; [|split; [|split]]; vm_compute; reflexivity.
Qed.

(** C7. The directory [run[1]] exists and holds no event file, only a
    file of notes; beside it the directory [run1] holds one.  The
    locator, asked for [run[1]], returns the file of [run1], and
    [compute_max_for_run] returns a summary for [run[1]], not [None]. *)
Theorem summary_for_directory_without_event_file :
  isdir Sibling.tree ["run[1]"] = true /\
  List.map fst (listdir Sibling.tree ["run[1]"]) = ["notes.txt"] /\
  _find_event_files Sibling.tree ["run[1]"] = Ok [["run1"; Sample.ev1]] /\
  compute_max_for_run Sibling.both ["run[1]"] "acc" false =
    ([], Ok (Some {| run := "run[1]"; max_value := 0.5; max_step := Some 7;
                     max_file := Some Sample.ev1 |})).
Proof.
  split; [|split; [|split]]; vm_compute; reflexivity.
Qed.


(** What the accumulator keeps of a file in which the step goes back
    from 5 to 1: without a version line the first backend returns the
    later record alone, the second both; with the version line 2 both
    return both.  After a session start at step 2 the record of step 5
    is gone. *)
Lemma accumulator_purges_orphaned_records :
  _read_with_event_accumulator (Rewound.world Rewound.bare) [] None =
    Ok ([sample_row "acc" 1 0.25], ["acc"]) /\
  _read_with_tf_summary_iterator (Rewound.world Rewound.bare) [] None =
    Ok ([sample_row "acc" 5 0.75; sample_row "acc" 1 0.25], ["acc"]) /\
  _read_with_event_accumulator (Rewound.world Rewound.versioned) [] None =
    Ok ([sample_row "acc" 5 0.75; sample_row "acc" 1 0.25], ["acc"]) /\
  _read_with_event_accumulator (Rewound.world Rewound.restarted) [] None =
    Ok ([sample_row "acc" 1 0.25; sample_row "acc" 2 0.5], ["acc"]).
Proof.
  split; [|split; [|split]]; vm_compute; reflexivity.
Qed.

(** Three located files: with [latest_only] the result is the maximum
    of the newest, 0.5, not the 0.75 of the older two. *)
Lemma latest_only_newest_witness :
  _find_event_files (fs Sample.both) ["runA"] =
    Ok [["runA"; Sample.ev1]; ["runA"; Sample.ev2]; ["runA"; Sample.ev3]] /\
  compute_max_for_run Sample.both ["runA"] "acc" true =
    ([], Ok (Some {| run := "runA"; max_value := 0.5; max_step := Some 20;
                     max_file := Some Sample.ev3 |})).
Proof.
  assert (E : _find_event_files (fs Sample.both) ["runA"] =
    Ok [["runA"; Sample.ev1]; ["runA"; Sample.ev2]; ["runA"; Sample.ev3]])
    by (vm_compute; reflexivity).
  split; [exact E|].
  destruct (latest_only_newest Sample.both ["runA"] "acc" _ E) as [H _].
  destruct H as (_ & _ & H & _); [cbn; lia|].
  rewrite H. vm_compute. reflexivity.
Defined.

(** A reader whose rows carry no value, on the three files of [runA]. *)
Lemma valueless_records_skipped_witness :
  exists out,
    compute_max_for_run_with Sample.valueless_reader Sample.tree ["runA"] "acc"
      false = (out, Ok None).
Proof.
  destruct (valueless_records_skipped Sample.valueless_reader Sample.tree
              ["runA"] "acc" false) as [_ H].
  apply (H [["runA"; Sample.ev1]; ["runA"; Sample.ev2]; ["runA"; Sample.ev3]]).
  - vm_compute. reflexivity.
  - intros f out rows available backend r E Hr.
    unfold Sample.valueless_reader in E. inversion E; subst.
    destruct Hr as [<-|[]]. reflexivity.
Defined.

(** * Part III: the rest of the two modules *)

(** ** The stable sort under a strict total order *)

Section SortedStrict.
Context {A : Type} (lt : A -> A -> bool).
Hypothesis lt_trans : forall a b c, lt a b = true -> lt b c = true -> lt a c = true.
Hypothesis lt_asym : forall a b, lt a b = true -> lt b a = false.

(** [a] may stand before [b]: [b] is not below [a]. *)
Let le (a b : A) : Prop := lt b a = false.

Hypothesis le_trans : forall a b c, le a b -> le b c -> le a c.

Lemma insert_by_le_sorted (x : A) (l : list A) :
StronglySorted le l -> StronglySorted le (insert_by lt x l).
Proof.
induction 1 as [|y l Hs IH Hy]; cbn.
- repeat constructor.
- destruct (lt y x) eqn:Hyx.
  + constructor; [exact IH|].
    rewrite insert_by_perm. constructor; [|exact Hy].
    unfold le. apply lt_asym, Hyx.
  + constructor; [constructor; assumption|].
    constructor; [exact Hyx|].
    eapply Forall_impl; [exact Hy|]. intros z Hz. eapply le_trans; eauto.
Qed.

Lemma sorted_by_le_sorted (l : list A) : StronglySorted le (sorted_by lt l).
Proof.
induction l as [|x l IH]; cbn; [constructor|].
apply insert_by_le_sorted, IH.
Qed.

(** Sorting a list that is in order leaves it as it is. *)
Lemma sorted_by_fixes_sorted (l : list A) :
StronglySorted le l -> sorted_by lt l = l.
Proof.
induction 1 as [|x l Hs IH Hx]; [reflexivity|].
cbn. fold (sorted_by lt l). rewrite IH.
destruct l as [|y l']; [reflexivity|]. cbn.
inversion Hx as [|? ? Hxy _]; subst. unfold le in Hxy. rewrite Hxy.
reflexivity.
Qed.

End SortedStrict.

(** ** The order of strings *)

Lemma ascii_compare_lt_trans (a b c : ascii) :
  Ascii.compare a b = Lt -> Ascii.compare b c = Lt -> Ascii.compare a c = Lt.
Proof.
  unfold Ascii.compare. rewrite !N.compare_lt_iff. lia.
Qed.

Lemma string_compare_refl (s : string) : String.compare s s = Eq.
Proof.
  induction s as [|a s IH]; cbn; [reflexivity|].
  unfold Ascii.compare. rewrite N.compare_refl. exact IH.
Qed.

Lemma string_compare_lt_trans (s1 s2 s3 : string) :
  String.compare s1 s2 = Lt -> String.compare s2 s3 = Lt ->
  String.compare s1 s3 = Lt.
Proof.
  revert s2 s3. induction s1 as [|a s1 IH]; intros [|b s2] [|c s3]; cbn;
    try congruence.
  destruct (Ascii.compare a b) eqn:Hab; try discriminate;
    destruct (Ascii.compare b c) eqn:Hbc; try discriminate.
  - apply Ascii.compare_eq_iff in Hab, Hbc. subst.
    unfold Ascii.compare. rewrite N.compare_refl. apply IH.
  - apply Ascii.compare_eq_iff in Hab. subst. rewrite Hbc. reflexivity.
  - apply Ascii.compare_eq_iff in Hbc. subst. rewrite Hab. reflexivity.
  - rewrite (ascii_compare_lt_trans _ _ _ Hab Hbc). reflexivity.
Qed.

Lemma string_ltb_lt (a b : string) :
  String.ltb a b = true <-> String.compare a b = Lt.
Proof.
  unfold String.ltb. destruct (String.compare a b); split; congruence.
Qed.

Lemma string_ltb_trans (a b c : string) :
  String.ltb a b = true -> String.ltb b c = true -> String.ltb a c = true.
Proof. rewrite !string_ltb_lt. apply string_compare_lt_trans. Qed.

Lemma string_ltb_asym (a b : string) :
  String.ltb a b = true -> String.ltb b a = false.
Proof.
  rewrite string_ltb_lt. intros H. unfold String.ltb.
  rewrite String.compare_antisym, H. reflexivity.
Qed.

Lemma string_ltb_irrefl (a : string) : String.ltb a a = false.
Proof. unfold String.ltb. rewrite string_compare_refl. reflexivity. Qed.

(** Not below: equal or above. *)
Lemma string_not_ltb (a b : string) :
  String.ltb b a = false -> a = b \/ String.ltb a b = true.
Proof.
  unfold String.ltb. rewrite (String.compare_antisym a b).
  destruct (String.compare b a) eqn:H; cbn; try discriminate; auto.
  apply String.compare_eq_iff in H. auto.
Qed.

Lemma string_nlt_trans (a b c : string) :
  String.ltb b a = false -> String.ltb c b = false -> String.ltb c a = false.
Proof.
  intros H1 H2. apply string_not_ltb in H1, H2.
  destruct H1 as [->|H1], H2 as [->|H2].
  - apply string_ltb_irrefl.
  - apply string_ltb_asym, H2.
  - apply string_ltb_asym, H1.
  - apply string_ltb_asym. eapply string_ltb_trans; eauto.
Qed.

(** A list without repeats that is in order is in strict order. *)
Lemma sorted_nodup_strict (l : list string) :
  StronglySorted (fun a b => String.ltb b a = false) l ->
  List.NoDup l ->
  StronglySorted (fun a b => String.ltb a b = true) l.
Proof.
  induction 1 as [|x l Hs IH Hx]; intros Hnd; [constructor|].
  inversion Hnd as [|? ? Hnin Hnd']; subst.
  constructor; [apply IH, Hnd'|].
  rewrite Forall_forall in Hx |- *. intros y Hy.
  destruct (string_not_ltb _ _ (Hx y Hy)) as [->|H]; [|exact H].
  exfalso. apply Hnin. apply list_elem_of_In. exact Hy.
Qed.

Lemma sorted_strings_strict (l : list string) :
  List.NoDup l ->
  StronglySorted (fun a b => String.ltb a b = true) (sorted_by String.ltb l).
Proof.
  intros Hnd. apply sorted_nodup_strict.
  - apply sorted_by_le_sorted.
    + apply string_ltb_asym.
    + intros a b c. apply string_nlt_trans.
  - eapply Permutation_NoDup; [symmetry; apply sorted_by_perm|exact Hnd].
Qed.

(** ** [split], [strip] and the parsing of [--tags] *)

Lemma split_chars_not_nil (sep : ascii) (cs : list ascii) :
  PyStr.split_chars sep cs <> [].
Proof.
  induction cs as [|c cs IH]; cbn; [discriminate|].
  destruct (Ascii.eqb c sep); [discriminate|].
  destruct (PyStr.split_chars sep cs); discriminate.
Qed.

(** One piece more than there are separators. *)
Lemma split_chars_length (sep : ascii) (cs : list ascii) :
  length (PyStr.split_chars sep cs) =
  S (length (List.filter (fun c => Ascii.eqb c sep) cs)).
Proof.
  induction cs as [|c cs IH]; cbn; [reflexivity|].
  destruct (Ascii.eqb c sep); cbn; [rewrite IH; reflexivity|].
  pose proof (split_chars_not_nil sep cs) as Hne.
  destruct (PyStr.split_chars sep cs); [congruence|exact IH].
Qed.

Lemma split_chars_no_sep (sep : ascii) (cs piece : list ascii) :
  In piece (PyStr.split_chars sep cs) -> ~ In sep piece.
Proof.
  revert piece. induction cs as [|c cs IH]; intros piece; cbn.
  - intros [<-|[]] [].
  - destruct (Ascii.eqb_spec c sep) as [->|Hne].
    + intros [<-|H]; [intros []|apply IH, H].
    + pose proof (split_chars_not_nil sep cs) as Hnn.
      destruct (PyStr.split_chars sep cs) as [|p ps]; [congruence|].
      intros [<-|H].
      * intros [E|E]; [congruence|]. apply (IH p); [left; reflexivity|exact E].
      * apply IH. right. exact H.
Qed.

Lemma split_chars_piece (sep : ascii) (p rest : list ascii) :
  ~ In sep p ->
  PyStr.split_chars sep (p ++ sep :: rest) = p :: PyStr.split_chars sep rest.
Proof.
  induction p as [|c p IH]; intros Hn; cbn.
  - rewrite Ascii.eqb_refl. reflexivity.
  - destruct (Ascii.eqb_spec c sep) as [->|Hne]; [exfalso; apply Hn; left; reflexivity|].
    rewrite IH by (intros H; apply Hn; right; exact H). reflexivity.
Qed.

Lemma split_chars_single (sep : ascii) (p : list ascii) :
  ~ In sep p -> PyStr.split_chars sep p = [p].
Proof.
  induction p as [|c p IH]; intros Hn; cbn; [reflexivity|].
  destruct (Ascii.eqb_spec c sep) as [->|Hne]; [exfalso; apply Hn; left; reflexivity|].
  rewrite IH by (intros H; apply Hn; right; exact H). reflexivity.
Qed.

Lemma split_join_chars (sep : ascii) (pieces : list (list ascii)) :
  pieces <> [] ->
  (forall p, In p pieces -> ~ In sep p) ->
  PyStr.split_chars sep (join_chars sep pieces) = pieces.
Proof.
  induction pieces as [|p rest IH]; intros Hne Hn; [congruence|].
  destruct rest as [|q rest].
  - cbn. apply split_chars_single, Hn. left; reflexivity.
  - change (join_chars sep (p :: q :: rest))
      with (p ++ sep :: join_chars sep (q :: rest)).
    rewrite split_chars_piece by (apply Hn; left; reflexivity).
    rewrite IH; [reflexivity|discriminate|].
    intros p' Hp'. apply Hn. right. exact Hp'.
Qed.

Lemma list_ascii_app (a b : string) :
  list_ascii_of_string (a +:+ b) = list_ascii_of_string a ++ list_ascii_of_string b.
Proof.
  induction a as [|c a IH]; [reflexivity|].
  change (list_ascii_of_string (String c a +:+ b))
    with (c :: list_ascii_of_string (a +:+ b)).
  rewrite IH. reflexivity.
Qed.

Lemma concat_join_chars (sep : ascii) (l : list string) :
  list_ascii_of_string (String.concat (String sep EmptyString) l) =
  join_chars sep (List.map list_ascii_of_string l).
Proof.
  induction l as [|x l IH]; [reflexivity|].
  destruct l as [|y l]; [reflexivity|].
  change (String.concat (String sep EmptyString) (x :: y :: l))
    with (x +:+ String sep EmptyString +:+ String.concat (String sep EmptyString) (y :: l)).
  rewrite !list_ascii_app, IH. reflexivity.
Qed.

(** *** White space at the two ends *)

Lemma lstrip_starts_clean (cs : list ascii) : starts_clean (PyStr.lstrip_chars cs).
Proof.
  induction cs as [|c cs IH]; cbn; [exact I|].
  destruct (PyStr.is_space c) eqn:E; [exact IH|exact E].
Qed.

Lemma lstrip_clean_id (cs : list ascii) :
  starts_clean cs -> PyStr.lstrip_chars cs = cs.
Proof. destruct cs as [|c cs]; cbn; [reflexivity|]. intros ->. reflexivity. Qed.

(** What [lstrip] leaves is the end of the text. *)
Lemma lstrip_suffix (cs : list ascii) :
  exists pre, cs = pre ++ PyStr.lstrip_chars cs /\
              Forall (fun c => PyStr.is_space c = true) pre.
Proof.
  induction cs as [|c cs IH]; cbn; [exists []; auto|].
  destruct (PyStr.is_space c) eqn:E.
  - destruct IH as (pre & Hpre & Hall). exists (c :: pre). split.
    + cbn. rewrite <- Hpre. reflexivity.
    + constructor; assumption.
  - exists []. auto.
Qed.

Lemma strip_chars_sublist (cs : list ascii) :
  exists pre post, cs = pre ++ PyStr.strip_chars cs ++ post.
Proof.
  unfold PyStr.strip_chars, PyStr.rstrip_chars.
  destruct (lstrip_suffix cs) as (pre & Hpre & _).
  destruct (lstrip_suffix (List.rev (PyStr.lstrip_chars cs))) as (post & Hpost & _).
  exists pre, (List.rev post).
  rewrite <- rev_app_distr, <- Hpost, rev_involutive. exact Hpre.
Qed.

Lemma starts_clean_rev_lstrip_rev (cs : list ascii) :
  starts_clean cs -> starts_clean (List.rev (PyStr.lstrip_chars (List.rev cs))).
Proof.
  intros Hc.
  destruct (lstrip_suffix (List.rev cs)) as (pre & Hpre & _).
  apply (f_equal (@List.rev ascii)) in Hpre.
  rewrite rev_involutive, rev_app_distr in Hpre.
  destruct (List.rev (PyStr.lstrip_chars (List.rev cs))) as [|c r]; [exact I|].
  rewrite Hpre in Hc. exact Hc.
Qed.

(** The stripped text has no white space at either end. *)
Lemma strip_chars_clean (cs : list ascii) :
  starts_clean (PyStr.strip_chars cs) /\
  starts_clean (List.rev (PyStr.strip_chars cs)).
Proof.
  unfold PyStr.strip_chars, PyStr.rstrip_chars. split.
  - apply starts_clean_rev_lstrip_rev, lstrip_starts_clean.
  - rewrite rev_involutive. apply lstrip_starts_clean.
Qed.

Lemma strip_chars_clean_id (cs : list ascii) :
  starts_clean cs -> starts_clean (List.rev cs) -> PyStr.strip_chars cs = cs.
Proof.
  intros H1 H2. unfold PyStr.strip_chars, PyStr.rstrip_chars.
  rewrite (lstrip_clean_id cs H1), (lstrip_clean_id _ H2).
  apply rev_involutive.
Qed.

Lemma has_char_false (c : ascii) (t : string) :
  PyStr.has_char c t = false <-> ~ In c (list_ascii_of_string t).
Proof.
  unfold PyStr.has_char. split.
  - intros H Hin. apply not_true_iff_false in H. apply H.
    apply existsb_exists. exists c. split; [exact Hin|apply Ascii.eqb_refl].
  - intros H. apply not_true_iff_false. intros Hex.
    apply existsb_exists in Hex. destruct Hex as (x & Hx & E).
    apply Ascii.eqb_eq in E. subst. exact (H Hx).
Qed.

Lemma strip_clean_id (t : string) : clean_tag t -> PyStr.strip t = t.
Proof.
  intros (_ & H1 & H2). unfold PyStr.strip.
  rewrite strip_chars_clean_id by assumption.
  apply string_of_list_ascii_of_string.
Qed.

(** X1. When [--tags] is given and not empty the parsed list is never
    empty, whatever the text (one tag more than it has commas), so the
    tag filter of the backends is always on; without the option, or
    with the empty text, there is no filter. *)
Theorem parse_tags_filter_on (c : ascii) (s : string) :
  parse_tags None = None /\
  parse_tags (Some EmptyString) = None /\
  exists t l,
    parse_tags (Some (String c s)) = Some (t :: l) /\
    truthy (parse_tags (Some (String c s))) = true /\
    length (t :: l) =
      S (length (List.filter (fun x => Ascii.eqb x ",")
                   (list_ascii_of_string (String c s)))).
Proof.
  split; [reflexivity|]. split; [reflexivity|].
  cbn [parse_tags]. unfold PyStr.split.
  pose proof (split_chars_not_nil "," (list_ascii_of_string (String c s))) as Hne.
  pose proof (split_chars_length "," (list_ascii_of_string (String c s))) as Hlen.
  destruct (PyStr.split_chars "," (list_ascii_of_string (String c s)))
    as [|p ps]; [congruence|].
  exists (PyStr.strip (string_of_list_ascii p)),
    (List.map PyStr.strip (List.map string_of_list_ascii ps)).
  split; [reflexivity|]. split; [reflexivity|].
  cbn [length] in *. rewrite !length_map. exact Hlen.
Qed.

(** X2. Every tag [parse_tags] returns has no comma in it and no white
    space at its two ends, and stripping it again changes nothing. *)
Theorem parse_tags_clean (arg : option string) (l : list string) (t : string) :
  parse_tags arg = Some l -> In t l ->
  clean_tag t /\ PyStr.strip t = t.
Proof.
  intros Hp Ht.
  assert (Hc : clean_tag t).
  { destruct arg as [[|c s]|]; try discriminate.
    cbn [parse_tags] in Hp. inversion Hp; subst l; clear Hp.
    apply List.in_map_iff in Ht. destruct Ht as (piece & <- & Hpiece).
    unfold PyStr.split in Hpiece.
    apply List.in_map_iff in Hpiece. destruct Hpiece as (cs & <- & Hcs).
    apply split_chars_no_sep in Hcs.
    unfold clean_tag, PyStr.strip.
    rewrite list_ascii_of_string_of_list_ascii.
    rewrite has_char_false, !list_ascii_of_string_of_list_ascii.
    split; [|apply strip_chars_clean].
    intros Hin. apply Hcs.
    destruct (strip_chars_sublist cs) as (pre & post & E).
    rewrite E. apply in_or_app. right. apply in_or_app. left. exact Hin. }
  split; [exact Hc|apply strip_clean_id, Hc].
Qed.

(** X3. Tags that have no comma and no white space at their ends come
    back from [parse_tags] as they were when they are written with
    commas between them (the list is not empty, and is not the one
    empty tag, whose text is the empty text). *)
Theorem parse_tags_round_trip (l : list string) :
  l <> [] -> l <> [EmptyString] ->
  (forall t, In t l -> clean_tag t) ->
  parse_tags (Some (String.concat "," l)) = Some l.
Proof.
  intros Hne Hne' Hclean.
  assert (Hsplit : PyStr.split "," (String.concat "," l) = l).
  { unfold PyStr.split. rewrite (concat_join_chars "," l).
    rewrite split_join_chars.
    - rewrite List.map_map. rewrite <- (List.map_id l) at 2.
      apply List.map_ext. apply string_of_list_ascii_of_string.
    - destruct l; [congruence|discriminate].
    - intros p Hp. apply List.in_map_iff in Hp. destruct Hp as (t & <- & Ht).
      apply has_char_false. apply (Hclean t Ht). }
  assert (Hstrip : List.map PyStr.strip l = l).
  { rewrite <- (List.map_id l) at 2. apply List.map_ext_in.
    intros t Ht. apply strip_clean_id, Hclean, Ht. }
  destruct (String.concat "," l) as [|c s] eqn:E.
  - exfalso. destruct l as [|x [|y l']]; [congruence| |].
    + cbn in E. subst x. congruence.
    + change (String.concat "," (x :: y :: l'))
        with (x +:+ "," +:+ String.concat "," (y :: l')) in E.
      apply (f_equal list_ascii_of_string) in E.
      rewrite !list_ascii_app in E. cbn in E.
      destruct (list_ascii_of_string x); discriminate.
  - cbn [parse_tags]. rewrite Hsplit, Hstrip. reflexivity.
Qed.

(** ** More on the two backends and [read_events] *)

Lemma wanted_none (t : string) : wanted None t = true.
Proof. reflexivity. Qed.

(** Filtering rows that come tag by tag is choosing the tags. *)
Lemma filter_flat_map_by_tag (g : string -> bool) (f : string -> list Row)
    (l : list string) :
  (forall t r, In r (f t) -> row_tag r = t) ->
  List.filter (fun r => g (row_tag r)) (List.flat_map f l) =
  List.flat_map f (List.filter g l).
Proof.
  intros Hf. induction l as [|t l IH]; cbn; [reflexivity|].
  rewrite List.filter_app, IH.
  destruct (g t) eqn:Hg; cbn.
  - f_equal. apply filter_all. intros r Hr. rewrite (Hf t r Hr). exact Hg.
  - rewrite filter_none; [reflexivity|].
    intros r Hr. rewrite (Hf t r Hr). exact Hg.
Qed.

Lemma event_accumulator_filter env p tags :
  _read_with_event_accumulator env p tags =
  match _read_with_event_accumulator env p None with
  | Ok (rows, available) =>
      Ok (List.filter (fun r => wanted tags (row_tag r)) rows, available)
  | Raise e => Raise e
  end.
Proof.
  unfold _read_with_event_accumulator.
  destruct (tensorboard_installed env); [|reflexivity].
  destruct (tensorboard_load env p) as [evs|msg]; [|reflexivity].
  cbn [truthy]. f_equal. f_equal.
  rewrite (filter_flat_map_by_tag (wanted tags)).
  - f_equal. unfold wanted. destruct (truthy tags); cbn [andb negb].
    + apply List.filter_ext. intros t. rewrite negb_involutive. reflexivity.
    + symmetry. apply filter_all. reflexivity.
  - intros t r Hr. apply List.in_map_iff in Hr. destruct Hr as (ev & <- & _).
    reflexivity.
Qed.

Lemma summary_iterator_filter env p tags :
  _read_with_tf_summary_iterator env p tags =
  match _read_with_tf_summary_iterator env p None with
  | Ok (rows, available) =>
      Ok (List.filter (fun r => wanted tags (row_tag r)) rows, available)
  | Raise e => Raise e
  end.
Proof.
  unfold _read_with_tf_summary_iterator.
  destruct (tensorflow_installed env); [|reflexivity].
  destruct (tensorflow_load env p) as [evs|msg]; [|reflexivity].
  rewrite !tf_scan_spec. f_equal. f_equal.
  rewrite (filter_all (passes None)) by reflexivity.
  induction (entries evs) as [|x l IH]; [reflexivity|].
  cbn [List.filter List.map].
  change (wanted tags (row_tag (tf_row x))) with (passes tags x).
  destruct (passes tags x); cbn [List.map]; rewrite IH; reflexivity.
Qed.

(** X4. The tag filter only selects: for every file and every filter,
    [read_events] gives the output, the tags, the backend and the error
    of the read without filter, and as rows those of that read whose
    tag is wanted, in the same order. *)
Theorem read_events_filter_selects env p tags :
  read_events env p tags =
  match read_events env p None with
  | (out, Ok (rows, available, backend)) =>
      (out,
       Ok (List.filter (fun r => wanted tags (row_tag r)) rows,
           available, backend))
  | (out, Raise e) => (out, Raise e)
  end.
Proof.
  unfold read_events.
  rewrite (event_accumulator_filter env p tags).
  destruct (_read_with_event_accumulator env p None) as [[rows av]|e];
    [reflexivity|].
  rewrite (summary_iterator_filter env p tags).
  destruct (_read_with_tf_summary_iterator env p None) as [[rows av]|e'];
    [reflexivity|].
  destruct (is_ImportError e'); reflexivity.
Qed.

(** X5. Whatever backend serves a file, the tags it reports do not
    repeat, and the tag of every row it returns is among them. *)
Theorem rows_tags_are_reported env p tags out rows available backend :
  read_events env p tags = (out, Ok (rows, available, backend)) ->
  List.NoDup available /\ forall r, In r rows -> In (row_tag r) available.
Proof.
  unfold read_events.
  destruct (_read_with_event_accumulator env p tags) as [[rs av]|e] eqn:EA.
  - intros E. inversion E; subst; clear E.
    revert EA. unfold _read_with_event_accumulator.
    destruct (tensorboard_installed env); [|discriminate].
    destruct (tensorboard_load env p) as [evs|msg]; [|discriminate].
    intros E. inversion E; subst; clear E.
    split; [apply ea_Tags_NoDup|].
    intros r Hr. apply List.in_flat_map in Hr. destruct Hr as (t & Ht & Hr).
    apply List.in_map_iff in Hr. destruct Hr as (ev & <- & _). cbn.
    destruct (truthy tags); [apply List.filter_In in Ht; tauto|exact Ht].
  - destruct (_read_with_tf_summary_iterator env p tags) as [[rs av]|e'] eqn:EB.
    + intros E. inversion E; subst; clear E.
      revert EB. unfold _read_with_tf_summary_iterator.
      destruct (tensorflow_installed env); [|discriminate].
      destruct (tensorflow_load env p) as [evs|msg]; [|discriminate].
      rewrite tf_scan_spec. intros E. inversion E; subst; clear E.
      split.
      * eapply Permutation_NoDup; [symmetry; apply sorted_by_perm|].
        apply NoDup_ListNoDup, NoDup_elements.
      * intros r Hr. apply List.in_map_iff in Hr. destruct Hr as (x & <- & Hx).
        apply List.filter_In in Hx. destruct Hx as [Hx _].
        eapply Permutation_in; [symmetry; apply sorted_by_perm|].
        apply list_elem_of_In, elem_of_elements, elem_of_list_to_set,
          list_elem_of_In.
        apply List.in_map_iff. exists x. auto.
    + destruct (is_ImportError e'); discriminate.
Qed.

(** X6. A file in which every entry is a scalar, decoded alike by both
    libraries, with no session start and with steps that never go back
    (so that tensorboard's accumulator purges nothing), reads the same
    whichever single library is installed: [read_events] succeeds in
    both worlds, with the same rows up to order and the same set of
    tags. *)
Theorem read_events_library_independent env1 env2 p tags evs :
  tensorboard_installed env1 = true ->
  tensorboard_load env1 p = Events evs ->
  tensorboard_installed env2 = false ->
  tensorflow_installed env2 = true ->
  tensorflow_load env2 p = Events evs ->
  scalars_only evs ->
  steady evs = true ->
  exists rows1 available1 rows2 available2,
    read_events env1 p tags = ([], Ok (rows1, available1, backend_A)) /\
    read_events env2 p tags = ([], Ok (rows2, available2, backend_B)) /\
    Permutation rows1 rows2 /\
    (forall t, In t available1 <-> In t available2).
Proof.
  intros HI1 HL1 HI2 HT2 HL2 Hs Hst.
  destruct (_read_with_event_accumulator env1 p tags) as [[rows1 av1]|e] eqn:EA;
    [|unfold _read_with_event_accumulator in EA; rewrite HI1, HL1 in EA;
      discriminate].
  destruct (_read_with_tf_summary_iterator env2 p tags) as [[rows2 av2]|e] eqn:EB;
    [|unfold _read_with_tf_summary_iterator in EB; rewrite HT2, HL2 in EB;
      destruct (tf_scan tags evs); discriminate].
  exists rows1, av1, rows2, av2.
  split; [unfold read_events; rewrite EA; reflexivity|].
  split.
  { unfold read_events, _read_with_event_accumulator. rewrite HI2.
    cbn. rewrite EB. reflexivity. }
  (* one world with both libraries and the same decoding *)
  set (env := {| fs := fs env1; tensorboard_installed := true;
                 tensorflow_installed := true;
                 tensorboard_load := tensorboard_load env1;
                 tensorflow_load := tensorflow_load env2 |}).
  apply (backends_agree_on_scalars env p tags evs rows1 av1 rows2 av2);
    try assumption.
  - unfold _read_with_event_accumulator in *. cbn. rewrite HI1 in EA. exact EA.
  - unfold _read_with_tf_summary_iterator in *. cbn. rewrite HT2 in EB. exact EB.
Qed.

(** X7. For a directory whose path has none of the characters [*], [?]
    and [[] the locator returns the regular files directly inside it
    whose name starts with [events.out.tfevents.], and nothing else:
    each once, oldest first; nothing from a subdirectory, and no
    directory. *)
Theorem locator_exact_on_plain_directory fs (p : path) :
  Forall (fun c => Glob.has_magic c = false) p ->
  isdir fs p = true ->
  exists files,
    _find_event_files fs p = Ok files /\
    StronglySorted (mtime_le fs) files /\
    NoDup files /\
    (forall q, In q files <->
       exists name m,
         q = path_join p name /\
         String.prefix "events.out.tfevents." name = true /\
         lookup_node fs q = Some (File m)) /\
    (forall q, In q files -> length q = S (length p) /\ isdir fs q = false).
Proof.
  intros Hm Hd.
  destruct (find_event_files_dir fs p Hm Hd) as (files & E & Hs & Hn & Hin).
  exists files. repeat (split; [assumption|]).
  intros q Hq. apply Hin in Hq. destruct Hq as (name & m & -> & _ & Hl).
  split.
  - unfold path_join. rewrite length_app. cbn. lia.
  - unfold isdir. rewrite Hl. reflexivity.
Qed.

(** ** [compute_max_for_run]: what can and what cannot make it fail *)


Lemma records_of_readable reader tag files :
  records_of reader tag (List.filter (readable reader tag) files) =
  records_of reader tag files.
Proof.
  unfold records_of.
  induction files as [|f files IH]; [reflexivity|].
  cbn [List.filter List.flat_map]. unfold readable at 1.
  destruct (reader f (Some [tag])) as [o [res|e]] eqn:E.
  - cbn [List.flat_map]. rewrite E, IH. reflexivity.
  - rewrite IH. reflexivity.
Qed.

Lemma scan_files_warns reader tag files st f o e :
  In f files -> reader f (Some [tag]) = (o, Raise e) ->
  In (warn_skip f e) (fst (scan_files reader tag files st)).
Proof.
  revert st. induction files as [|g files IH]; intros st Hin Hr; [destruct Hin|].
  cbn [scan_files].
  destruct Hin as [->|Hin].
  - rewrite Hr. destruct (scan_files reader tag files st) as [o' fin]. cbn.
    apply in_or_app. right. left. reflexivity.
  - destruct (reader g (Some [tag])) as [og [[[rows av] b]|eg]].
    + specialize (IH (List.fold_left (scan_row (basename g)) rows st) Hin Hr).
      destruct (scan_files reader tag files _) as [o' fin]. cbn in *.
      apply in_or_app. right. exact IH.
    + specialize (IH st Hin Hr).
      destruct (scan_files reader tag files st) as [o' fin]. cbn in *.
      apply in_or_app. right. right. exact IH.
Qed.

(** X9. Files that cannot be read change nothing in the summary: the
    aggregate over a list of files is the aggregate over those of them
    that can be read, and each file that cannot has its warning among
    the lines printed. *)
Theorem unreadable_files_only_warn reader run_dir tag files :
  snd (aggregate reader run_dir tag files) =
  snd (aggregate reader run_dir tag (List.filter (readable reader tag) files)) /\
  forall f o e,
    In f files -> reader f (Some [tag]) = (o, Raise e) ->
    In (warn_skip f e) (fst (aggregate reader run_dir tag files)).
Proof.
  split.
  - rewrite !aggregate_records, records_of_readable. reflexivity.
  - intros f o e Hin Hr. unfold aggregate.
    pose proof (scan_files_warns reader tag files init_state f o e Hin Hr) as H.
    destruct (scan_files reader tag files init_state) as [out st]. cbn in H.
    destruct (st_max_value st); exact H.
Qed.

(** ** read_results.py: the read loop of [main] and what follows it *)

Lemma main_loop_ok env tags files st out st' :
  main_loop env tags files st = (out, Ok st') ->
  (forall f, In f files -> reads_ok env tags f = true) /\
  all_rows st' = all_rows st ++ List.flat_map (stamped_rows env tags) files /\
  union_tags st' =
    union_tags st ∪ list_to_set (List.flat_map (available_of env tags) files) /\
  used_backend st' =
    match used_backend st with
    | Some b => Some b
    | None =>
        match files with
        | [] => None
        | f :: _ => backend_of env tags f
        end
    end.
Proof.
  revert st out st'. induction files as [|f files IH]; intros st out st' H.
  - cbn in H. inversion H; subst. split; [intros f []|].
    cbn. rewrite app_nil_r, union_empty_r_L.
    destruct (used_backend st'); auto.
  - cbn [main_loop] in H.
    unfold stamped_rows, available_of, backend_of, reads_ok.
    cbn [List.flat_map].
    destruct (read_events env f tags) as [o [[[rows av] b]|e]] eqn:E;
      [|discriminate].
    match type of H with
    | (let '(_, _) := main_loop env tags files ?s in _) = _ =>
        destruct (main_loop env tags files s) as [o' res] eqn:EL
    end.
    inversion H; subst; clear H.
    destruct (IH _ _ _ EL) as (Hall & Hrows & Htags & Hb).
    cbn [all_rows union_tags used_backend] in *.
    split.
    { intros g [<-|Hg]; [rewrite E; reflexivity|apply Hall, Hg]. }
    split; [rewrite Hrows, <- app_assoc; reflexivity|].
    split.
    { rewrite Htags, list_to_set_app_L, union_assoc_L. reflexivity. }
    rewrite Hb. destruct (used_backend st); reflexivity.
Qed.

Lemma main_loop_all_readable env tags files st :
  (forall f, In f files -> reads_ok env tags f = true) ->
  exists out st', main_loop env tags files st = (out, Ok st').
Proof.
  revert st. induction files as [|f files IH]; intros st H; [cbn; eauto|].
  cbn [main_loop].
  pose proof (H f (or_introl Logic.eq_refl)) as Hf. unfold reads_ok in Hf.
  destruct (read_events env f tags) as [o [[[rows av] b]|e]]; [|discriminate].
  edestruct IH as (o' & st' & E); [intros g Hg; apply H; right; exact Hg|].
  rewrite E. eauto.
Qed.

Lemma main_loop_raises_runtime env tags files st out e :
  main_loop env tags files st = (out, Raise e) -> exn_cls e = RuntimeError.
Proof.
  revert st out. induction files as [|f files IH]; intros st out H;
    [discriminate|].
  cbn [main_loop] in H.
  destruct (read_events env f tags) as [o [[[rows av] b]|e']] eqn:E.
  - match type of H with
    | (let '(_, _) := main_loop env tags files ?s in _) = _ =>
        destruct (main_loop env tags files s) as [o' res] eqn:EL
    end.
    inversion H; subst. eapply IH, EL.
  - inversion H; subst. apply read_events_raises in E. tauto.
Qed.

Lemma main_located env p tags latest files :
  _find_event_files (fs env) p = Ok files -> files <> [] ->
  main env p tags latest =
  main_loop env tags (selected latest files)
    {| all_rows := []; union_tags := ∅; used_backend := None |}.
Proof.
  intros E Hne. unfold main. rewrite E.
  destruct files as [|f files]; [congruence|]. reflexivity.
Qed.

Lemma selected_not_nil latest files : files <> [] -> selected latest files <> [].
Proof.
  unfold selected. destruct (latest && Nat.ltb 1 (length files)); [discriminate|auto].
Qed.

(** X10. The multi-file read of [main] is all or nothing.  When every
    file it goes on to read can be read, it returns the rows of the
    files one after the other in the order of the files, each row with
    the base name of its file, and the union of the tags the files
    report; when one of them cannot, it raises a [RuntimeError] and
    returns no row. *)
Theorem main_reads_all_or_nothing env p tags latest files :
  _find_event_files (fs env) p = Ok files -> files <> [] ->
  ((forall f, In f (selected latest files) -> reads_ok env tags f = true) ->
   exists out st,
     main env p tags latest = (out, Ok st) /\
     all_rows st =
       List.flat_map (stamped_rows env tags) (selected latest files) /\
     forall t, t ∈ union_tags st <->
       exists f, In f (selected latest files) /\ In t (available_of env tags f)) /\
  ((exists f, In f (selected latest files) /\ reads_ok env tags f = false) ->
   exists out e,
     main env p tags latest = (out, Raise e) /\ exn_cls e = RuntimeError).
Proof.
  intros E Hne. rewrite (main_located _ _ _ _ _ E Hne). split.
  - intros Hall.
    destruct (main_loop_all_readable env tags (selected latest files)
                {| all_rows := []; union_tags := ∅; used_backend := None |} Hall)
      as (out & st & EL).
    exists out, st. split; [exact EL|].
    destruct (main_loop_ok _ _ _ _ _ _ EL) as (_ & Hrows & Htags & _).
    cbn in Hrows, Htags. split; [exact Hrows|].
    intros t. rewrite Htags, union_empty_l_L, elem_of_list_to_set,
      list_elem_of_In, List.in_flat_map. reflexivity.
  - intros (f & Hf & Hbad).
    destruct (main_loop env tags (selected latest files) _) as [out [st|e]] eqn:EL.
    + apply main_loop_ok in EL. destruct EL as (Hall & _).
      rewrite (Hall f Hf) in Hbad. discriminate.
    + exists out, e. split; [reflexivity|].
      eapply main_loop_raises_runtime, EL.
Qed.

Lemma backend_of_reads_ok env tags f :
  reads_ok env tags f = true ->
  backend_of env tags f = Some backend_A \/
  backend_of env tags f = Some backend_B.
Proof.
  unfold reads_ok, backend_of, read_events.
  destruct (_read_with_event_accumulator env f tags) as [[rs av]|e1];
    [left; reflexivity|].
  destruct (_read_with_tf_summary_iterator env f tags) as [[rs av]|e2];
    [right; reflexivity|].
  destruct (is_ImportError e2); discriminate.
Qed.

(** X11. The backend [main] names in its report is the one that served
    the first file it read, whatever served the files after it. *)
Theorem main_reports_first_backend env p tags latest out st :
  main env p tags latest = (out, Ok st) ->
  exists files f rest,
    _find_event_files (fs env) p = Ok files /\
    selected latest files = f :: rest /\
    backend_of env tags f = used_backend st /\
    (used_backend st = Some backend_A \/ used_backend st = Some backend_B).
Proof.
  intros H.
  destruct (_find_event_files (fs env) p) as [files|e] eqn:E;
    [|unfold main in H; rewrite E in H; discriminate].
  destruct files as [|f0 files0] eqn:Hf;
    [unfold main in H; rewrite E in H; discriminate|].
  rewrite <- Hf in *.
  assert (Hne : files <> []) by (rewrite Hf; discriminate).
  rewrite (main_located _ _ _ _ _ E Hne) in H.
  destruct (main_loop_ok _ _ _ _ _ _ H) as (Hall & _ & _ & Hb).
  cbn [used_backend] in Hb.
  pose proof (selected_not_nil latest files Hne) as Hsel.
  destruct (selected latest files) as [|f rest] eqn:Es; [congruence|].
  exists files, f, rest. split; [reflexivity|]. split; [exact Es|].
  split; [symmetry; exact Hb|].
  rewrite Hb. apply backend_of_reads_ok.
  apply Hall. left. reflexivity.
Qed.

Lemma main_loop_raise_unreadable env tags files st out e :
  main_loop env tags files st = (out, Raise e) ->
  exists f, In f files /\ reads_ok env tags f = false.
Proof.
  revert st out. induction files as [|f files IH]; intros st out H;
    [discriminate|].
  cbn [main_loop] in H.
  destruct (read_events env f tags) as [o [[[rows av] b]|e']] eqn:E.
  - match type of H with
    | (let '(_, _) := main_loop env tags files ?s in _) = _ =>
        destruct (main_loop env tags files s) as [o' res] eqn:EL
    end.
    inversion H; subst.
    destruct (IH _ _ EL) as (g & Hg & Hbad).
    exists g. split; [right; exact Hg|exact Hbad].
  - exists f. split; [left; reflexivity|].
    unfold reads_ok. rewrite E. reflexivity.
Qed.

(** X12. Up to the end of its read loop [main] can fail in three ways
    only: with [FileNotFoundError] and nothing printed when the path is
    neither a directory nor a file;
    with exit status 1 after the line [No event files found.] when the
    path is a directory in which the locator finds no file; with
    [RuntimeError] when one of the files it goes on to read can be read
    by neither backend. *)
Theorem main_failure_modes env p tags latest out e :
  main env p tags latest = (out, Raise e) ->
  (isdir (fs env) p = false /\ isfile (fs env) p = false /\
   exn_cls e = FileNotFoundError /\ out = []) \/
  (isdir (fs env) p = true /\ _find_event_files (fs env) p = Ok [] /\
   e = Exn SystemExit "1" /\ out = [Stdout "No event files found."]) \/
  (exn_cls e = RuntimeError /\
   exists files f,
     _find_event_files (fs env) p = Ok files /\
     In f (selected latest files) /\ reads_ok env tags f = false).
Proof.
  intros H.
  destruct (_find_event_files (fs env) p) as [files|e'] eqn:E.
  - destruct files as [|f0 files0] eqn:Hf.
    + right; left. unfold main in H. rewrite E in H. inversion H; subst.
      split; [|auto].
      unfold _find_event_files in E. destruct (isdir (fs env) p); [reflexivity|].
      destruct (isfile (fs env) p); discriminate.
    + right; right. rewrite <- Hf in *.
      assert (Hne : files <> []) by (rewrite Hf; discriminate).
      rewrite (main_located _ _ _ _ _ E Hne) in H.
      split; [eapply main_loop_raises_runtime, H|].
      destruct (main_loop_raise_unreadable _ _ _ _ _ _ H) as (f & Hin & Hbad).
      exists files, f. auto.
  - left. unfold main in H. rewrite E in H. inversion H; subst.
    apply find_event_files_raises in E. tauto.
Qed.

Lemma elements_NoDup (s : gset string) : List.NoDup (elements s).
Proof. apply NoDup_ListNoDup, NoDup_elements. Qed.

Lemma tag_lines_sorted (s : gset string) :
  exists ts,
    tag_lines s = List.map (fun t => Text ("  - " +:+ t)) ts /\
    StronglySorted (fun a b => String.ltb a b = true) ts /\
    forall t, In t ts <-> t ∈ s.
Proof.
  exists (sorted_by String.ltb (elements s)).
  split; [reflexivity|]. split.
  - apply sorted_strings_strict, elements_NoDup.
  - intros t. rewrite <- elem_of_elements, list_elem_of_In.
    split; apply Permutation_in;
      [apply sorted_by_perm|symmetry; apply sorted_by_perm].
Qed.

(** X13. With [--list-tags] on a path whose files can all be read,
    [main] prints, after the warnings of the reads, the heading, one
    line per tag and the line naming the backend, and returns; the tags
    are in strictly ascending order, so each appears once, and they are
    exactly the tags that some file read reports, whatever [--tags]
    selects among the rows. *)
Theorem list_tags_sorted_union env args files :
  _find_event_files (fs env) (arg_path args) = Ok files -> files <> [] ->
  (forall f, In f (selected (arg_latest args) files) ->
             reads_ok env (parse_tags (arg_tags args)) f = true) ->
  arg_list_tags args = true ->
  exists warnings ts b,
    main_without_pandas env args =
      (warnings
         ++ Text "Available scalar tags:"
         :: List.map (fun t => Text ("  - " +:+ t)) ts
         ++ [Text ("(Parsed by " +:+ b +:+ ")")],
       Ok tt) /\
    (b = backend_A \/ b = backend_B) /\
    StronglySorted (fun a b => String.ltb a b = true) ts /\
    forall t, In t ts <->
      exists f, In f (selected (arg_latest args) files) /\
                In t (available_of env (parse_tags (arg_tags args)) f).
Proof.
  intros E Hne Hall Hlist.
  unfold main_without_pandas. rewrite (main_located _ _ _ _ _ E Hne).
  destruct (main_loop_all_readable env (parse_tags (arg_tags args))
              (selected (arg_latest args) files)
              {| all_rows := []; union_tags := ∅; used_backend := None |} Hall)
    as (out & st & EL).
  rewrite EL.
  destruct (main_loop_ok _ _ _ _ _ _ EL) as (_ & _ & Htags & Hb).
  cbn [union_tags used_backend] in Htags, Hb.
  pose proof (selected_not_nil (arg_latest args) files Hne) as Hsel.
  destruct (selected (arg_latest args) files) as [|f rest] eqn:Es; [congruence|].
  assert (Hbk : used_backend st = Some backend_A \/
                used_backend st = Some backend_B).
  { rewrite Hb. apply backend_of_reads_ok, Hall. left. reflexivity. }
  destruct (tag_lines_sorted (union_tags st)) as (ts & Hts & Hsorted & Hin).
  unfold main_report. rewrite Hlist, Hts.
  exists (List.map report_of out), ts.
  destruct Hbk as [Hk|Hk]; rewrite Hk; cbn [backend_text];
    [exists backend_A|exists backend_B];
    (split; [reflexivity|]); (split; [auto|]); (split; [exact Hsorted|]);
    intros t; rewrite Hin, Htags, union_empty_l_L, elem_of_list_to_set,
      list_elem_of_In, List.in_flat_map; reflexivity.
Qed.

(** *** The preview *)

Lemma setdefault_append_absent (F : string -> list Row) ts r :
  ~ In (row_tag r) ts ->
  setdefault_append (List.map (fun t => (t, F t)) ts) r =
  List.map (fun t => (t, F t)) ts ++ [(row_tag r, [r])].
Proof.
  induction ts as [|t ts IH]; intros Hn; [reflexivity|].
  cbn [List.map setdefault_append app].
  destruct (String.eqb_spec t (row_tag r)) as [->|Hne].
  - exfalso. apply Hn. left. reflexivity.
  - rewrite IH; [reflexivity|]. intros Hin. apply Hn. right. exact Hin.
Qed.

Lemma setdefault_append_present (F : string -> list Row) ts r :
  List.NoDup ts -> In (row_tag r) ts ->
  setdefault_append (List.map (fun t => (t, F t)) ts) r =
  List.map (fun t => (t, if String.eqb (row_tag r) t then F t ++ [r] else F t)) ts.
Proof.
  induction ts as [|t ts IH]; intros Hnd Hin; [destruct Hin|].
  inversion Hnd as [|? ? Hnin Hnd']; subst.
  cbn [List.map setdefault_append].
  rewrite (String.eqb_sym (row_tag r) t).
  destruct (String.eqb_spec t (row_tag r)) as [Heq|Hne].
  - f_equal. apply List.map_ext_in. intros u Hu.
    destruct (String.eqb_spec (row_tag r) u) as [<-|_]; [|reflexivity].
    exfalso. apply Hnin. rewrite Heq. exact Hu.
  - f_equal. apply IH; [exact Hnd'|]. destruct Hin as [->|Hin]; [congruence|exact Hin].
Qed.

Lemma group_rows_step (rows : list Row) (r : Row) :
  setdefault_append
    (List.map (fun t => (t, List.filter (fun r => String.eqb (row_tag r) t) rows))
       (first_seen (List.map row_tag rows))) r =
  List.map (fun t => (t, List.filter (fun r => String.eqb (row_tag r) t) (rows ++ [r])))
    (first_seen (List.map row_tag (rows ++ [r]))).
Proof.
  rewrite List.map_app. cbn [List.map]. rewrite first_seen_snoc.
  destruct (existsb (String.eqb (row_tag r)) (List.map row_tag rows)) eqn:Ex.
  - apply existsb_eqb_In in Ex. rewrite app_nil_r.
    rewrite setdefault_append_present;
      [|apply first_seen_NoDup|apply first_seen_In, Ex].
    apply List.map_ext. intros t. rewrite List.filter_app. cbn [List.filter].
    destruct (String.eqb (row_tag r) t); [reflexivity|].
    rewrite app_nil_r. reflexivity.
  - assert (Hn : ~ In (row_tag r) (List.map row_tag rows)).
    { intros Hin. apply existsb_eqb_In in Hin. congruence. }
    rewrite setdefault_append_absent; [|rewrite first_seen_In; exact Hn].
    rewrite List.map_app. cbn [List.map]. f_equal.
    + apply List.map_ext_in. intros t Ht. rewrite List.filter_app.
      cbn [List.filter].
      destruct (String.eqb_spec (row_tag r) t) as [<-|_];
        [|rewrite app_nil_r; reflexivity].
      exfalso. apply Hn. apply first_seen_In, Ht.
    + rewrite List.filter_app. cbn [List.filter]. rewrite String.eqb_refl.
      rewrite filter_none; [reflexivity|].
      intros x Hx. apply String.eqb_neq. intros Heq. apply Hn.
      rewrite <- Heq. apply List.in_map, Hx.
Qed.

Lemma group_rows_from (acc rows : list Row) :
  List.fold_left setdefault_append rows
    (List.map (fun t => (t, List.filter (fun r => String.eqb (row_tag r) t) acc))
       (first_seen (List.map row_tag acc))) =
  List.map (fun t => (t, List.filter (fun r => String.eqb (row_tag r) t) (acc ++ rows)))
    (first_seen (List.map row_tag (acc ++ rows))).
Proof.
  revert acc. induction rows as [|r rows IH]; intros acc.
  - rewrite app_nil_r. reflexivity.
  - cbn [List.fold_left]. rewrite group_rows_step, IH, <- app_assoc.
    reflexivity.
Qed.

(** X14. The preview groups the rows by tag the way a dictionary filled
    in one pass does: one group per tag that occurs, the groups in the
    order in which the tags first occur among the rows, and in each
    group all the rows of the tag, and only those, in the order they
    were read. *)
Theorem group_rows_by_first_appearance (rows : list Row) :
  group_rows rows =
    List.map (fun t => (t, List.filter (fun r => String.eqb (row_tag r) t) rows))
      (first_seen (List.map row_tag rows)) /\
  List.NoDup (List.map fst (group_rows rows)) /\
  (forall t, In t (List.map fst (group_rows rows)) <->
             exists r, In r rows /\ row_tag r = t) /\
  forall t g, In (t, g) (group_rows rows) ->
    g <> [] /\ forall r, In r g <-> In r rows /\ row_tag r = t.
Proof.
  assert (E : group_rows rows =
    List.map (fun t => (t, List.filter (fun r => String.eqb (row_tag r) t) rows))
      (first_seen (List.map row_tag rows))).
  { unfold group_rows. exact (group_rows_from [] rows). }
  split; [exact E|]. rewrite E, List.map_map. cbn [fst]. rewrite List.map_id.
  split; [apply first_seen_NoDup|]. split.
  - intros t. rewrite first_seen_In, List.in_map_iff.
    split; intros (r & H1 & H2); exists r; auto.
  - intros t g Hin. apply List.in_map_iff in Hin.
    destruct Hin as (t' & Heq & Ht'). inversion Heq; subst; clear Heq.
    apply first_seen_In, List.in_map_iff in Ht'.
    destruct Ht' as (r0 & Hr0 & Hin0). split.
    + intros Hnil.
      assert (Hr : In r0 (List.filter (fun r => String.eqb (row_tag r) t) rows)).
      { apply List.filter_In. split; [exact Hin0|]. apply String.eqb_eq, Hr0. }
      rewrite Hnil in Hr. destruct Hr.
    + intros r. rewrite List.filter_In, String.eqb_eq. reflexivity.
Qed.

Lemma last5_split {A : Type} (l : list A) :
  l = List.firstn (length l - 5) l ++ last5 l /\
  length (last5 l) = Nat.min 5 (length l).
Proof.
  unfold last5. split; [symmetry; apply List.firstn_skipn|].
  rewrite List.length_skipn. lia.
Qed.

(** X15. For each tag the preview prints the heading and then at most
    five rows: the last five of the rows of the tag put in ascending
    order of step, a missing step counting as 0.  So
    the rows printed are in ascending order of step, no row left out has
    a step greater than a row printed, and with five rows or fewer all
    of them are printed. *)
Theorem preview_shows_last_five_by_step (g : string * list Row) :
  exists hidden shown,
    preview_group g =
      Text (nl +:+ "== " +:+ fst g +:+ " ==") :: List.map RowLine shown /\
    length shown = Nat.min 5 (length (snd g)) /\
    Permutation (snd g) (hidden ++ shown) /\
    StronglySorted (fun a b => step_or_0 a <= step_or_0 b) shown /\
    forall h s, In h hidden -> In s shown -> step_or_0 h <= step_or_0 s.
Proof.
  pose proof (last5_split (sort_by_step (snd g))) as [Hsplit Hlen].
  pose proof (sorted_by_sorted step_or_0 (snd g)) as Hsorted.
  fold (sort_by_step (snd g)) in Hsorted.
  set (l := sort_by_step (snd g)) in *.
  exists (List.firstn (length l - 5) l), (last5 l).
  split; [reflexivity|]. split.
  { rewrite Hlen. unfold l, sort_by_step.
    rewrite (Permutation_length (sorted_by_perm _ (snd g))). reflexivity. }
  split.
  { rewrite <- Hsplit. symmetry. apply sorted_by_perm. }
  rewrite Hsplit in Hsorted. clear Hsplit Hlen.
  induction (List.firstn (length l - 5) l) as [|h hs IH].
  - split; [exact Hsorted|]. intros h s [].
  - cbn [app] in Hsorted. inversion Hsorted as [|? ? Hs Hall]; subst.
    destruct (IH Hs) as [IH1 IH2]. split; [exact IH1|].
    intros h' s [<-|Hh] Hin; [|apply IH2; assumption].
    rewrite Forall_forall in Hall. apply Hall.
    apply list_elem_of_In, List.in_or_app. right. exact Hin.
Qed.

Lemma selected_latest (files : list path) :
  files <> [] -> selected true files = [List.last files []].
Proof.
  unfold selected. destruct files as [|f [|g files]]; [congruence| |];
    reflexivity.
Qed.

(** X16. With [--latest], [main] reads one file only, the last of the
    located files, whose modification time is the greatest: the result,
    the rows, the tags, the backend and the output are those of the read
    of that file alone, so an older file that cannot be read does not
    make it fail. *)
Theorem main_latest_reads_newest_only env p tags files :
  _find_event_files (fs env) p = Ok files -> files <> [] ->
  let newest := List.last files [] in
  In newest files /\
  (forall f, In f files -> getmtime (fs env) f <= getmtime (fs env) newest) /\
  match read_events env newest tags with
  | (o, Raise e) => main env p tags true = (o, Raise e)
  | (o, Ok (rows, available, backend)) =>
      exists st,
        main env p tags true = (o, Ok st) /\
        all_rows st = List.map (set_file (basename newest)) rows /\
        (forall t, t ∈ union_tags st <-> In t available) /\
        used_backend st = Some backend
  end.
Proof.
  intros E Hne newest. split; [apply last_In, Hne|].
  split; [apply (find_event_files_newest _ _ _ E)|].
  rewrite (main_located _ _ _ _ _ E Hne), (selected_latest _ Hne).
  fold newest. cbn [main_loop].
  destruct (read_events env newest tags) as [o [[[rows av] b]|e]];
    [|reflexivity].
  eexists. rewrite app_nil_r. split; [reflexivity|].
  cbn [all_rows union_tags used_backend app]. split; [reflexivity|].
  split; [|reflexivity].
  intros t. rewrite union_empty_l_L, elem_of_list_to_set, list_elem_of_In.
  reflexivity.
Qed.

(** ** collect_max_tag.py: [main] *)

Lemma compute_max_ok_on_dir env sd tag latest :
  isdir (fs env) sd = true ->
  exists o res, compute_max_for_run env sd tag latest = (o, Ok res).
Proof.
  intros Hd. unfold compute_max_for_run, compute_max_for_run_with.
  destruct (_find_event_files (fs env) sd) as [files|e] eqn:E.
  - destruct files as [|f files]; [eauto|].
    destruct (aggregate _ _ _ _) as [o res]. eauto.
  - apply find_event_files_raises in E. destruct E as (Hd' & _). congruence.
Qed.

Lemma compute_max_run env sd tag latest o r :
  compute_max_for_run env sd tag latest = (o, Ok (Some r)) ->
  run r = basename sd.
Proof.
  unfold compute_max_for_run, compute_max_for_run_with.
  destruct (_find_event_files (fs env) sd) as [files|e]; [|discriminate].
  destruct files as [|f files]; [discriminate|].
  match goal with
  | |- (let '(_, _) := aggregate ?rd ?d ?t ?fl in _) = _ -> _ =>
      pose proof (aggregate_records rd d t fl) as Ha;
      destruct (aggregate rd d t fl) as [o' res]
  end.
  cbn [snd] in Ha. intros H. injection H as _ Hres. rewrite Hres in Ha.
  cbv zeta in Ha.
  destruct (st_max_value _); [|discriminate].
  injection Ha as Hr. subst r. reflexivity.
Qed.

Lemma basename_join (root : path) (d : string) : basename (path_join root d) = d.
Proof. unfold basename, path_join. apply List.last_last. Qed.

Lemma subdirs_isdir fs root sd :
  In sd (Collect.subdirs fs root) -> isdir fs sd = true.
Proof.
  unfold Collect.subdirs. intros H. apply List.in_map_iff in H.
  destruct H as (d & <- & Hd). apply List.filter_In in Hd. tauto.
Qed.

Lemma summaries_In env tag latest dirs r :
  In r (Collect.summaries env tag latest dirs) <->
  exists sd o, In sd dirs /\ compute_max_for_run env sd tag latest = (o, Ok (Some r)).
Proof.
  unfold Collect.summaries. rewrite List.in_flat_map. split.
  - intros (sd & Hsd & Hin). exists sd.
    destruct (compute_max_for_run env sd tag latest) as [o [[r'|]|e]];
      try destruct Hin as [<-|[]]; try destruct Hin. eauto.
  - intros (sd & o & Hsd & E). exists sd. split; [exact Hsd|].
    rewrite E. left. reflexivity.
Qed.

Lemma run_loop_closed env tag latest dirs acc :
  (forall sd, In sd dirs -> isdir (fs env) sd = true) ->
  exists o,
    Collect.run_loop env tag latest dirs acc =
      (o, Ok (acc ++ Collect.summaries env tag latest dirs)) /\
    forall sd o', In sd dirs ->
      compute_max_for_run env sd tag latest = (o', Ok None) ->
      In (Collect.info_line tag sd) o.
Proof.
  revert acc. induction dirs as [|sd dirs IH]; intros acc Hd.
  - exists []. cbn. rewrite app_nil_r. split; [reflexivity|]. intros ? ? [].
  - destruct (compute_max_ok_on_dir env sd tag latest) as (o & res & E);
      [apply Hd; left; reflexivity|].
    assert (Hd' : forall sd, In sd dirs -> isdir (fs env) sd = true)
      by (intros; apply Hd; right; assumption).
    cbn [Collect.run_loop Collect.summaries List.flat_map].
    fold (Collect.summaries env tag latest dirs). rewrite E.
    destruct res as [r|].
    + destruct (IH (acc ++ [r]) Hd') as (o2 & E2 & Hinfo). rewrite E2.
      exists (o ++ o2). rewrite <- app_assoc. split; [reflexivity|].
      intros sd' o' [<-|Hin] E'; [congruence|].
      apply in_or_app. right. eapply Hinfo; eassumption.
    + destruct (IH acc Hd') as (o2 & E2 & Hinfo). rewrite E2.
      exists (o ++ Collect.info_line tag sd :: o2). split; [reflexivity|].
      intros sd' o' [<-|Hin] E'.
      * apply in_or_app. right. left. reflexivity.
      * apply in_or_app. right. right. eapply Hinfo; eassumption.
Qed.

Lemma listdir_names_NoDup fs root : List.NoDup (List.map fst (listdir fs root)).
Proof.
  unfold listdir. destruct (lookup_node fs root) as [[m|entries]|];
    try constructor.
  apply NoDup_ListNoDup. apply (NoDup_fst_map_to_list entries).
Qed.

Lemma StronglySorted_filter {A : Type} (R : A -> A -> Prop) (f : A -> bool) l :
  StronglySorted R l -> StronglySorted R (List.filter f l).
Proof.
  induction 1 as [|x l Hs IH Hx]; cbn; [constructor|].
  destruct (f x); [|exact IH].
  constructor; [exact IH|].
  rewrite Forall_forall in Hx |- *. intros y Hy. apply Hx.
  apply list_elem_of_In. apply list_elem_of_In in Hy.
  apply List.filter_In in Hy. tauto.
Qed.

Lemma summaries_sorted env tag latest root names :
  StronglySorted (fun a b => String.ltb a b = true) names ->
  StronglySorted (fun a b => String.ltb (run a) (run b) = true)
    (Collect.summaries env tag latest (List.map (path_join root) names)).
Proof.
  induction 1 as [|d names Hs IH Hd]; [constructor|].
  cbn [List.map Collect.summaries List.flat_map].
  fold (Collect.summaries env tag latest (List.map (path_join root) names)).
  destruct (compute_max_for_run env (path_join root d) tag latest)
    as [o [[r|]|e]] eqn:E; cbn [app]; try exact IH.
  constructor; [exact IH|].
  apply compute_max_run in E. rewrite basename_join in E.
  rewrite Forall_forall in Hd. rewrite Forall_forall. intros r' Hr'.
  apply list_elem_of_In, summaries_In in Hr'.
  destruct Hr' as (sd & o' & Hsd & E').
  apply List.in_map_iff in Hsd. destruct Hsd as (d' & <- & Hd').
  apply compute_max_run in E'. rewrite basename_join in E'.
  rewrite E, E'. apply Hd, list_elem_of_In, Hd'.
Qed.

Lemma subdirs_summaries_sorted env tag latest root :
  StronglySorted (fun a b => String.ltb (run a) (run b) = true)
    (Collect.summaries env tag latest (Collect.subdirs (fs env) root)).
Proof.
  unfold Collect.subdirs. apply summaries_sorted, StronglySorted_filter.
  apply sorted_strings_strict, listdir_names_NoDup.
Qed.

Lemma StronglySorted_weaken {A : Type} (R S : A -> A -> Prop) l :
  (forall a b, R a b -> S a b) -> StronglySorted R l -> StronglySorted S l.
Proof.
  intros HRS. induction 1 as [|x l Hs IH Hx]; constructor; [exact IH|].
  eapply Forall_impl; [exact Hx|]. intros y. apply HRS.
Qed.

Lemma sort_by_run_sorted (l : list RunSummary) :
  StronglySorted (fun a b => String.ltb (run a) (run b) = true) l ->
  Collect.sort_by_run l = l.
Proof.
  intros H. unfold Collect.sort_by_run. apply sorted_by_fixes_sorted.
  eapply StronglySorted_weaken; [|exact H].
  intros a b Hab. apply string_ltb_asym, Hab.
Qed.

Lemma isdir_join_listed fs root d :
  isdir fs (path_join root d) = true -> In d (List.map fst (listdir fs root)).
Proof.
  unfold isdir, path_join, listdir. rewrite lookup_node_app.
  destruct (lookup_node fs root) as [[m|entries]|]; try discriminate.
  cbn [lookup_node]. destruct (entries !! d) as [child|] eqn:E; [|discriminate].
  intros _. apply List.in_map_iff. exists (d, child). split; [reflexivity|].
  apply list_elem_of_In, elem_of_map_to_list, E.
Qed.

Lemma subdirs_In fs root sd :
  In sd (Collect.subdirs fs root) <->
  exists d, sd = path_join root d /\ isdir fs sd = true.
Proof.
  unfold Collect.subdirs. rewrite List.in_map_iff. split.
  - intros (d & <- & Hd). apply List.filter_In in Hd. exists d. tauto.
  - intros (d & -> & Hd). exists d. split; [reflexivity|].
    apply List.filter_In. split; [|exact Hd].
    eapply Permutation_in; [symmetry; apply sorted_by_perm|].
    apply isdir_join_listed, Hd.
Qed.

Lemma written_out (o : list output) : Collect.written (List.map Collect.Out o) = [].
Proof. induction o as [|x o IH]; [reflexivity|exact IH]. Qed.

Lemma written_app (a b : list Collect.effect) :
  Collect.written (a ++ b) = Collect.written a ++ Collect.written b.
Proof. unfold Collect.written. apply List.flat_map_app. Qed.

Lemma save_cases host p rs eff res :
  StronglySorted (fun a b => String.ltb (run a) (run b) = true) rs ->
  Collect.save host p rs = (eff, res) ->
  (res = Ok tt /\ Collect.written eff = [(p, rs)]) \/
  (exists msg,
     res = Raise (Exn OtherException msg) /\
     Collect.open_error host p = Some msg /\
     Collect.written eff = [] /\
     (Collect.pandas_installed host = false \/
      exists text, Collect.pandas_error host p = Some text)).
Proof.
  intros Hs. unfold Collect.save, Collect.save_with_csv.
  destruct (Collect.pandas_installed host) eqn:Hp.
  - destruct (Collect.pandas_error host p) as [text|] eqn:He.
    + destruct (Collect.open_error host p) as [msg|] eqn:Ho;
        intros H; inversion H; subst; [right|left; auto].
      exists msg. eauto 8.
    + intros H. inversion H; subst. left. split; [reflexivity|].
      rewrite (sort_by_run_sorted _ Hs). reflexivity.
  - destruct (Collect.open_error host p) as [msg|] eqn:Ho;
      intros H; inversion H; subst; [right|left; auto].
    exists msg. auto 8.
Qed.

Lemma collect_main_dir env host args :
  isdir (fs env) (Collect.logs_root args) = true ->
  exists o,
    (forall sd o', In sd (Collect.subdirs (fs env) (Collect.logs_root args)) ->
       compute_max_for_run env sd (Collect.tag args) (Collect.latest args) =
         (o', Ok None) ->
       In (Collect.info_line (Collect.tag args) sd) o) /\
    Collect.main env host args =
      match Collect.summaries env (Collect.tag args) (Collect.latest args)
              (Collect.subdirs (fs env) (Collect.logs_root args)) with
      | [] =>
          (List.map Collect.Out o
             ++ [Collect.Out
                   (Stdout ("No data found for tag '" +:+ Collect.tag args
                            +:+ "' under: " +:+ path_str (Collect.logs_root args)))],
           Ok tt)
      | r :: results =>
          let '(eff, res) :=
            Collect.save host (Collect.out_path args) (r :: results) in
          (List.map Collect.Out o ++ eff, res)
      end.
Proof.
  intros Hd. unfold Collect.main. rewrite Hd.
  destruct (run_loop_closed env (Collect.tag args) (Collect.latest args)
              (Collect.subdirs (fs env) (Collect.logs_root args)) [])
    as (o & E & Hinfo); [intros sd; apply subdirs_isdir|].
  exists o. split; [exact Hinfo|]. rewrite E. reflexivity.
Qed.

(** X17. The collector can fail in two ways only: with [SystemExit] and
    nothing done when [logs_root] is not a directory; and, when pandas
    is missing or fails, with the error of opening the output file.
    In both nothing is written.  Nothing inside the run directories,
    an unreadable or missing event file included, makes it fail. *)
Theorem collector_failure_modes env host args eff e :
  Collect.main env host args = (eff, Raise e) ->
  (isdir (fs env) (Collect.logs_root args) = false /\
   eff = [] /\ exn_cls e = SystemExit) \/
  (isdir (fs env) (Collect.logs_root args) = true /\
   Collect.open_error host (Collect.out_path args) = Some (exn_msg e) /\
   exn_cls e = OtherException /\
   (Collect.pandas_installed host = false \/
    exists text, Collect.pandas_error host (Collect.out_path args) = Some text) /\
   Collect.written eff = []).
Proof.
  intros H.
  destruct (isdir (fs env) (Collect.logs_root args)) eqn:Hd.
  - right. split; [reflexivity|].
    destruct (collect_main_dir env host args Hd) as (o & _ & E).
    rewrite E in H. clear E.
    pose proof (subdirs_summaries_sorted env (Collect.tag args)
                  (Collect.latest args) (Collect.logs_root args)) as Hs.
    destruct (Collect.summaries _ _ _ _) as [|r rs]; [discriminate|].
    destruct (Collect.save host (Collect.out_path args) (r :: rs))
      as [eff' res] eqn:Es.
    inversion H; subst; clear H.
    destruct (save_cases _ _ _ _ _ Hs Es) as [[Hres _]|(msg & Hres & Ho & Hw & Hp)];
      [discriminate|].
    inversion Hres; subst. cbn [exn_msg exn_cls].
    rewrite written_app, written_out, Hw. auto.
  - left. unfold Collect.main in H. rewrite Hd in H.
    inversion H; subst. auto.
Qed.

Lemma main_written env host args eff res :
  Collect.main env host args = (eff, res) ->
  Collect.written eff =
    match res,
          Collect.summaries env (Collect.tag args) (Collect.latest args)
            (Collect.subdirs (fs env) (Collect.logs_root args)) with
    | Ok _, r :: rs => [(Collect.out_path args, r :: rs)]
    | _, _ => []
    end.
Proof.
  intros H.
  destruct (isdir (fs env) (Collect.logs_root args)) eqn:Hd.
  - destruct (collect_main_dir env host args Hd) as (o & _ & E).
    rewrite E in H. clear E.
    pose proof (subdirs_summaries_sorted env (Collect.tag args)
                  (Collect.latest args) (Collect.logs_root args)) as Hs.
    destruct (Collect.summaries _ _ _ _) as [|r rs].
    + inversion H; subst. rewrite written_app, written_out. reflexivity.
    + destruct (Collect.save host (Collect.out_path args) (r :: rs))
        as [eff' res'] eqn:Es.
      inversion H; subst; clear H.
      rewrite written_app, written_out.
      destruct (save_cases _ _ _ _ _ Hs Es)
        as [[-> Hw]|(msg & -> & _ & Hw & _)]; exact Hw.
  - unfold Collect.main in H. rewrite Hd in H. inversion H; subst.
    reflexivity.
Qed.

(** X18. When the collector succeeds it has written at most one file,
    the output path, and none when no run has data; the records written
    are the summaries [compute_max_for_run] gives for the subdirectories
    of [logs_root], in the order of the sorted directory names, and so
    the same on a host where pandas writes them and on one where the
    csv module does. *)
Theorem collector_writes_summaries env host host' args eff eff' :
  Collect.main env host args = (eff, Ok tt) ->
  Collect.main env host' args = (eff', Ok tt) ->
  Collect.written eff = Collect.written eff' /\
  Collect.written eff =
    match Collect.summaries env (Collect.tag args) (Collect.latest args)
            (Collect.subdirs (fs env) (Collect.logs_root args)) with
    | [] => []
    | r :: rs => [(Collect.out_path args, r :: rs)]
    end.
Proof.
  intros H H'.
  apply main_written in H. apply main_written in H'.
  rewrite H, H'. split; [reflexivity|].
  destruct (Collect.summaries _ _ _ _); reflexivity.
Qed.

Lemma written_In eff p records :
  In (p, records) (Collect.written eff) <->
  exists w, In (Collect.Wrote w p records) eff.
Proof.
  unfold Collect.written. rewrite List.in_flat_map. split.
  - intros ([o|w p' rs] & Hin & H); [destruct H|].
    destruct H as [H|[]]. inversion H; subst. eauto.
  - intros (w & Hin). eexists. split; [exact Hin|]. left. reflexivity.
Qed.

(** X19. The records of the file the collector writes are in strictly
    ascending order of run name, so no run appears twice; they are the
    summaries of exactly those entries of [logs_root] that are
    directories and for which [compute_max_for_run] returns a summary,
    each run named after its directory. *)
Theorem collector_records_sorted_by_run env host args eff res w p records :
  Collect.main env host args = (eff, res) ->
  In (Collect.Wrote w p records) eff ->
  p = Collect.out_path args /\
  StronglySorted (fun a b => String.ltb (run a) (run b) = true) records /\
  forall r, In r records <->
    isdir (fs env) (path_join (Collect.logs_root args) (run r)) = true /\
    exists o,
      compute_max_for_run env (path_join (Collect.logs_root args) (run r))
        (Collect.tag args) (Collect.latest args) = (o, Ok (Some r)).
Proof.
  intros H Hin.
  assert (Hw : In (p, records) (Collect.written eff))
    by (apply written_In; eauto).
  pose proof (main_written _ _ _ _ _ H) as E.
  rewrite E in Hw. clear E.
  pose proof (subdirs_summaries_sorted env (Collect.tag args)
                (Collect.latest args) (Collect.logs_root args)) as Hs.
  pose proof (summaries_In env (Collect.tag args) (Collect.latest args)
                (Collect.subdirs (fs env) (Collect.logs_root args))) as HIn.
  destruct res as [u|e]; [|destruct (Collect.summaries _ _ _ _); destruct Hw].
  destruct (Collect.summaries _ _ _ _) as [|r0 rs]; [destruct Hw|].
  destruct Hw as [Hw|[]]. inversion Hw; subst; clear Hw.
  split; [reflexivity|]. split; [exact Hs|].
  intros r. rewrite HIn. split.
  - intros (sd & o & Hsd & Ecm).
    apply subdirs_In in Hsd. destruct Hsd as (d & -> & Hd).
    pose proof (compute_max_run _ _ _ _ _ _ Ecm) as Hrun.
    rewrite basename_join in Hrun. rewrite Hrun. eauto.
  - intros (Hd & o & Ecm). exists (path_join (Collect.logs_root args) (run r)), o.
    split; [|exact Ecm]. apply subdirs_In. eauto.
Qed.

Lemma isdir_parent fs root d :
  isdir fs (path_join root d) = true -> isdir fs root = true.
Proof.
  unfold isdir, path_join. rewrite lookup_node_app.
  destruct (lookup_node fs root) as [[m|entries]|]; try discriminate.
  reflexivity.
Qed.

(** X20. The collector accounts for every directory directly inside
    [logs_root]: for a run without data it prints the line that says
    so, and the summary of a run with data is among the records of the
    file it writes when it succeeds. *)
Theorem collector_accounts_for_every_run env host args eff res d :
  Collect.main env host args = (eff, res) ->
  isdir (fs env) (path_join (Collect.logs_root args) d) = true ->
  (exists o,
     compute_max_for_run env (path_join (Collect.logs_root args) d)
       (Collect.tag args) (Collect.latest args) = (o, Ok None) /\
     In (Collect.Out
           (Collect.info_line (Collect.tag args)
              (path_join (Collect.logs_root args) d))) eff) \/
  (exists o r,
     compute_max_for_run env (path_join (Collect.logs_root args) d)
       (Collect.tag args) (Collect.latest args) = (o, Ok (Some r)) /\
     run r = d /\
     (res = Ok tt ->
      exists w records,
        In (Collect.Wrote w (Collect.out_path args) records) eff /\
        In r records)).
Proof.
  intros H Hd.
  pose proof (main_written _ _ _ _ _ H) as Hw.
  pose proof (isdir_parent _ _ _ Hd) as Hroot.
  destruct (collect_main_dir env host args Hroot) as (o & Hinfo & E).
  assert (Hsd : In (path_join (Collect.logs_root args) d)
                  (Collect.subdirs (fs env) (Collect.logs_root args)))
    by (apply subdirs_In; eauto).
  destruct (compute_max_ok_on_dir env _ (Collect.tag args) (Collect.latest args) Hd)
    as (o1 & r1 & Ecm).
  destruct r1 as [r|].
  - right. exists o1, r. split; [exact Ecm|]. split.
    { rewrite (compute_max_run _ _ _ _ _ _ Ecm). apply basename_join. }
    intros ->.
    assert (Hr : In r (Collect.summaries env (Collect.tag args)
                         (Collect.latest args)
                         (Collect.subdirs (fs env) (Collect.logs_root args))))
      by (apply summaries_In; eauto).
    destruct (Collect.summaries _ _ _ _) as [|r0 rs]; [destruct Hr|].
    assert (Hin : In (Collect.out_path args, r0 :: rs) (Collect.written eff))
      by (rewrite Hw; left; reflexivity).
    apply written_In in Hin. destruct Hin as (w & Hin). eauto.
  - left. exists o1. split; [exact Ecm|].
    rewrite E in H.
    assert (Ho : In (Collect.Out (Collect.info_line (Collect.tag args)
                       (path_join (Collect.logs_root args) d)))
                    (List.map Collect.Out o)).
    { apply List.in_map. eapply Hinfo; eassumption. }
    destruct (Collect.summaries _ _ _ _) as [|r0 rs].
    + inversion H; subst. apply in_or_app. left. exact Ho.
    + destruct (Collect.save _ _ _) as [eff' res']. inversion H; subst.
      apply in_or_app. left. exact Ho.
Qed.

Lemma replace_has_no_old (old new : ascii) (cs : list ascii) :
  old <> new ->
  existsb (Ascii.eqb old)
    (List.map (fun c => if Ascii.eqb c old then new else c) cs) = false.
Proof.
  intros Hne. induction cs as [|c cs IH]; [reflexivity|].
  cbn [List.map existsb]. rewrite IH, orb_false_r.
  destruct (Ascii.eqb_spec c old) as [->|Hc]; apply Ascii.eqb_neq; congruence.
Qed.

Lemma string_length_list (s : string) :
  String.length s = length (list_ascii_of_string s).
Proof. induction s as [|c s IH]; [reflexivity|]. cbn. rewrite IH. reflexivity. Qed.

(** X21. Without [--out] the file is written directly inside
    [logs_root]: its name is [max_], the tag with every slash made an
    underscore, then [.csv]; the name holds no slash whatever the tag,
    and the tag is copied unchanged when it has none. *)
Theorem default_output_inside_logs_root (args : Collect.Args) :
  Collect.out args = None ->
  exists name,
    Collect.out_path args = path_join (Collect.logs_root args) name /\
    name = "max_" +:+ Collect.safe_tag (Collect.tag args) +:+ ".csv" /\
    PyStr.has_char "/" name = false /\
    String.length (Collect.safe_tag (Collect.tag args)) =
      String.length (Collect.tag args) /\
    (PyStr.has_char "/" (Collect.tag args) = false ->
     Collect.safe_tag (Collect.tag args) = Collect.tag args).
Proof.
  intros Ho. exists (Collect.default_name (Collect.tag args)).
  split; [unfold Collect.out_path; rewrite Ho; reflexivity|].
  split; [reflexivity|].
  unfold Collect.default_name, Collect.safe_tag, PyStr.has_char, PyStr.replace.
  split; [|split].
  - rewrite !list_ascii_app, !existsb_app, list_ascii_of_string_of_list_ascii.
    rewrite replace_has_no_old by discriminate. reflexivity.
  - rewrite !string_length_list, list_ascii_of_string_of_list_ascii.
    apply List.length_map.
  - intros Hno.
    rewrite <- (string_of_list_ascii_of_string (Collect.tag args)) at 2.
    f_equal. induction (list_ascii_of_string (Collect.tag args)) as [|c cs IH];
      [reflexivity|].
    cbn [existsb] in Hno. apply orb_false_elim in Hno. destruct Hno as [Hc Hcs].
    cbn [List.map]. rewrite (IH Hcs). rewrite Ascii.eqb_sym in Hc. rewrite Hc.
    reflexivity.
Qed.

(** ** The properties at the sample worlds *)

(** The tags of [--tags " acc , loss"]. *)
Lemma parse_tags_clean_witness :
  parse_tags (Some " acc , loss") = Some ["acc"; "loss"] /\
  clean_tag "loss" /\ PyStr.strip "loss" = "loss".
Proof.
  assert (E : parse_tags (Some " acc , loss") = Some ["acc"; "loss"])
    by (vm_compute; reflexivity).
  split; [exact E|].
  apply (parse_tags_clean _ _ "loss" E). right. left. reflexivity.
Defined.

(** Two clean tags joined by a comma. *)
Lemma parse_tags_round_trip_witness :
  parse_tags (Some "acc,loss") = Some ["acc"; "loss"].
Proof.
  apply (parse_tags_round_trip ["acc"; "loss"]); [discriminate|discriminate|].
  intros t [<-|[<-|[]]]; vm_compute; auto.
Defined.

(** The second file of [runA], read by tensorflow. *)
Lemma rows_tags_are_reported_witness :
  read_events Sample.tf_only ["runA"; Sample.ev2] None =
    ([], Ok ([sample_row "acc" 12 0.75; sample_row "loss" 12 2],
             ["acc"; "loss"], backend_B)) /\
  List.NoDup ["acc"; "loss"] /\
  forall r, In r [sample_row "acc" 12 0.75; sample_row "loss" 12 2] ->
            In (row_tag r) ["acc"; "loss"].
Proof.
  assert (E : read_events Sample.tf_only ["runA"; Sample.ev2] None =
    ([], Ok ([sample_row "acc" 12 0.75; sample_row "loss" 12 2],
             ["acc"; "loss"], backend_B)))
    by (vm_compute; reflexivity).
  split; [exact E|].
  exact (rows_tags_are_reported _ _ _ _ _ _ _ E).
Defined.

(** The second file of [runA] on a host with tensorboard only and on
    one with tensorflow only. *)
Lemma read_events_library_independent_witness :
  exists rows1 available1 rows2 available2,
    read_events Sample.tb_only ["runA"; Sample.ev2] None =
      ([], Ok (rows1, available1, backend_A)) /\
    read_events Sample.tf_only ["runA"; Sample.ev2] None =
      ([], Ok (rows2, available2, backend_B)) /\
    Permutation rows1 rows2 /\
    (forall t, In t available1 <-> In t available2).
Proof.
  apply (read_events_library_independent Sample.tb_only Sample.tf_only
           ["runA"; Sample.ev2] None
           [Sample.scalar 12 "acc" 0.75; Sample.scalar 12 "loss" 2]);
    try (vm_compute; reflexivity).
  intros e v [<-|[<-|[]]] [<-|[]]; eexists; reflexivity.
Defined.

(** The directory [runA]: three event files and a file of notes. *)
Lemma locator_exact_on_plain_directory_witness :
  exists files,
    _find_event_files Sample.tree ["runA"] = Ok files /\
    forall q, In q files -> length q = 2%nat /\ isdir Sample.tree q = false.
Proof.
  destruct (locator_exact_on_plain_directory Sample.tree ["runA"])
    as (files & E & _ & _ & _ & Hq).
  - repeat constructor.
  - vm_compute. reflexivity.
  - exists files. split; [exact E|exact Hq].
Defined.

(** The directory [runC]: the first file cannot be read, the second
    can. *)
Lemma unreadable_files_only_warn_witness :
  snd (aggregate (read_events Sample.both) ["runC"] "acc"
         [["runC"; Sample.ev1]; ["runC"; Sample.ev2]]) =
  snd (aggregate (read_events Sample.both) ["runC"] "acc"
         [["runC"; Sample.ev2]]) /\
  In (warn_skip ["runC"; Sample.ev1]
        (Exn RuntimeError (msg_parse (Exn OtherException "truncated record"))))
     (fst (aggregate (read_events Sample.both) ["runC"] "acc"
             [["runC"; Sample.ev1]; ["runC"; Sample.ev2]])).
Proof.
  destruct (unreadable_files_only_warn (read_events Sample.both) ["runC"] "acc"
              [["runC"; Sample.ev1]; ["runC"; Sample.ev2]]) as [H1 H2].
  split; [exact H1|].
  eapply H2; [left; reflexivity|vm_compute; reflexivity].
Defined.

(** [runA], whose three files can be read, and [runC], whose first file
    cannot. *)
Lemma main_reads_all_or_nothing_witness :
  (exists out st,
     main Sample.both ["runA"] None false = (out, Ok st) /\
     all_rows st =
       List.flat_map (stamped_rows Sample.both None) Sample2.runA_files) /\
  (exists out e,
     main Sample.both ["runC"] None false = (out, Raise e) /\
     exn_cls e = RuntimeError).
Proof.
  split.
  - destruct (main_reads_all_or_nothing Sample.both ["runA"] None false
                Sample2.runA_files) as [H _];
      [vm_compute; reflexivity|discriminate|].
    destruct H as (out & st & Hm & Hrows & _).
    + intros f [<-|[<-|[<-|[]]]]; vm_compute; reflexivity.
    + exists out, st. split; [exact Hm|exact Hrows].
  - destruct (main_reads_all_or_nothing Sample.both ["runC"] None false
                [["runC"; Sample.ev1]; ["runC"; Sample.ev2]]) as [_ H];
      [vm_compute; reflexivity|discriminate|].
    apply H. exists ["runC"; Sample.ev1].
    split; [left; reflexivity|vm_compute; reflexivity].
Defined.

(** [runC] where tensorflow reads the first file and tensorboard the
    second: the backend reported is tensorflow. *)
Lemma main_reports_first_backend_witness :
  exists out st,
    main Sample2.mixed ["runC"] None false = (out, Ok st) /\
    used_backend st = Some backend_B /\
    backend_of Sample2.mixed None ["runC"; Sample.ev2] = Some backend_A.
Proof.
  destruct (main Sample2.mixed ["runC"] None false) as [out [st|e]] eqn:E;
    [|vm_compute in E; discriminate].
  destruct (main_reports_first_backend _ _ _ _ _ _ E)
    as (files & f & rest & Hl & Hs & Hb & _).
  exists out, st. split; [reflexivity|]. split; [|vm_compute; reflexivity].
  rewrite <- Hb. vm_compute in Hl. injection Hl as <-.
  vm_compute in Hs. injection Hs as <- _. vm_compute. reflexivity.
Defined.

(** A directory without event file. *)
Lemma main_failure_modes_witness :
  main Sample.both ["empty"] None false =
    ([Stdout "No event files found."], Raise (Exn SystemExit "1")) /\
  isdir Sample.tree ["empty"] = true /\
  _find_event_files Sample.tree ["empty"] = Ok [].
Proof.
  assert (E : main Sample.both ["empty"] None false =
    ([Stdout "No event files found."], Raise (Exn SystemExit "1")))
    by (vm_compute; reflexivity).
  split; [exact E|].
  destruct (main_failure_modes _ _ _ _ _ _ E)
    as [(_ & _ & Hc & _)|[(Hd & Hl & _)|(Hc & _)]];
    [discriminate Hc|split; [exact Hd|exact Hl]|discriminate Hc].
Defined.

(** [read_results.py runA --tags acc --list-tags]: the listing has the
    tag [loss] although the filter selects [acc]. *)
Lemma list_tags_sorted_union_witness :
  exists warnings ts b,
    main_without_pandas Sample.both Sample2.list_args =
      (warnings
         ++ Text "Available scalar tags:"
         :: List.map (fun t => Text ("  - " +:+ t)) ts
         ++ [Text ("(Parsed by " +:+ b +:+ ")")],
       Ok tt) /\
    StronglySorted (fun a b => String.ltb a b = true) ts /\
    In "loss" ts.
Proof.
  destruct (list_tags_sorted_union Sample.both Sample2.list_args
              Sample2.runA_files)
    as (warnings & ts & b & Hm & _ & Hs & Hin).
  - vm_compute. reflexivity.
  - discriminate.
  - intros f [<-|[<-|[<-|[]]]]; vm_compute; reflexivity.
  - reflexivity.
  - exists warnings, ts, b. split; [exact Hm|]. split; [exact Hs|].
    apply Hin. exists ["runA"; Sample.ev2].
    split; [right; left; reflexivity|vm_compute; auto].
Defined.

(** The sample runs on a host without pandas where the output file
    cannot be opened. *)
Lemma collector_failure_modes_witness :
  exists eff e,
    Collect.main Sample.both Sample2.read_only Sample2.args_acc = (eff, Raise e) /\
    exn_cls e = OtherException /\ Collect.written eff = [].
Proof.
  destruct (Collect.main Sample.both Sample2.read_only Sample2.args_acc)
    as [eff [u|e]] eqn:E; [vm_compute in E; discriminate|].
  destruct (collector_failure_modes _ _ _ _ _ E)
    as [(Hd & _)|(_ & _ & Hc & _ & Hw)]; [vm_compute in Hd; discriminate|].
  exists eff, e. auto.
Defined.

(** The sample runs on a host without pandas and on one with it: one
    file, three records. *)
Lemma collector_writes_summaries_witness :
  exists eff eff' records,
    Collect.main Sample.both Sample2.no_pandas Sample2.args_acc = (eff, Ok tt) /\
    Collect.main Sample.both Sample2.with_pandas Sample2.args_acc = (eff', Ok tt) /\
    Collect.written eff = Collect.written eff' /\
    Collect.written eff = [(["max_acc.csv"], records)] /\
    List.map run records = ["runA"; "runC"; "runN"].
Proof.
  destruct (Collect.main Sample.both Sample2.no_pandas Sample2.args_acc)
    as [eff [[]|e]] eqn:E; [|vm_compute in E; discriminate].
  destruct (Collect.main Sample.both Sample2.with_pandas Sample2.args_acc)
    as [eff' [[]|e]] eqn:E'; [|vm_compute in E'; discriminate].
  destruct (collector_writes_summaries _ _ _ _ _ _ E E') as [H1 H2].
  exists eff, eff'. eexists. split; [reflexivity|]. split; [reflexivity|].
  split; [exact H1|].
  split; [rewrite H2; vm_compute; reflexivity|vm_compute; reflexivity].
Defined.

(** The sample runs on a host with pandas. *)
Lemma collector_records_sorted_by_run_witness :
  exists eff res records,
    Collect.main Sample.both Sample2.with_pandas Sample2.args_acc = (eff, res) /\
    In (Collect.Wrote Collect.ByPandas ["max_acc.csv"] records) eff /\
    StronglySorted (fun a b => String.ltb (run a) (run b) = true) records.
Proof.
  destruct (Collect.main Sample.both Sample2.with_pandas Sample2.args_acc)
    as [eff res] eqn:E.
  pose proof E as E'. vm_compute in E'. injection E' as Heff _.
  match type of Heff with
  | context [Collect.Wrote ?w ?p ?r] =>
      assert (Hin : In (Collect.Wrote w p r) eff)
        by (rewrite <- Heff; repeat (first [left; reflexivity|right]))
  end.
  destruct (collector_records_sorted_by_run _ _ _ _ _ _ _ _ E Hin)
    as (_ & Hs & _).
  eexists eff, res, _. split; [reflexivity|]. split; [exact Hin|exact Hs].
Defined.

(** [runB] has no record of tag [acc]. *)
Lemma collector_accounts_for_every_run_witness :
  exists eff res,
    Collect.main Sample.both Sample2.with_pandas Sample2.args_acc = (eff, res) /\
    In (Collect.Out (Collect.info_line "acc" ["runB"])) eff.
Proof.
  destruct (Collect.main Sample.both Sample2.with_pandas Sample2.args_acc)
    as [eff res] eqn:E.
  assert (Hd : isdir (fs Sample.both)
                 (path_join (Collect.logs_root Sample2.args_acc) "runB") = true)
    by (vm_compute; reflexivity).
  destruct (collector_accounts_for_every_run _ _ _ _ _ "runB" E Hd)
    as [(o & _ & Hin)|(o & r & Ecm & _)];
    [|vm_compute in Ecm; discriminate].
  exists eff, res. split; [reflexivity|exact Hin].
Defined.

(** The tag [valid/acc] under [logs]. *)
Lemma default_output_inside_logs_root_witness :
  Collect.out_path Sample2.args_slash = ["logs"; "max_valid_acc.csv"].
Proof.
  destruct (default_output_inside_logs_root Sample2.args_slash)
    as (name & Hp & Hn & _); [reflexivity|].
  rewrite Hp, Hn. reflexivity.
Defined.

(** [runC] with [--latest]: the older file, which cannot be read, is
    not read. *)
Lemma main_latest_reads_newest_only_witness :
  exists st,
    main Sample.both ["runC"] None true = ([], Ok st) /\
    all_rows st =
      List.map (set_file Sample.ev2) [sample_row "acc" 3 0.75].
Proof.
  destruct (main_latest_reads_newest_only Sample.both ["runC"] None
              [["runC"; Sample.ev1]; ["runC"; Sample.ev2]])
    as (_ & _ & H); [vm_compute; reflexivity|discriminate|].
  change (List.last [["runC"; Sample.ev1]; ["runC"; Sample.ev2]] [])
    with ["runC"; Sample.ev2] in H.
  assert (E : read_events Sample.both ["runC"; Sample.ev2] None =
    ([], Ok ([sample_row "acc" 3 0.75], ["acc"], backend_A)))
    by (vm_compute; reflexivity).
  rewrite E in H. destruct H as (st & Hm & Hrows & _).
  exists st. split; [exact Hm|exact Hrows].
Defined.
